(** * Bangla PDF question answering: the document-to-answer pipeline

    A shallow embedding of [src/app.py] and [src/app_deploy.py]: text
    extraction by OCR, chunking, embedding, the flat L2 index, the pickle
    cache, retrieval with [k = 3] and the completion request.

    Python values are modelled as follows.
    - [str] is a list of Unicode code points ([len] counts code points).
    - File paths and cache keys are ASCII and kept as [string].
    - The script's effects (cache files, Streamlit output, calls to the
      external services) are threaded through a state-and-exception monad.
    - Embedding components are exact integers; the order properties of the
      squared distance are what the index is verified for. *)

From Stdlib Require Import ZArith NArith List Bool Lia String Ascii.
From Stdlib Require Import Sorting.Sorted Sorting.Permutation.
From stdpp Require Import base list gmap strings sorting.

Local Open Scope Z_scope.

(** ** Python strings and lists *)

Module py.

Abbreviation str := (list N).

Definition len {A} (l : list A) : Z := Z.of_nat (length l).

(** [str.isspace] on one code point. *)
Definition isspace (c : N) : bool :=
  (((9 <=? c) && (c <=? 13)) || ((28 <=? c) && (c <=? 32))
   || (c =? 133) || (c =? 160) || (c =? 5760)
   || ((8192 <=? c) && (c <=? 8202))
   || (c =? 8232) || (c =? 8233) || (c =? 8239) || (c =? 8287)
   || (c =? 12288))%N.

Fixpoint lstrip (s : str) : str :=
  match s with
  | c :: r => if isspace c then lstrip r else s
  | [] => []
  end.

Definition rstrip (s : str) : str := rev (lstrip (rev s)).

Definition strip (s : str) : str := rstrip (lstrip s).

Definition str_eqb (a b : str) : bool := bool_decide (a = b).

Fixpoint startswith (s p : str) : bool :=
  match p, s with
  | [], _ => true
  | _ :: _, [] => false
  | x :: p', y :: s' => (x =? y)%N && startswith s' p'
  end.

(** [sub in s] *)
Fixpoint contains (sub s : str) : bool :=
  startswith s sub
  || match s with
     | [] => false
     | _ :: r => contains sub r
     end.

(** [sep.join(parts)] *)
Fixpoint join (sep : str) (parts : list str) : str :=
  match parts with
  | [] => []
  | [p] => p
  | p :: rest => p ++ sep ++ join sep rest
  end.

(** [s.split(sep)] for a non-empty [sep]: leftmost, non-overlapping
    occurrences.  [skip] counts the code points of a matched separator
    still to be consumed, [cur] is the current field, reversed. *)
Fixpoint split_from (sep s : str) (skip : nat) (cur : str) : list str :=
  match s with
  | [] => [rev cur]
  | c :: r =>
      match skip with
      | S k => split_from sep r k cur
      | O =>
          if startswith s sep
          then rev cur :: split_from sep r (length sep - 1) []
          else split_from sep r 0 (c :: cur)
      end
  end.

Definition split (s sep : str) : list str := split_from sep s 0 [].

(** ASCII literals as code points. *)
Fixpoint of_string (s : string) : str :=
  match s with
  | EmptyString => []
  | String a r => N_of_ascii a :: of_string r
  end.

(** [l[i]] with Python's negative indices; [None] is [IndexError]. *)
Definition getitem {A} (l : list A) (i : Z) : option A :=
  if (0 <=? i) && (i <? len l) then l !! Z.to_nat i
  else if (i <? 0) && (0 <=? len l + i) then l !! Z.to_nat (len l + i)
  else None.

End py.

(** ** The chunker: [langchain.text_splitter.RecursiveCharacterTextSplitter]

    Modelled from the spec: the class is imported from langchain by
    src/app.py and src/app_deploy.py, which only configure it; its code is
    not in the repository.  The definitions follow §4.2 (separators tried
    coarsest first, a split that is still too long split again with the
    finer ones, chunks bounded by the chunk size with an overlap carried
    over) with the splitting and merging loops of the library. *)

Module langchain.
Import py.

Record RecursiveCharacterTextSplitter := {
  chunk_size : Z;
  chunk_overlap : Z;
  separators : list str;
  keep_separator : bool;
  strip_whitespace : bool
}.

(** [re.split("(" + re.escape(sep) + ")", text)]: the fields with the
    separator kept between them. *)
Definition re_split_capture (sep text : str) : list str :=
  match split text sep with
  | [] => []
  | t0 :: rest => t0 :: flat_map (fun t => [sep; t]) rest
  end.

(** [[l[i] + l[i+1] for i in range(0, len(l), 2)]] *)
Fixpoint pair_up (l : list str) : list str :=
  match l with
  | a :: b :: r => (a ++ b) :: pair_up r
  | _ => []
  end.

Definition nonempty (s : str) : bool :=
  match s with [] => false | _ => true end.

Definition _split_text_with_regex (text separator : str) (keep : bool) : list str :=
  let splits :=
    if nonempty separator then
      if keep then
        let _splits := re_split_capture separator text in
        let splits := pair_up (tail _splits) in
        let splits :=
          if (Z.of_nat (length _splits) mod 2 =? 0) then splits ++ drop (length _splits - 1) _splits
          else splits in
        take 1 _splits ++ splits
      else split text separator
    else map (fun c => [c]) text in
  List.filter nonempty splits.

Definition _join_docs (T : RecursiveCharacterTextSplitter) (docs : list str) (separator : str)
  : option str :=
  let text := join separator docs in
  let text := if strip_whitespace T then strip text else text in
  if nonempty text then Some text else None.

Definition sep_if (b : bool) (separator_len : Z) : Z := if b then separator_len else 0.

(** The inner [while] of [_merge_splits]: drop pieces from the front of
    [current_doc] while more than the overlap is kept, or while the next
    piece still does not fit. *)
Fixpoint pop_front (T : RecursiveCharacterTextSplitter) (separator_len _len : Z)
    (current_doc : list str) (total : Z) : list str * Z :=
  match current_doc with
  | [] => ([], total)
  | d0 :: rest =>
      if (total >? chunk_overlap T)
         || ((total + _len + sep_if (0 <? len current_doc) separator_len >? chunk_size T)
             && (total >? 0))
      then pop_front T separator_len _len rest
             (total - (len d0 + sep_if (1 <? len current_doc) separator_len))
      else (current_doc, total)
  end.

Record merge_state := {
  docs : list str;
  current_doc : list str;
  total : Z
}.

Definition push_doc (docs : list str) (doc : option str) : list str :=
  match doc with
  | Some d => docs ++ [d]
  | None => docs
  end.

(** One iteration of [for d in splits] in [_merge_splits]. *)
Definition merge_step (T : RecursiveCharacterTextSplitter) (separator : str)
    (st : merge_state) (d : str) : merge_state :=
  let separator_len := len separator in
  let _len := len d in
  let st1 :=
    if total st + _len + sep_if (0 <? len (current_doc st)) separator_len >? chunk_size T
    then
      if 0 <? len (current_doc st) then
        let docs' := push_doc (docs st) (_join_docs T (current_doc st) separator) in
        let '(cur, tot) := pop_front T separator_len _len (current_doc st) (total st) in
        {| docs := docs'; current_doc := cur; total := tot |}
      else st
    else st in
  let cur := current_doc st1 ++ [d] in
  {| docs := docs st1;
     current_doc := cur;
     total := total st1 + _len + sep_if (1 <? len cur) separator_len |}.

Definition _merge_splits (T : RecursiveCharacterTextSplitter) (splits : list str)
    (separator : str) : list str :=
  let st := fold_left (merge_step T separator) splits
              {| docs := []; current_doc := []; total := 0 |} in
  push_doc (docs st) (_join_docs T (current_doc st) separator).

(** One iteration of [for s in splits] in [_split_text]; the state is
    [(final_chunks, _good_splits)].  [recurse] is [None] when
    [new_separators] is empty. *)
Definition split_step (T : RecursiveCharacterTextSplitter) (_separator : str)
    (recurse : option (str -> list str))
    (st : list str * list str) (s : str) : list str * list str :=
  let '(final_chunks, _good_splits) := st in
  if len s <? chunk_size T then (final_chunks, _good_splits ++ [s])
  else
    let final_chunks :=
      match _good_splits with
      | [] => final_chunks
      | _ => final_chunks ++ _merge_splits T _good_splits _separator
      end in
    match recurse with
    | None => (final_chunks ++ [s], [])
    | Some f => (final_chunks ++ f s, [])
    end.

(** The body of [_split_text] once [separator] and [new_separators] are
    chosen. *)
Definition split_with (T : RecursiveCharacterTextSplitter) (separator : str)
    (recurse : option (str -> list str)) (text : str) : list str :=
  let splits := _split_text_with_regex text separator (keep_separator T) in
  let _separator := if keep_separator T then [] else separator in
  let '(final_chunks, _good_splits) :=
    fold_left (split_step T _separator recurse) splits ([], []) in
  match _good_splits with
  | [] => final_chunks
  | _ => final_chunks ++ _merge_splits T _good_splits _separator
  end.

(** [_split_text(text, separators)].  The [for] loop that picks the first
    separator found in the text is the recursion on the list: a separator
    that does not occur hands over to the rest of the list, and the last
    one is used when none occurs.  A split that is still too long is
    split again with the separators after the chosen one. *)
Fixpoint _split_text (T : RecursiveCharacterTextSplitter) (seps : list str) (text : str)
    {struct seps} : list str :=
  match seps with
  | [] => []
  | _s :: rest =>
      if negb (nonempty _s) then split_with T _s None text
      else if contains _s text then
        split_with T _s
          (match rest with [] => None | _ => Some (_split_text T rest) end) text
      else
        match rest with
        | [] => split_with T _s None text
        | _ => _split_text T rest text
        end
  end.

(** Modelled from the spec: [split_text] of the imported splitter, §4.2. *)
Definition split_text (T : RecursiveCharacterTextSplitter) (text : str) : list str :=
  _split_text T (separators T) text.

End langchain.

(** The splitter as [process_pdf] builds it (lines 122-127 of src/app.py);
    [keep_separator] and [strip_whitespace] are the class defaults. *)
Definition text_splitter : langchain.RecursiveCharacterTextSplitter :=
  {| langchain.chunk_size := 500;
     langchain.chunk_overlap := 100;
     langchain.separators := [ [10; 10]; [2404]; [10]; [32]; [] ]%N;
     langchain.keep_separator := true;
     langchain.strip_whitespace := true |}.

(** ** Exceptions *)

Inductive exc_class :=
| IndexError | ValueError | AssertionError | AttributeError
| TesseractError       (* pytesseract.TesseractError *)
| UnpicklingError
| OtherError.          (* any other subclass of Exception *)

(** [StopException] is what [st.stop()] raises; it derives from
    [BaseException], so [except Exception] does not catch it. *)
Inductive exn :=
| StopException
| Exc (cls : exc_class) (message : py.str).

Definition is_Exception (e : exn) : bool :=
  match e with
  | StopException => false
  | Exc _ _ => true
  end.

(** [str(e)] *)
Definition str_of (e : exn) : py.str :=
  match e with
  | StopException => []
  | Exc _ m => m
  end.

Inductive result (A : Type) :=
| Ok (a : A)
| Raise (e : exn).
Arguments Ok {A} a.
Arguments Raise {A} e.

(** ** numpy arrays of embeddings and the flat L2 index

    Modelled from the spec: [numpy] and [faiss.IndexFlatL2] are imported by
    the two files; their code is not in the repository.  The index follows
    §4.4: vectors kept in input order, exact search under squared Euclidean
    distance, nearest first.  A result slot for which no stored vector is
    left holds label [-1], which is what line 235 of src/app.py then looks
    up in [chunks]. *)

Module np.

Record ndarray := {
  shape : list Z;
  rows : list (list Z)
}.

(** [np.asarray(rows)]: no row gives shape [(0,)], else one row per
    vector and the width of the vectors. *)
Definition asarray (rs : list (list Z)) : ndarray :=
  {| shape := match rs with
              | [] => [0]
              | r :: _ => [py.len rs; py.len r]
              end;
     rows := rs |}.

End np.

Module faiss.

Record IndexFlatL2 := {
  d : Z;
  xb : list (list Z)
}.

Definition new (dimension : Z) : IndexFlatL2 := {| d := dimension; xb := [] |}.

Definition ntotal (index : IndexFlatL2) : Z := py.len (xb index).

(** [index.add(x)]: [n, d = x.shape; assert d == self.d]. *)
Definition add (index : IndexFlatL2) (x : np.ndarray) : result IndexFlatL2 :=
  match np.shape x with
  | [_; dx] =>
      if dx =? d index
      then Ok {| d := d index; xb := xb index ++ np.rows x |}
      else Raise (Exc AssertionError [])
  | _ => Raise (Exc ValueError [])
  end.

(** Squared Euclidean distance. *)
Definition L2sqr (x y : list Z) : Z :=
  foldr Z.add 0 (zip_with (fun a b => (a - b) * (a - b)) x y).

Definition dist_le : relation (Z * Z) := fun a b => a.1 <= b.1.

#[global] Instance dist_le_dec : RelDecision dist_le.
Proof. intros a b. unfold dist_le. apply _. Defined.

(** The stored vectors as (distance to [q], label), nearest first. *)
Definition ranked (index : IndexFlatL2) (q : list Z) : list (Z * Z) :=
  merge_sort dist_le (imap (fun i v => (L2sqr q v, Z.of_nat i)) (xb index)).

(** The [k] result slots of one query: the nearest vectors first; a slot
    with no vector left has label [-1] and no distance. *)
Definition knn (index : IndexFlatL2) (q : list Z) (k : nat) : list (option Z * Z) :=
  let top := take k (ranked index q) in
  map (fun r => (Some r.1, r.2)) top ++ replicate (k - length top) (None, -1).

(** Modelled from the spec: [D, I = index.search(x, k)] of the imported
    index, §4.4: for each query, one row of the two-dimensional [x], the
    [k] nearest stored vectors under squared Euclidean distance, nearest
    first; on an index that holds no vector, an error. *)
Definition search (index : IndexFlatL2) (x : np.ndarray) (k : Z)
  : result (list (list (option Z)) * list (list Z)) :=
  match np.shape x with
  | [_; _] =>
      if ntotal index =? 0
      then Raise (Exc OtherError (py.of_string "search on an empty index"))
      else
        let res := map (fun q => knn index q (Z.to_nat k)) (np.rows x) in
        Ok (map (map fst) res, map (map snd) res)
  | _ => Raise (Exc ValueError [])
  end.

End faiss.

(** ** The world of the script *)

(** A cache file holds a pickled [(chunks, index)] pair, or bytes that do
    not unpickle. *)
Definition entry : Type := list py.str * faiss.IndexFlatL2.

Inductive file_content :=
| pickled (e : entry)
| garbage.

Record message := {
  role : string;
  content : py.str
}.

(** The arguments of [client.chat.completions.create]; the temperature is
    the decimal [temperature_tenths / 10]. *)
Record request := {
  model : string;
  messages : list message;
  temperature_tenths : Z;
  max_tokens : Z
}.

(** The fixed texts passed to [st.markdown]. *)
Inductive markdown_body :=
| fix_bengali_data          (* lines 89-95 of src/app.py *)
| install_tesseract         (* lines 174-182 *)
| enable_bengali            (* lines 188-197 *)
| rule.                     (* line 260 *)

(** What the script shows; [st_progress i n] is the fraction [i / n]. *)
Inductive st_call :=
| st_title (body : py.str)
| st_error (body : py.str)
| st_warning (body : py.str)
| st_info (body : py.str)
| st_markdown (body : markdown_body)
| st_success (body : py.str)
| st_spinner (text : py.str)
| st_progress (i n : Z)
| st_subheader (body : py.str)
| st_expander (label : py.str)
| st_text (body : py.str)
| st_caption (body : py.str).

(** Calls to the external services, in order. *)
Inductive call :=
| call_convert_from_path (pdf_path : string) (dpi : Z)
| call_image_to_string (config : string)
| call_split_text (text : py.str)
| call_encode (sentences : list py.str)
| call_search (k : Z)
| call_create (req : request).

Record world := {
  files : gmap string file_content;
  OPENAI_API_KEY : option py.str;
  ui : list st_call;
  calls : list call
}.

Definition M (A : Type) : Type := world -> result A * world.

#[global] Instance M_ret : MRet M := fun A a w => (Ok a, w).

#[global] Instance M_bind : MBind M := fun A B f m w =>
  match m w with
  | (Ok a, w') => f a w'
  | (Raise e, w') => (Raise e, w')
  end.

Definition raise {A} (e : exn) : M A := fun w => (Raise e, w).

Definition lift {A} (r : result A) : M A := fun w => (r, w).

(** [try: body  except Exception as e: handler(e)] *)
Definition try_except_Exception {A} (body : M A) (handler : exn -> M A) : M A :=
  fun w =>
    match body w with
    | (Raise e, w') => if is_Exception e then handler e w' else (Raise e, w')
    | r => r
    end.

(** [try: body  except cls as e: handler(e)] *)
Definition try_except {A} (is_cls : exc_class -> bool) (body : M A) (handler : exn -> M A)
  : M A :=
  fun w =>
    match body w with
    | (Raise (Exc c m), w') =>
        if is_cls c then handler (Exc c m) w' else (Raise (Exc c m), w')
    | r => r
    end.

Definition st (c : st_call) : M unit := fun w =>
  (Ok tt, {| files := files w; OPENAI_API_KEY := OPENAI_API_KEY w;
             ui := ui w ++ [c]; calls := calls w |}).

Definition st_stop {A} : M A := raise StopException.

Definition called (c : call) : M unit := fun w =>
  (Ok tt, {| files := files w; OPENAI_API_KEY := OPENAI_API_KEY w;
             ui := ui w; calls := calls w ++ [c] |}).

Definition path_exists (path : string) : M bool := fun w =>
  (Ok (bool_decide (is_Some (files w !! path))), w).

(** [pickle.load(open(path, "rb"))] *)
Definition pickle_load (path : string) : M entry := fun w =>
  match files w !! path with
  | Some (pickled e) => (Ok e, w)
  | Some garbage => (Raise (Exc UnpicklingError []), w)
  | None => (Raise (Exc OtherError []), w)
  end.

(** [pickle.dump(e, open(path, "wb"))] *)
Definition pickle_dump (e : entry) (path : string) : M unit := fun w =>
  (Ok tt, {| files := <[path := pickled e]> (files w); OPENAI_API_KEY := OPENAI_API_KEY w;
             ui := ui w; calls := calls w |}).

Definition getenv_OPENAI_API_KEY : M (option py.str) := fun w => (Ok (OPENAI_API_KEY w), w).

(** ** The external services *)

Class Services := {
  image : Type;
  (** [pdf2image.convert_from_path(path, dpi=300)] *)
  convert_from_path : string -> result (list image);
  (** [pytesseract.image_to_string(image, config=...)] *)
  image_to_string : image -> string -> result py.str;
  (** one row of [SentenceTransformer.encode] *)
  embed : py.str -> list Z;
  (** [OpenAI(api_key=key).chat.completions.create(...)] up to
      [.choices[0].message.content], given the API key of the environment;
      the content may be [None] *)
  create : option py.str -> request -> result (option py.str)
}.

(** ** Code shared by [src/app.py] and [src/app_deploy.py]

    [process_pdf] and [query_openai] have the same text in both files, and
    the question path differs only in the prompt template; they are
    written once, over the extractor and the template. *)

(** [os.path.basename] *)
Fixpoint basename_from (p acc : string) : string :=
  match p with
  | EmptyString => acc
  | String c r =>
      if Ascii.eqb c "/" then basename_from r EmptyString
      else basename_from r (acc ++ String c EmptyString)
  end.

Definition basename (p : string) : string := basename_from p EmptyString.

(** [os.path.join(cache_dir, f"{os.path.basename(pdf_path)}.pkl")] *)
Definition cache_path_of (pdf_path : string) : string :=
  ("cache/" ++ basename pdf_path ++ ".pkl")%string.

Definition warning_sign : py.str := [9888; 65039]%N.

Definition system_instruction : py.str :=
  py.of_string "You are a helpful assistant that answers questions in Bangla.".

(** Python truthiness of [answer]. *)
Definition truthy (answer : option py.str) : bool :=
  match answer with
  | Some (_ :: _) => true
  | _ => false
  end.

Fixpoint mapM {A B} (f : A -> result B) (l : list A) : result (list B) :=
  match l with
  | [] => Ok []
  | a :: r =>
      match f a with
      | Raise e => Raise e
      | Ok b =>
          match mapM f r with
          | Raise e => Raise e
          | Ok bs => Ok (b :: bs)
          end
      end
  end.

Definition index_or_raise {A} (l : list A) (i : Z) : result A :=
  match py.getitem l i with
  | Some a => Ok a
  | None => Raise (Exc IndexError (py.of_string "index out of range"))
  end.

Section pipeline.
Context `{Services}.

(** [process_pdf(pdf_path, model)], lines 107-143 of src/app.py and
    154-188 of src/app_deploy.py. *)
Definition process_pdf_with (extract_text_from_pdf : string -> M py.str)
    (pdf_path : string) : M entry :=
  let cache_path := cache_path_of pdf_path in
  hit ← path_exists cache_path;
  if (hit : bool) then pickle_load cache_path
  else
    text ← extract_text_from_pdf pdf_path;
    called (call_split_text text);;
    let chunks := langchain.split_text text_splitter text in
    st (st_spinner (py.of_string "Creating embeddings..."));;
    called (call_encode chunks);;
    let embeddings := np.asarray (map embed chunks) in
    dimension ← lift (index_or_raise (np.shape embeddings) 1);
    let index := faiss.new dimension in
    index ← lift (faiss.add index embeddings);
    pickle_dump (chunks, index) cache_path;;
    mret (chunks, index).

(** The arguments of the completion call, lines 151-159 of src/app.py. *)
Definition completion_request (prompt : py.str) : request :=
  {| model := "gpt-4o";
     messages := [ {| role := "system"; content := system_instruction |};
                   {| role := "user"; content := prompt |} ];
     temperature_tenths := 2;
     max_tokens := 500 |}.

(** [client = OpenAI(api_key=key)], lines 148-149, given what the service
    answers for that key.  The client is built before any request: with no
    key in the environment, a failure of the service is the constructor's,
    and the request of line 151 is never made. *)
Definition OpenAI (key : option py.str) (response : result (option py.str)) : result unit :=
  match key, response with
  | None, Raise e => Raise e
  | _, _ => Ok tt
  end.

(** [query_openai(prompt)] *)
Definition query_openai (prompt : py.str) : M (option py.str) :=
  try_except_Exception
    (key ← getenv_OPENAI_API_KEY;
     let response := create key (completion_request prompt) in
     lift (OpenAI key response);;
     called (call_create (completion_request prompt));;
     message_content ← lift response;
     match message_content with
     | Some c => mret (Some (py.strip c))
     | None => raise (Exc AttributeError (py.of_string "'NoneType' object has no attribute 'strip'"))
     end)
    (fun e =>
       st (st_error (py.of_string "OpenAI Error: " ++ str_of e));;
       mret None).

(** Lines 231-235 of src/app.py: embed the question, search with
    [k = 3], look the labels up in [chunks] and join. *)
Definition retrieve (chunks : list py.str) (index : faiss.IndexFlatL2)
    (question : py.str) : M py.str :=
  called (call_encode [question]);;
  let question_embedding := np.asarray (map embed [question]) in
  called (call_search 3);;
  DI ← lift (faiss.search index question_embedding 3);
  I0 ← lift (index_or_raise DI.2 0);
  picked ← lift (mapM (index_or_raise chunks) I0);
  mret (py.join [10; 10]%N picked).

(** Lines 229-257 of src/app.py: the question path. *)
Definition question_path (build_prompt : py.str -> py.str -> py.str)
    (chunks : list py.str) (index : faiss.IndexFlatL2)
    (question openai_api_key : py.str) : M unit :=
  if langchain.nonempty question && langchain.nonempty openai_api_key then
    context ← retrieve chunks index question;
    let prompt := build_prompt context question in
    st (st_spinner (py.of_string "Generating answer..."));;
    answer ← query_openai prompt;
    match answer with
    | Some a =>
        if truthy answer then
          st (st_subheader (py.of_string "Answer:"));;
          st (st_success a);;
          st (st_expander (py.of_string "See context used"));;
          st (st_text context)
        else mret tt
    | None => mret tt
    end
  else mret tt.

End pipeline.

Definition indent : py.str := replicate 8 32%N.

(** The Bangla template: [prompt_bn_head ++ context ++ prompt_bn_mid ++
    question ++ prompt_bn_tail]. *)
Definition prompt_bn_head : py.str :=
  [10]%N ++ indent
  ++ [2472; 2495; 2458; 2503; 2480; 32; 2474; 2509; 2480; 2488; 2457; 2509; 2455; 32;
      2476; 2509; 2479; 2476; 2489; 2494; 2480; 32; 2453; 2480; 2503; 32; 2474; 2509;
      2480; 2486; 2509; 2472; 2503; 2480; 32; 2441; 2468; 2509; 2468; 2480; 32; 2470;
      2494; 2451; 58]%N
  ++ [10]%N ++ indent ++ [10]%N ++ indent
  ++ [2474; 2509; 2480; 2488; 2457; 2509; 2455; 58]%N
  ++ [10]%N ++ indent.

Definition prompt_bn_mid : py.str :=
  [10]%N ++ indent ++ [10]%N ++ indent ++ [2474; 2509; 2480; 2486; 2509; 2472; 58; 32]%N.

Definition prompt_bn_tail : py.str :=
  [10]%N ++ indent ++ [2441; 2468; 2509; 2468; 2480; 58]%N ++ [10]%N ++ indent.

Definition prompt_bn (context question : py.str) : py.str :=
  prompt_bn_head ++ context ++ prompt_bn_mid ++ question ++ prompt_bn_tail.

Definition prompt_en (context question : py.str) : py.str :=
  ([10]%N ++ indent ++ py.of_string "Answer the question based on the following context:"
   ++ [10]%N ++ indent ++ [10]%N ++ indent ++ py.of_string "Context:" ++ [10]%N ++ indent)
  ++ context
  ++ ([10]%N ++ indent ++ [10]%N ++ indent ++ py.of_string "Question: ")
  ++ question
  ++ ([10]%N ++ indent ++ py.of_string "Answer:" ++ [10]%N ++ indent).

Definition is_TesseractError (c : exc_class) : bool :=
  match c with
  | TesseractError => true
  | _ => false
  end.

(** ** src/app.py *)

Module app.
Section with_services.
Context `{Services}.

Definition TESSERACT_CONFIG : string := "--oem 3 --psm 6 -l ben".

Definition ben_not_found : py.str :=
  warning_sign ++ py.of_string " Bengali language data not found for Tesseract!".

(** [for i, image in enumerate(images)], lines 82-100, from page [i] of
    [n]. *)
Fixpoint ocr_pages (images : list image) (i n : Z) (full_text : py.str) : M py.str :=
  match images with
  | [] => mret full_text
  | image :: rest =>
      full_text ←
        try_except is_TesseractError
          (called (call_image_to_string TESSERACT_CONFIG);;
           text ← lift (image_to_string image TESSERACT_CONFIG);
           mret (full_text ++ text ++ [10; 10]%N))
          (fun e =>
             if py.contains (py.of_string "ben") (str_of e) then
               st (st_error ben_not_found);;
               st (st_markdown fix_bengali_data);;
               st_stop
             else
               st (st_error (py.of_string "Tesseract error: " ++ str_of e));;
               st_stop);
      st (st_progress (i + 1) n);;
      ocr_pages rest (i + 1) n full_text
  end.

(** [extract_text_from_pdf(pdf_path)], lines 74-105. *)
Definition extract_text_from_pdf (pdf_path : string) : M py.str :=
  try_except_Exception
    (called (call_convert_from_path pdf_path 300);;
     images ← lift (convert_from_path pdf_path);
     st (st_spinner (py.of_string "Extracting text from PDF..."));;
     st (st_progress 0 1);;
     full_text ← ocr_pages images 0 (py.len images) [];
     st (st_success (py.of_string "Text extraction complete!"));;
     mret full_text)
    (fun e =>
       st (st_error (py.of_string "Error processing PDF: " ++ str_of e));;
       st_stop).

Definition process_pdf : string -> M entry := process_pdf_with extract_text_from_pdf.

Definition PDF_PATH : string := "data/bangla_document.pdf".

(** [main()], lines 165-261.  The two installation checks, the presence
    of the PDF and the two text inputs are arguments; the page
    configuration and the sidebar widgets are left out. *)
Definition main (tesseract_installed bengali_support pdf_exists : bool)
    (openai_api_key question : py.str) : M unit :=
  st (st_title ([128196]%N ++ py.of_string " Bangla PDF Question Answering System"));;
  if negb tesseract_installed then
    st (st_error (warning_sign ++ py.of_string " Tesseract OCR is not installed or not found!"));;
    st (st_markdown install_tesseract);;
    st_stop
  else if negb bengali_support then
    st (st_error ben_not_found);;
    st (st_markdown enable_bengali);;
    st_stop
  else
    (fun w => (Ok tt, {| files := files w;
                         OPENAI_API_KEY :=
                           if langchain.nonempty openai_api_key then Some openai_api_key
                           else OPENAI_API_KEY w;
                         ui := ui w; calls := calls w |}));;
    if negb pdf_exists then
      st (st_warning (py.of_string "PDF not found at: " ++ py.of_string PDF_PATH));;
      st (st_info (py.of_string "Please place your Bangla PDF in the 'data' folder as 'bangla_document.pdf'"));;
      st_stop
    else
      ci ← process_pdf PDF_PATH;
      st (st_subheader (py.of_string "Ask questions about the document"));;
      question_path prompt_bn ci.1 ci.2 question openai_api_key;;
      st (st_markdown rule);;
      st (st_caption (py.of_string "Note: First run will take time for OCR processing. Subsequent runs will use cached embeddings.")).

End with_services.
End app.

(** ** src/app_deploy.py *)

Module app_deploy.
Section with_services.
Context `{Services}.

(** [TESSERACT_CONFIG] is set when the module is loaded, lines 95-114:
    Bengali when its language data is available, else English. *)
Definition TESSERACT_CONFIG (BENGALI_AVAILABLE : bool) : string :=
  if BENGALI_AVAILABLE then "--oem 3 --psm 6 -l ben" else "--oem 3 --psm 6 -l eng".

Variable config : string.

Fixpoint ocr_pages (images : list image) (i n : Z) (full_text : py.str) : M py.str :=
  match images with
  | [] => mret full_text
  | image :: rest =>
      full_text ←
        try_except is_TesseractError
          (called (call_image_to_string config);;
           text ← lift (image_to_string image config);
           mret (full_text ++ text ++ [10; 10]%N))
          (fun e =>
             st (st_error (py.of_string "Tesseract error: " ++ str_of e));;
             st_stop);
      st (st_progress (i + 1) n);;
      ocr_pages rest (i + 1) n full_text
  end.

(** [extract_text_from_pdf(pdf_path)], lines 132-152. *)
Definition extract_text_from_pdf (pdf_path : string) : M py.str :=
  try_except_Exception
    (called (call_convert_from_path pdf_path 300);;
     images ← lift (convert_from_path pdf_path);
     st (st_spinner (py.of_string "Extracting text from PDF..."));;
     st (st_progress 0 1);;
     full_text ← ocr_pages images 0 (py.len images) [];
     st (st_success (py.of_string "Text extraction complete!"));;
     mret full_text)
    (fun e =>
       st (st_error (py.of_string "Error processing PDF: " ++ str_of e));;
       st_stop).

Definition process_pdf : string -> M entry := process_pdf_with extract_text_from_pdf.

(** Lines 252-271: the template follows the OCR language. *)
Definition build_prompt (context question : py.str) : py.str :=
  if py.contains (py.of_string "ben") (py.of_string config)
  then prompt_bn context question
  else prompt_en context question.

End with_services.
End app_deploy.

(** ** A test double for the services

    A page image is what OCR makes of it; the embedding of a text is its
    length and the sum of its code points. *)

Definition mock_embed (t : py.str) : list Z :=
  [py.len t; Z.of_N (foldr N.add 0%N t)].

Definition mock (pdf : string -> result (list (result py.str)))
    (completion : result (option py.str)) : Services :=
  {| image := result py.str;
     convert_from_path := pdf;
     image_to_string := fun img _ => img;
     embed := mock_embed;
     create := fun _ _ => completion |}.

Definition empty_world : world :=
  {| files := ∅; OPENAI_API_KEY := None; ui := []; calls := [] |}.

(** ** What [process_pdf] builds *)

Section built.
Context `{Services}.

(** The index over the embeddings of [chunks], row [i] for chunk [i]. *)
Definition build_index (chunks : list py.str) : faiss.IndexFlatL2 :=
  {| faiss.d := py.len (embed (hd [] chunks));
     faiss.xb := map embed chunks |}.

Definition well_formed (e : entry) : Prop :=
  e.1 <> [] /\ e.2 = build_index e.1.

(** Every pickled pair in the cache directory is one that the pipeline
    built. *)
Definition cache_well_formed (fs : gmap string file_content) : Prop :=
  forall k e, fs !! k = Some (pickled e) -> well_formed e.

(** The world after chunking and embedding, before the index is built. *)
Definition embedded (w0 : world) (text : py.str) : world :=
  {| files := files w0;
     OPENAI_API_KEY := OPENAI_API_KEY w0;
     ui := ui w0 ++ [st_spinner (py.of_string "Creating embeddings...")];
     calls := (calls w0 ++ [call_split_text text])
              ++ [call_encode (langchain.split_text text_splitter text)] |}.

Definition persisted (w1 : world) (path : string) (e : entry) : world :=
  {| files := <[path := pickled e]> (files w1);
     OPENAI_API_KEY := OPENAI_API_KEY w1;
     ui := ui w1;
     calls := calls w1 |}.

(** Extraction fails: the PDF does not convert, or OCR raises on a page. *)
Definition extraction_fails (config pdf_path : string) : Prop :=
  match convert_from_path pdf_path with
  | Raise _ => True
  | Ok images => Exists (fun img => exists e, image_to_string img config = Raise e) images
  end.

End built.

(** The extractor of either file, with the OCR configuration it runs. *)
Inductive extractor `{Services} : string -> (string -> M py.str) -> Prop :=
| extractor_app : extractor app.TESSERACT_CONFIG app.extract_text_from_pdf
| extractor_deploy config : extractor config (app_deploy.extract_text_from_pdf config).

(** A two-page document for the test double. *)
Definition two_pages : list (result py.str) :=
  [ Ok [2474; 2509; 2480; 2469; 2478; 32; 2474; 2499; 2487; 2509; 2464; 2494; 2404]%N;
    Ok [2470; 2509; 2476; 2495; 2468; 2496; 2479; 2492; 32; 2474; 2499; 2487; 2509; 2464;
        2494; 2404]%N ].

Definition mock_pdf (pages : list (result py.str)) (path : string) : result (list (result py.str)) :=
  if String.eqb path app.PDF_PATH then Ok pages
  else Raise (Exc OtherError (py.of_string "Unable to get page count."))%N.

Definition ben_missing : exn :=
  Exc TesseractError (py.of_string "Failed loading language 'ben'").

(** What the page shows for a missing language: the error of line 88 and
    the instructions of lines 89-95 of src/app.py. *)
Definition surfaces_language_data_missing (shown : list st_call) : Prop :=
  In (st_error app.ben_not_found) shown /\ In (st_markdown fix_bengali_data) shown.

(** The report of any other Tesseract failure. *)
Definition generic_report (e : exn) : st_call :=
  st_error (py.of_string "Tesseract error: " ++ str_of e).

Definition not_error (c : st_call) : Prop := forall body, c <> st_error body.

Definition asked (w : world) (question : py.str) : world :=
  {| files := files w;
     OPENAI_API_KEY := OPENAI_API_KEY w;
     ui := ui w;
     calls := (calls w ++ [call_encode [question]]) ++ [call_search 3] |}.

(** The value of [retrieve]: it depends on the chunks, the index and the
    question only. *)
Definition retrieved `{Services} (chunks : list py.str) (index : faiss.IndexFlatL2)
    (question : py.str) : result py.str :=
  match faiss.search index (np.asarray (map embed [question])) 3 with
  | Raise e => Raise e
  | Ok DI =>
      match index_or_raise DI.2 0 with
      | Raise e => Raise e
      | Ok I0 =>
          match mapM (index_or_raise chunks) I0 with
          | Raise e => Raise e
          | Ok picked => Ok (py.join [10; 10]%N picked)
          end
      end
  end.

(** A text the chunker can only split between characters: no whitespace
    (so no paragraph break, newline or space) and no danda. *)
Definition unbroken (text : py.str) : Prop :=
  Forall (fun c => py.isspace c = false /\ c <> 2404%N) text.

(** In a list of chunks, each chunk but the last has [size] characters and
    its last [overlap] characters are the first [overlap] characters of the
    next chunk. *)
Definition overlapping (size overlap : nat) (chunks : list py.str) : Prop :=
  forall i a b, chunks !! i = Some a -> chunks !! S i = Some b ->
    length a = size /\ drop (size - overlap) a = take overlap b.

(** Labels with their chunks. *)
Definition pick (chunks : list py.str) (label : Z) : py.str :=
  default [] (py.getitem chunks label).

Definition candidates (index : faiss.IndexFlatL2) (q : list Z) : list (Z * Z) :=
  imap (fun i v => (faiss.L2sqr q v, Z.of_nat i)) (faiss.xb index).

(** The embedder has one output width. *)
Definition fixed_width `{Services} : Prop :=
  forall s t : py.str, length (embed s) = length (embed t).

(** ** Invariants of the chunker's loops *)

Definition fits (T : langchain.RecursiveCharacterTextSplitter) (s : py.str) : Prop :=
  py.len s <= langchain.chunk_size T.

(** What [_merge_splits] keeps of [current_doc] for the next chunk when it
    cuts one before a piece of length [_len]. *)
Definition carried_over (T : langchain.RecursiveCharacterTextSplitter) (_len : Z)
    (current_doc : list py.str) : py.str :=
  concat (langchain.pop_front T 0 _len current_doc (py.len (concat current_doc))).1.

(** In [_merge_splits] with the empty separator: the running total is the
    length of what [current_doc] joins to, it fits, and so does every
    document already cut. *)
Definition merge_inv (T : langchain.RecursiveCharacterTextSplitter)
    (st : langchain.merge_state) : Prop :=
  langchain.total st = py.len (concat (langchain.current_doc st))
  /\ langchain.total st <= langchain.chunk_size T
  /\ Forall (fits T) (langchain.docs st).

Definition single (c : N) : py.str := [c].

(** The state of [_merge_splits] while it reads single characters: the
    window [w] being filled, after the chunks already cut. *)
Definition window_inv (T : langchain.RecursiveCharacterTextSplitter) (size lap : nat)
    (st : langchain.merge_state) : Prop :=
  exists w,
    langchain.current_doc st = map single w
    /\ langchain.total st = py.len w
    /\ (length w <= size)%nat
    /\ unbroken w
    /\ overlapping size lap (langchain.docs st)
    /\ (forall a, last (langchain.docs st) = Some a ->
          length a = size /\ (lap < length w)%nat /\ drop (size - lap) a = take lap w).

(** Twelve words of 49 letters, separated by single spaces. *)
Definition words_text : py.str :=
  concat (map (fun k => (if (k =? 0)%nat then [] else [32%N]) ++ repeat (N.of_nat (97 + k)) 49)
            (seq 0 12)).

(** ** Statements about extraction and the question path *)

(** The text of a document whose pages read as [texts]: each page followed
    by a blank line. *)
Definition pages_text (texts : list py.str) : py.str :=
  concat (map (fun t => t ++ [10; 10]%N) texts).

(** The progress shown for [k] pages after page [i] of [n]. *)
Fixpoint progress_from (i n : Z) (k : nat) : list st_call :=
  match k with
  | O => []
  | S k' => st_progress (i + 1) n :: progress_from (i + 1) n k'
  end.

Definition reads `{Services} (config : string) (img : image) (text : py.str) : Prop :=
  image_to_string img config = Ok text.

(** What the page shows once an answer is there. *)
Definition answer_shown (answer context : py.str) : list st_call :=
  [ st_spinner (py.of_string "Generating answer...");
    st_subheader (py.of_string "Answer:");
    st_success answer;
    st_expander (py.of_string "See context used");
    st_text context ].

(** The start of [main()]: the title is shown. *)
Definition titled (w : world) : world :=
  {| files := files w;
     OPENAI_API_KEY := OPENAI_API_KEY w;
     ui := ui w ++ [st_title ([128196]%N ++ py.of_string " Bangla PDF Question Answering System")];
     calls := calls w |}.

(** [os.environ["OPENAI_API_KEY"] = openai_api_key] when the sidebar field
    is not empty. *)
Definition with_key (openai_api_key : py.str) (w : world) : world :=
  {| files := files w;
     OPENAI_API_KEY := if langchain.nonempty openai_api_key then Some openai_api_key
                       else OPENAI_API_KEY w;
     ui := ui w;
     calls := calls w |}.

Definition keeps_key {A} (m : M A) : Prop :=
  forall w, OPENAI_API_KEY (m w).2 = OPENAI_API_KEY w.

(** What [main()] shows when it stops before processing the document. *)
Definition stop_report (tesseract_installed bengali_support : bool) : list st_call :=
  if negb tesseract_installed then
    [ st_error (warning_sign ++ py.of_string " Tesseract OCR is not installed or not found!");
      st_markdown install_tesseract ]
  else if negb bengali_support then
    [ st_error app.ben_not_found; st_markdown enable_bengali ]
  else
    [ st_warning (py.of_string "PDF not found at: " ++ py.of_string app.PDF_PATH);
      st_info (py.of_string "Please place your Bangla PDF in the 'data' folder as 'bangla_document.pdf'") ].

(** The foot of the page. *)
Definition footer : list st_call :=
  [ st_markdown rule;
    st_caption (py.of_string "Note: First run will take time for OCR processing. Subsequent runs will use cached embeddings.") ].

(** ** Statements about the chunks *)

(** A text of whitespace only, as OCR gives for blank pages. *)
Definition blank (s : py.str) : Prop := Forall (fun c => py.isspace c = true) s.

(** A chunk that is not empty and neither starts nor ends with
    whitespace. *)
Definition trimmed (chunk : py.str) : Prop :=
  (exists c r, chunk = c :: r /\ py.isspace c = false)
  /\ (forall c, last chunk = Some c -> py.isspace c = false).

(** ** The page of src/app_deploy.py *)

(** Lines 211-286 of src/app_deploy.py, the script after its
    initialisation.  The OCR configuration set at load time, whether a
    file was uploaded, whether the PDF was there before, and the two text
    inputs are arguments; the page configuration and the sidebar widgets
    are left out, as for [main()] of src/app.py.  An upload is saved as
    [PDF_PATH], after which the PDF exists. *)
Definition app_deploy_page `{Services} (TESSERACT_CONFIG : string)
    (uploaded_file pdf_exists : bool) (openai_api_key question : py.str) : M unit :=
  st (st_title ([128196]%N ++ py.of_string " Bangla PDF Question Answering System"));;
  (fun w => (Ok tt, with_key openai_api_key w));;
  let pdf_exists := uploaded_file || pdf_exists in
  if negb pdf_exists then
    st (st_warning (py.of_string "No PDF document found!"));;
    st (st_info (py.of_string "Please upload a PDF document using the sidebar."));;
    st_stop
  else
    ci ← app_deploy.process_pdf TESSERACT_CONFIG app.PDF_PATH;
    st (st_subheader (py.of_string "Ask questions about the document"));;
    question_path (app_deploy.build_prompt TESSERACT_CONFIG) ci.1 ci.2 question openai_api_key;;
    st (st_markdown rule);;
    st (st_caption (py.of_string "Note: First run will take time for OCR processing. Subsequent runs will use cached embeddings.")).

(** The calls that read the PDF: conversion, OCR and chunking. *)
Definition extraction_call (c : call) : bool :=
  match c with
  | call_convert_from_path _ _ | call_image_to_string _ | call_split_text _ => true
  | _ => false
  end.

(** A computation that makes none of them. *)
Definition reads_no_pdf {A} (m : M A) : Prop :=
  forall w, exists new,
    calls (m w).2 = calls w ++ new /\ Forall (fun c => extraction_call c = false) new.

(** ** The host of the scripts

    The installation checks of both files and the initialisation of
    src/app_deploy.py ask the operating system: they probe paths, run the
    [tesseract] program and download a file.  The host answers each
    request from the requests made so far, so that any sequence of
    answers can be given. *)

Module host.

(** What a call of the standard library raises here: [FileNotFoundError],
    or another subclass of [Exception]; [message] is [str(e)]. *)
Inductive raised :=
| FileNotFoundError (message : py.str)
| OtherException (message : py.str).

Definition str_of (e : raised) : py.str :=
  match e with
  | FileNotFoundError message | OtherException message => message
  end.

(** [subprocess.run(cmd, capture_output=True, text=True)]: the completed
    process, or what the call raises. *)
Inductive run_result :=
| CompletedProcess (returncode : Z) (stdout : py.str)
| RunRaises (e : raised).

(** The requests made to the host, with their answers. *)
Inductive event :=
| probed (path : string) (found : bool)                     (* os.path.exists *)
| ran (cmd : list string) (answer : run_result)             (* subprocess.run *)
| downloaded (url filename : string) (error : option raised). (* urllib.request.urlretrieve *)

Class Machine := {
  os_path_exists_after : list event -> string -> bool;
  subprocess_run_after : list event -> list string -> run_result;
  (** [None] when the file was saved, else the exception *)
  urlretrieve_after : list event -> string -> string -> option raised
}.

(** The texts given to [st.markdown] while src/app_deploy.py loads. *)
Inductive markdown_text :=
| tesseract_not_available_note   (* lines 85-91 *)
| english_ocr_note.              (* lines 104-106 *)

Inductive notice :=
| st_error (body : py.str)
| st_warning (body : py.str)
| st_info (body : py.str)
| st_success (body : py.str)
| st_spinner (text : py.str)
| st_markdown (body : markdown_text).

Record state := {
  os_name : string;
  tesseract_cmd : string;        (* pytesseract.pytesseract.tesseract_cmd *)
  events : list event;
  page : list notice
}.

Inductive outcome (A : Type) :=
| Returns (a : A)
| Raises (e : raised)
| Stops.                         (* st.stop() *)

Arguments Returns {A} a.
Arguments Raises {A} e.
Arguments Stops {A}.

Definition H (A : Type) : Type := state -> outcome A * state.

#[global] Instance H_ret : MRet H := fun A a h => (Returns a, h).

#[global] Instance H_bind : MBind H := fun A B f m h =>
  match m h with
  | (Returns a, h') => f a h'
  | (Raises e, h') => (Raises e, h')
  | (Stops, h') => (Stops, h')
  end.

Definition logged (ev : event) (h : state) : state :=
  {| os_name := os_name h; tesseract_cmd := tesseract_cmd h;
     events := events h ++ [ev]; page := page h |}.

Section with_machine.
Context `{Machine}.

Definition get_os_name : H string := fun h => (Returns (os_name h), h).

Definition get_tesseract_cmd : H string := fun h => (Returns (tesseract_cmd h), h).

Definition set_tesseract_cmd (path : string) : H unit := fun h =>
  (Returns tt, {| os_name := os_name h; tesseract_cmd := path;
                  events := events h; page := page h |}).

Definition os_path_exists (path : string) : H bool := fun h =>
  let found := os_path_exists_after (events h) path in
  (Returns found, logged (probed path found) h).

Definition subprocess_run (cmd : list string) : H (Z * py.str) := fun h =>
  let answer := subprocess_run_after (events h) cmd in
  (match answer with
   | CompletedProcess returncode stdout => Returns (returncode, stdout)
   | RunRaises e => Raises e
   end, logged (ran cmd answer) h).

Definition urlretrieve (url filename : string) : H unit := fun h =>
  let error := urlretrieve_after (events h) url filename in
  (match error with
   | None => Returns tt
   | Some e => Raises e
   end, logged (downloaded url filename error) h).

Definition show (n : notice) : H unit := fun h =>
  (Returns tt, {| os_name := os_name h; tesseract_cmd := tesseract_cmd h;
                  events := events h; page := page h ++ [n] |}).

Definition stop {A} : H A := fun h => (Stops, h).

(** [try: body  except cls: handler] *)
Definition try_except {A} (catches : raised -> bool) (body : H A) (handler : raised -> H A)
  : H A :=
  fun h =>
    match body h with
    | (Raises e, h') => if catches e then handler e h' else (Raises e, h')
    | r => r
    end.

Definition is_FileNotFoundError (e : raised) : bool :=
  match e with
  | FileNotFoundError _ => true
  | OtherException _ => false
  end.

(** Every exception raised here derives from [Exception]. *)
Definition is_Exception (e : raised) : bool := true.

Definition tesseract_paths : list string :=
  [ "C:\Program Files\Tesseract-OCR\tesseract.exe";
    "C:\Program Files (x86)\Tesseract-OCR\tesseract.exe" ]%string.

(** [for path in tesseract_paths: if os.path.exists(path): ... return True],
    lines 27-30 of src/app.py and 49-52 of src/app_deploy.py; [false]
    when the loop ends. *)
Fixpoint first_existing (paths : list string) : H bool :=
  match paths with
  | [] => mret false
  | path :: rest =>
      found ← os_path_exists path;
      if (found : bool) then set_tesseract_cmd path;; mret true
      else first_existing rest
  end.

End with_machine.
End host.

(** The two checks of src/app.py, lines 19-67. *)
Module app_host.
Import host.
Section with_machine.
Context `{Machine}.

Definition check_tesseract_installation : H bool :=
  name ← get_os_name;
  if String.eqb name "nt" then
    found ← first_existing tesseract_paths;
    if (found : bool) then mret true
    else
      try_except is_FileNotFoundError
        (result ← subprocess_run ["tesseract"; "--version"]%string;
         if result.1 =? 0 then mret true else mret false)
        (fun _ => mret false)
  else
    try_except is_FileNotFoundError
      (result ← subprocess_run ["tesseract"; "--version"]%string;
       mret (result.1 =? 0))
      (fun _ => mret false).

Definition check_bengali_support : H bool :=
  try_except is_Exception
    (name ← get_os_name;
     cmd ← (if String.eqb name "nt"
            then tesseract_cmd ← get_tesseract_cmd; mret [tesseract_cmd; "--list-langs"%string]
            else mret ["tesseract"; "--list-langs"]%string);
     result ← subprocess_run cmd;
     if result.1 =? 0 then mret (py.contains (py.of_string "ben") result.2)
     else mret false)
    (fun _ => mret false).

(** Lines 172-198 of [main()]: the page is built only when both checks
    return [True]; the result is what [main] of [app] takes as its first
    two arguments. *)
Definition checks : H (bool * bool) :=
  tesseract_installed ← check_tesseract_installation;
  if negb tesseract_installed then mret (false, false)
  else
    bengali_support ← check_bengali_support;
    mret (true, bengali_support).

End with_machine.
End app_host.

(** The set-up, the two checks and the initialisation of
    src/app_deploy.py, lines 21-114. *)
Module app_deploy_host.
Import host.
Section with_machine.
Context `{Machine}.

Definition ben_url : string :=
  "https://github.com/tesseract-ocr/tessdata/raw/main/ben.traineddata".

Definition setup_tesseract : H bool :=
  name ← get_os_name;
  if String.eqb name "posix" then
    found ← os_path_exists "/usr/share/tesseract-ocr/4.00/tessdata/";
    let tessdata_dir := if (found : bool) then "/usr/share/tesseract-ocr/4.00/tessdata/"
                        else "/usr/share/tesseract-ocr/tessdata/" in
    let ben_path := (tessdata_dir ++ "ben.traineddata")%string in
    found ← os_path_exists ben_path;
    if negb found then
      try_except is_Exception
        (show (st_spinner (py.of_string "Downloading Bengali language data..."));;
         urlretrieve ben_url ben_path;;
         show (st_success (py.of_string "Bengali language data downloaded successfully!"));;
         mret true)
        (fun e =>
           show (st_warning (py.of_string "Could not download Bengali data: " ++ str_of e));;
           mret false)
    else mret true
  else first_existing tesseract_paths.

Definition check_tesseract_installation : H bool :=
  try_except is_Exception
    (result ← subprocess_run ["tesseract"; "--version"]%string;
     mret (result.1 =? 0))
    (fun _ => mret false).

Definition check_bengali_support : H bool :=
  try_except is_Exception
    (result ← subprocess_run ["tesseract"; "--list-langs"]%string;
     if result.1 =? 0 then mret (py.contains (py.of_string "ben") result.2)
     else mret false)
    (fun _ => mret false).

(** Lines 76-114, run when the module is loaded; the result is
    [(TESSERACT_AVAILABLE, BENGALI_AVAILABLE, TESSERACT_CONFIG)]. *)
Definition init : H (bool * bool * string) :=
  ok ← setup_tesseract;
  (if negb ok then
     show (st_error (warning_sign ++ py.of_string " Could not setup Tesseract OCR!"));;
     stop
   else mret tt);;
  TESSERACT_AVAILABLE ← check_tesseract_installation;
  (if negb TESSERACT_AVAILABLE then
     show (st_error (warning_sign ++ py.of_string " Tesseract OCR is not available!"));;
     show (st_markdown tesseract_not_available_note);;
     stop
   else mret tt);;
  BENGALI_AVAILABLE ← check_bengali_support;
  if negb BENGALI_AVAILABLE then
    show (st_warning (warning_sign
                      ++ py.of_string " Bengali language data not found! Attempting to download..."));;
    ok ← setup_tesseract;
    BENGALI_AVAILABLE ← (if (ok : bool) then check_bengali_support else mret BENGALI_AVAILABLE);
    if negb BENGALI_AVAILABLE then
      show (st_error (warning_sign ++ py.of_string " Could not enable Bengali OCR support!"));;
      show (st_markdown english_ocr_note);;
      show (st_info ([128260]%N ++ py.of_string " Falling back to English OCR..."));;
      mret (TESSERACT_AVAILABLE, BENGALI_AVAILABLE, "--oem 3 --psm 6 -l eng"%string)
    else
      show (st_success ([9989]%N ++ py.of_string " Bengali OCR support enabled!"));;
      mret (TESSERACT_AVAILABLE, BENGALI_AVAILABLE, "--oem 3 --psm 6 -l ben"%string)
  else mret (TESSERACT_AVAILABLE, BENGALI_AVAILABLE, "--oem 3 --psm 6 -l ben"%string).

End with_machine.
End app_deploy_host.

(** ** Statements about the host *)

Definition exited_zero (answer : host.run_result) : bool :=
  match answer with
  | host.CompletedProcess returncode _ => returncode =? 0
  | host.RunRaises _ => false
  end.

(** The listing of languages exited with 0 and has ['ben'] in it. *)
Definition lists_ben (answer : host.run_result) : bool :=
  match answer with
  | host.CompletedProcess returncode stdout =>
      (returncode =? 0) && py.contains (py.of_string "ben") stdout
  | host.RunRaises _ => false
  end.

Definition is_probe (ev : host.event) : Prop :=
  match ev with
  | host.probed _ _ => True
  | _ => False
  end.

(** A host for examples: the paths that exist, whether [tesseract] is on
    the PATH, and the languages the program lists; downloads fail. *)
Definition mock_machine (present : list string) (on_path : bool) (langs : py.str)
  : host.Machine :=
  {| host.os_path_exists_after := fun _ path => bool_decide (path ∈ present);
     host.subprocess_run_after := fun _ cmd =>
       match cmd with
       | [program; option] =>
           if String.eqb program "tesseract" && negb on_path
           then host.RunRaises (host.FileNotFoundError (py.of_string "tesseract"))
           else if String.eqb option "--version"
                then host.CompletedProcess 0 (py.of_string "tesseract 5.3.0")
                else host.CompletedProcess 0 langs
       | _ => host.RunRaises (host.OtherException [])
       end;
     host.urlretrieve_after := fun _ _ _ =>
       Some (host.OtherException (py.of_string "HTTP Error 404: Not Found")) |}.

Definition boot (os_name : string) : host.state :=
  {| host.os_name := os_name; host.tesseract_cmd := "tesseract";
     host.events := []; host.page := [] |}.

(** ** The chunker as §4.2 describes it *)

(** The coarsest separator of the list that occurs in the text, with the
    finer ones after it; the last of the list when none occurs.  The empty
    separator, which cuts between any two characters, occurs in every
    text. *)
Fixpoint coarsest (seps : list py.str) (text : py.str) : option (py.str * list py.str) :=
  match seps with
  | [] => None
  | sep :: finer =>
      if negb (langchain.nonempty sep) || py.contains sep text then Some (sep, finer)
      else match finer with
           | [] => Some (sep, [])
           | _ => coarsest finer text
           end
  end.

(** The text cut before each occurrence of the separator; the pieces, in
    order, make up the text. *)
Definition pieces (text sep : py.str) : list py.str :=
  langchain._split_text_with_regex text sep true.

(** [run] is a run of consecutive elements of [l]. *)
Definition run_of {A} (run l : list A) : Prop :=
  exists before after, l = before ++ run ++ after.

(** A chunk of the text under a list of separators, coarsest first: a run
    of whole pieces of the coarsest separator in the text, none longer
    than the chunk size, joined and stripped; or, inside a piece that
    exceeds the chunk size, a chunk of that piece under the finer
    separators. *)
Inductive chunk_of (T : langchain.RecursiveCharacterTextSplitter)
  : list py.str -> py.str -> py.str -> Prop :=
| chunk_merged seps text sep finer run chunk :
    coarsest seps text = Some (sep, finer) ->
    run_of run (pieces text sep) ->
    Forall (fun piece => py.len piece <= langchain.chunk_size T) run ->
    chunk = py.strip (concat run) ->
    chunk <> [] ->
    chunk_of T seps text chunk
| chunk_refined seps text sep finer piece chunk :
    coarsest seps text = Some (sep, finer) ->
    piece ∈ pieces text sep ->
    langchain.chunk_size T < py.len piece ->
    chunk_of T finer piece chunk ->
    chunk_of T seps text chunk.

(** The characters of the text from position [se.1] up to [se.2]. *)
Definition segment (text : py.str) (se : nat * nat) : py.str :=
  take (se.2 - se.1) (drop se.1 text).

(** Segments in text order, each sharing at most [overlap] characters of
    the text with the next. *)
Definition chained (overlap : nat) (segs : list (nat * nat)) : Prop :=
  forall i a b, segs !! i = Some a -> segs !! S i = Some b ->
    (a.1 <= b.1 /\ a.2 <= b.2 /\ a.2 <= b.1 + overlap)%nat.

(** The chunks laid out on the text between [lo] and [hi]: chunk [i] is
    segment [i] with the whitespace at its two ends removed, a segment has
    at most [size] characters, and the segments are chained. *)
Definition laid_out (size overlap : nat) (text : py.str) (lo hi : nat)
    (chunks : list py.str) (segs : list (nat * nat)) : Prop :=
  Forall2 (fun chunk se =>
             (lo <= se.1 /\ se.1 <= se.2 /\ se.2 <= hi /\ se.2 - se.1 <= size)%nat
             /\ chunk = py.strip (segment text se)) chunks segs
  /\ chained overlap segs.

(** A window of [_merge_splits]: the pieces before it and the pieces it
    joins. *)
Definition span (w : list py.str * list py.str) : nat * nat :=
  (length (concat w.1), length (concat w.1) + length (concat w.2))%nat.

Definition window_of (T : langchain.RecursiveCharacterTextSplitter) (all : list py.str)
    (doc : py.str) (w : list py.str * list py.str) : Prop :=
  (exists after, all = w.1 ++ w.2 ++ after)
  /\ langchain._join_docs T w.2 [] = Some doc
  /\ py.len (concat w.2) <= langchain.chunk_size T.

(** In [_merge_splits] over the pieces [all], after the pieces [done]:
    [current_doc] is the end of [done], every document cut is a window of
    [all], the windows are chained, and the last one ends at most [lap]
    characters after the start of [current_doc]. *)
Definition merge_windows (T : langchain.RecursiveCharacterTextSplitter) (lap : nat)
    (all done : list py.str) (st : langchain.merge_state) : Prop :=
  exists dropped ws,
    done = dropped ++ langchain.current_doc st
    /\ Forall2 (window_of T all) (langchain.docs st) ws
    /\ chained lap (map span ws)
    /\ (forall a, last ws = Some a ->
          ((span a).1 <= length (concat dropped)
           /\ (span a).2 <= length (concat done)
           /\ (span a).2 <= length (concat dropped) + lap)%nat).

(** ** The monad, step by step *)

Arguments py.of_string : simpl never.
Arguments langchain.split_text : simpl never.

Definition keeps_files {A} (m : M A) : Prop := forall w, files (m w).2 = files w.

Lemma keeps_files_ret {A} (a : A) : keeps_files (mret a).
Proof. intros w. reflexivity. Qed.

Lemma keeps_files_raise {A} (e : exn) : keeps_files (@raise A e).
Proof. intros w. reflexivity. Qed.

Lemma keeps_files_lift {A} (r : result A) : keeps_files (lift r).
Proof. intros w. reflexivity. Qed.

Lemma keeps_files_st (c : st_call) : keeps_files (st c).
Proof. intros w. reflexivity. Qed.

Lemma keeps_files_called (c : call) : keeps_files (called c).
Proof. intros w. reflexivity. Qed.

Lemma keeps_files_getenv : keeps_files getenv_OPENAI_API_KEY.
Proof. intros w. reflexivity. Qed.

Lemma keeps_files_bind {A B} (m : M A) (f : A -> M B) :
  keeps_files m -> (forall a, keeps_files (f a)) -> keeps_files (m ≫= f).
Proof.
  intros Hm Hf w. unfold mbind, M_bind. specialize (Hm w).
  destruct (m w) as [[a|e] w']; simpl in *.
  - rewrite Hf. exact Hm.
  - exact Hm.
Qed.

Lemma keeps_files_try_except_Exception {A} (body : M A) (handler : exn -> M A) :
  keeps_files body -> (forall e, keeps_files (handler e)) ->
  keeps_files (try_except_Exception body handler).
Proof.
  intros Hb Hh w. unfold try_except_Exception. specialize (Hb w).
  destruct (body w) as [[a|e] w']; simpl in *; [exact Hb|].
  destruct (is_Exception e); simpl; [rewrite Hh|]; exact Hb.
Qed.

Lemma keeps_files_try_except {A} (is_cls : exc_class -> bool) (body : M A)
    (handler : exn -> M A) :
  keeps_files body -> (forall e, keeps_files (handler e)) ->
  keeps_files (try_except is_cls body handler).
Proof.
  intros Hb Hh w. unfold try_except. specialize (Hb w).
  destruct (body w) as [[a|[|c m]] w']; simpl in *; try exact Hb.
  destruct (is_cls c); simpl; [rewrite Hh|]; exact Hb.
Qed.

Create HintDb keeps discriminated.
#[global] Hint Resolve keeps_files_ret keeps_files_raise keeps_files_lift keeps_files_st
  keeps_files_called keeps_files_getenv keeps_files_bind keeps_files_try_except_Exception
  keeps_files_try_except : keeps.

Ltac keeps := repeat (first [ progress intros | solve [eauto with keeps]
                            | apply keeps_files_bind | apply keeps_files_try_except_Exception
                            | apply keeps_files_try_except | apply keeps_files_st
                            | apply keeps_files_called | apply keeps_files_lift
                            | apply keeps_files_ret | apply keeps_files_raise
                            | match goal with |- keeps_files (if ?b then _ else _) => destruct b end ]).

Section extraction_facts.
Context `{Services}.

Lemma app_ocr_pages_keeps images : forall i n t, keeps_files (app.ocr_pages images i n t).
Proof.
  induction images as [|img rest IH]; intros i n t; simpl.
  - apply keeps_files_ret.
  - apply keeps_files_bind; [|intros; apply keeps_files_bind; [apply keeps_files_st|intros; apply IH]].
    apply keeps_files_try_except; keeps.
Qed.

Lemma app_extract_keeps pdf_path : keeps_files (app.extract_text_from_pdf pdf_path).
Proof.
  unfold app.extract_text_from_pdf. apply keeps_files_try_except_Exception; [|keeps].
  repeat (apply keeps_files_bind; [solve [keeps]|intros]).
  apply keeps_files_bind; [apply app_ocr_pages_keeps|keeps].
Qed.

Lemma deploy_ocr_pages_keeps config images :
  forall i n t, keeps_files (app_deploy.ocr_pages config images i n t).
Proof.
  induction images as [|img rest IH]; intros i n t; simpl.
  - apply keeps_files_ret.
  - apply keeps_files_bind; [|intros; apply keeps_files_bind; [apply keeps_files_st|intros; apply IH]].
    apply keeps_files_try_except; keeps.
Qed.

Lemma deploy_extract_keeps config pdf_path :
  keeps_files (app_deploy.extract_text_from_pdf config pdf_path).
Proof.
  unfold app_deploy.extract_text_from_pdf. apply keeps_files_try_except_Exception; [|keeps].
  repeat (apply keeps_files_bind; [solve [keeps]|intros]).
  apply keeps_files_bind; [apply deploy_ocr_pages_keeps|keeps].
Qed.

End extraction_facts.

Lemma index_or_raise_1 {A} (a b : A) : index_or_raise [a; b] 1 = Ok b.
Proof. reflexivity. Qed.

Lemma index_or_raise_0 {A} (a : A) l : index_or_raise (a :: l) 0 = Ok a.
Proof.
  unfold index_or_raise, py.getitem, py.len. simpl length.
  replace (0 <? Z.of_nat (S (length l))) with true by (symmetry; apply Z.ltb_lt; lia).
  reflexivity.
Qed.

Section process_pdf_facts.
Context `{Services}.

Lemma process_pdf_hit ex pdf_path w e :
  files w !! cache_path_of pdf_path = Some (pickled e) ->
  process_pdf_with ex pdf_path w = (Ok e, w).
Proof.
  intros Hk. unfold process_pdf_with, mbind, M_bind, path_exists, pickle_load.
  rewrite Hk. rewrite bool_decide_eq_true_2 by eauto. cbn beta iota. rewrite Hk. reflexivity.
Qed.

Lemma process_pdf_miss ex pdf_path w :
  files w !! cache_path_of pdf_path = None ->
  process_pdf_with ex pdf_path w =
    match ex pdf_path w with
    | (Raise e, w0) => (Raise e, w0)
    | (Ok text, w0) =>
        match langchain.split_text text_splitter text with
        | [] => (Raise (Exc IndexError (py.of_string "index out of range")),
                 embedded w0 text)
        | chunks =>
            (Ok (chunks, build_index chunks),
             persisted (embedded w0 text) (cache_path_of pdf_path)
               (chunks, build_index chunks))
        end
    end.
Proof.
  intros Hk. unfold process_pdf_with, mbind, M_bind, path_exists.
  rewrite Hk. rewrite bool_decide_eq_false_2 by (intros [? ?]; discriminate).
  destruct (ex pdf_path w) as [[text|e] w0]; [|reflexivity].
  unfold embedded, persisted, build_index.
  generalize (langchain.split_text text_splitter text). intros chunks.
  destruct chunks as [|c0 rest]; [reflexivity|].
  unfold lift, called, st, pickle_dump, mret, M_ret, np.asarray, faiss.add, faiss.new.
  cbn [map np.shape np.rows faiss.d faiss.xb files OPENAI_API_KEY ui calls hd app].
  rewrite index_or_raise_1, Z.eqb_refl. reflexivity.
Qed.

End process_pdf_facts.

Section cache_claims.
Context `{Services}.

Lemma extractor_keeps config ex pdf_path :
  extractor config ex -> keeps_files (ex pdf_path).
Proof.
  intros [|cfg]; [apply app_extract_keeps|apply deploy_extract_keeps].
Qed.

(** C1. With a cache entry under the key of the file's base name,
    [process_pdf] returns the unpickled pair and touches nothing: no
    extraction, chunking or embedding call is made.  Without one, a run
    that returns has extracted the text, chunked it, embedded the chunks
    row by row into the index, written the pair under the key and returned
    it, and the next call returns that same pair with no further call; and
    the run does return whenever extraction succeeds with a text that has
    a chunk. *)
Theorem process_pdf_cache config ex pdf_path w :
  extractor config ex ->
  (forall e, files w !! cache_path_of pdf_path = Some (pickled e) ->
             process_pdf_with ex pdf_path w = (Ok e, w))
  /\ (files w !! cache_path_of pdf_path = None ->
      forall r w1, process_pdf_with ex pdf_path w = (Ok r, w1) ->
        exists text w0,
          ex pdf_path w = (Ok text, w0)
          /\ r.1 = langchain.split_text text_splitter text
          /\ faiss.xb r.2 = map embed r.1
          /\ calls w1 = calls w0 ++ [call_split_text text; call_encode r.1]
          /\ files w1 = <[cache_path_of pdf_path := pickled r]> (files w)
          /\ process_pdf_with ex pdf_path w1 = (Ok r, w1))
  /\ (files w !! cache_path_of pdf_path = None ->
      forall text w0, ex pdf_path w = (Ok text, w0) ->
        langchain.split_text text_splitter text <> [] ->
        exists r w1, process_pdf_with ex pdf_path w = (Ok r, w1)).
Proof.
  intros Hex. split; [|split].
  - intros e He. now apply process_pdf_hit.
  - intros Hmiss r w1 Hrun. rewrite (process_pdf_miss _ _ _ Hmiss) in Hrun.
    pose proof (extractor_keeps _ _ pdf_path Hex w) as Hfiles.
    destruct (ex pdf_path w) as [[text|e] w0] eqn:Hext; [|discriminate].
    simpl in Hfiles.
    destruct (langchain.split_text text_splitter text) as [|c0 rest] eqn:Hsp; [discriminate|].
    injection Hrun as <- <-. exists text, w0.
    repeat split.
    + simpl. now rewrite Hsp.
    + simpl. now rewrite Hsp, <- app_assoc.
    + simpl. now rewrite Hfiles.
    + apply process_pdf_hit. simpl. apply lookup_insert_eq.
  - intros Hmiss text w0 Hext Hsp. rewrite (process_pdf_miss _ _ _ Hmiss), Hext.
    destruct (langchain.split_text text_splitter text); [congruence|]. eauto.
Qed.

End cache_claims.

Lemma process_pdf_cache_witness :
  let S := mock (mock_pdf two_pages) (Ok None) in
  exists r w1,
    @app.process_pdf S app.PDF_PATH empty_world = (Ok r, w1)
    /\ @app.process_pdf S app.PDF_PATH w1 = (Ok r, w1)
    /\ length r.1 = 1%nat.
Proof.
  intros S.
  destruct (@process_pdf_cache S _ _ app.PDF_PATH empty_world (@extractor_app S))
    as (_ & Hmiss & Hruns).
  edestruct (Hruns eq_refl) as (r & w1 & Hrun).
  - lazy. reflexivity.
  - vm_compute. discriminate.
  - exists r, w1. destruct (Hmiss eq_refl r w1 Hrun) as (text & w0 & Hext & Hr & _ & _ & _ & Hagain).
    split; [exact Hrun|]. split; [exact Hagain|].
    rewrite Hr. vm_compute in Hext. injection Hext as <- _. vm_compute. reflexivity.
Defined.

Ltac run_monad :=
  unfold mbind, M_bind, try_except, try_except_Exception, called, st, st_stop, raise, lift,
    mret, M_ret, getenv_OPENAI_API_KEY.

Section extraction_failure.
Context `{Services}.

Lemma app_ocr_pages_fails images : forall i n t w,
  Exists (fun img => exists e, image_to_string img app.TESSERACT_CONFIG = Raise e) images ->
  exists e w', app.ocr_pages images i n t w = (Raise e, w').
Proof.
  induction images as [|img rest IH]; intros i n t w Hex; [inversion Hex|].
  cbn [app.ocr_pages]. run_monad. cbn beta iota.
  destruct (image_to_string img app.TESSERACT_CONFIG) as [text|e] eqn:Himg.
  - apply Exists_cons in Hex as [[e He]|Hrest]; [congruence|].
    cbn beta iota. apply IH, Hrest.
  - destruct e as [|c m]; [eauto|].
    destruct (is_TesseractError c); [|eauto].
    cbn [str_of]. destruct (py.contains _ m); eauto.
Qed.

Lemma deploy_ocr_pages_fails config images : forall i n t w,
  Exists (fun img => exists e, image_to_string img config = Raise e) images ->
  exists e w', app_deploy.ocr_pages config images i n t w = (Raise e, w').
Proof.
  induction images as [|img rest IH]; intros i n t w Hex; [inversion Hex|].
  cbn [app_deploy.ocr_pages]. run_monad. cbn beta iota.
  destruct (image_to_string img config) as [text|e] eqn:Himg.
  - apply Exists_cons in Hex as [[e He]|Hrest]; [congruence|].
    cbn beta iota. apply IH, Hrest.
  - destruct e as [|c m]; [eauto|].
    destruct (is_TesseractError c); eauto.
Qed.

Lemma extract_fails config ex pdf_path w :
  extractor config ex -> extraction_fails config pdf_path ->
  exists e w', ex pdf_path w = (Raise e, w').
Proof.
  intros Hex Hfail. unfold extraction_fails in Hfail.
  destruct Hex as [|config].
  - unfold app.extract_text_from_pdf. run_monad. cbn beta iota.
    destruct (convert_from_path pdf_path) as [images|e0].
    + cbn beta iota.
      edestruct (app_ocr_pages_fails images) as (e & w' & ->); [exact Hfail|].
      destruct (is_Exception e); eauto.
    + destruct (is_Exception e0); eauto.
  - unfold app_deploy.extract_text_from_pdf. run_monad. cbn beta iota.
    destruct (convert_from_path pdf_path) as [images|e0].
    + cbn beta iota.
      edestruct (deploy_ocr_pages_fails config images) as (e & w' & ->); [exact Hfail|].
      destruct (is_Exception e); eauto.
    + destruct (is_Exception e0); eauto.
Qed.

(** C5. When the PDF does not convert or OCR raises on some page,
    extraction raises: it returns no text, partial or not.  [process_pdf]
    then stops with the same exception before chunking, and the cache files
    are the ones it started with: no entry is written for the key. *)
Theorem extraction_failure_leaves_cache config ex pdf_path w :
  extractor config ex ->
  extraction_fails config pdf_path ->
  files w !! cache_path_of pdf_path = None ->
  exists e w',
    ex pdf_path w = (Raise e, w')
    /\ process_pdf_with ex pdf_path w = (Raise e, w')
    /\ files w' = files w
    /\ files w' !! cache_path_of pdf_path = None.
Proof.
  intros Hex Hfail Hmiss.
  destruct (extract_fails _ _ pdf_path w Hex Hfail) as (e & w' & Hrun).
  pose proof (extractor_keeps _ _ pdf_path Hex w) as Hfiles. rewrite Hrun in Hfiles.
  simpl in Hfiles. exists e, w'. rewrite (process_pdf_miss _ _ _ Hmiss), Hrun, Hfiles.
  auto.
Qed.

(** C10. When the extracted text has no chunk, [process_pdf] raises
    [IndexError] at [embeddings.shape[1]], with the cache files untouched.
    Whatever a run of [process_pdf] leaves in a cache file that was not
    there before is the pair it returns, with at least one chunk and one
    vector. *)
Theorem empty_chunks_raise config ex pdf_path w :
  extractor config ex ->
  (files w !! cache_path_of pdf_path = None ->
   forall text w0, ex pdf_path w = (Ok text, w0) ->
     langchain.split_text text_splitter text = [] ->
     process_pdf_with ex pdf_path w
       = (Raise (Exc IndexError (py.of_string "index out of range")), embedded w0 text)
     /\ files (embedded w0 text) = files w)
  /\ (forall res w1, process_pdf_with ex pdf_path w = (res, w1) ->
      forall k c, files w1 !! k = Some c ->
        files w !! k = Some c
        \/ exists chunks index,
             c = pickled (chunks, index) /\ res = Ok (chunks, index)
             /\ chunks <> [] /\ faiss.xb index <> []
             /\ py.len chunks = faiss.ntotal index).
Proof.
  intros Hex. pose proof (extractor_keeps _ _ pdf_path Hex w) as Hfiles. split.
  - intros Hmiss text w0 Hext Hsp. rewrite (process_pdf_miss _ _ _ Hmiss), Hext, Hsp.
    rewrite Hext in Hfiles. auto.
  - intros res w1 Hrun k c Hc.
    destruct (files w !! cache_path_of pdf_path) as [[e|]|] eqn:Hkey.
    + rewrite (process_pdf_hit _ _ _ _ Hkey) in Hrun. injection Hrun as <- <-. auto.
    + unfold process_pdf_with, mbind, M_bind, path_exists, pickle_load in Hrun.
      rewrite Hkey in Hrun. rewrite bool_decide_eq_true_2 in Hrun by eauto.
      cbn beta iota in Hrun. rewrite Hkey in Hrun. injection Hrun as <- <-. auto.
    + rewrite (process_pdf_miss _ _ _ Hkey) in Hrun.
      destruct (ex pdf_path w) as [[text|e] w0]; simpl in Hfiles.
      * destruct (langchain.split_text text_splitter text) as [|c0 rest].
        -- injection Hrun as <- <-. simpl in Hc. rewrite Hfiles in Hc. auto.
        -- injection Hrun as <- <-. cbn [files persisted embedded] in Hc. rewrite Hfiles in Hc.
           destruct (decide (cache_path_of pdf_path = k)) as [Heq|Hne].
           ++ subst k. rewrite lookup_insert_eq in Hc. injection Hc as <-. right.
              eexists _, _. repeat split; try discriminate.
              unfold faiss.ntotal, py.len. simpl. now rewrite length_map.
           ++ rewrite lookup_insert_ne in Hc by exact Hne. auto.
      * injection Hrun as <- <-. rewrite Hfiles in Hc. auto.
Qed.

End extraction_failure.

Lemma extraction_failure_leaves_cache_witness :
  let S := mock (mock_pdf [Ok (py.of_string "page one"); Raise ben_missing]) (Ok None) in
  exists e w',
    @app.extract_text_from_pdf S app.PDF_PATH empty_world = (Raise e, w')
    /\ @app.process_pdf S app.PDF_PATH empty_world = (Raise e, w')
    /\ files w' = files empty_world
    /\ files w' !! cache_path_of app.PDF_PATH = None.
Proof.
  intros S.
  apply (@extraction_failure_leaves_cache S _ _ app.PDF_PATH empty_world (@extractor_app S)).
  - unfold extraction_fails. simpl. apply Exists_cons_tl, Exists_cons_hd.
    exists ben_missing. reflexivity.
  - reflexivity.
Defined.

Lemma empty_chunks_raise_witness :
  let S := mock (mock_pdf [Ok []]) (Ok None) in
  exists w1,
    @app.process_pdf S app.PDF_PATH empty_world
      = (Raise (Exc IndexError (py.of_string "index out of range")), w1)
    /\ files w1 = files empty_world.
Proof.
  intros S.
  destruct (@empty_chunks_raise S _ _ app.PDF_PATH empty_world (@extractor_app S))
    as (Hempty & _).
  edestruct (Hempty eq_refl) as (Hrun & Hfiles).
  - lazy. reflexivity.
  - vm_compute. reflexivity.
  - eexists. split; [exact Hrun|exact Hfiles].
Defined.

Section reporting.
Context `{Services}.

Lemma app_ocr_pages_report good bad rest m : forall i n t w,
  Forall (fun img => exists text, image_to_string img app.TESSERACT_CONFIG = Ok text) good ->
  image_to_string bad app.TESSERACT_CONFIG = Raise (Exc TesseractError m) ->
  exists w' shown,
    app.ocr_pages (good ++ bad :: rest) i n t w = (Raise StopException, w')
    /\ Forall not_error shown
    /\ ui w' = ui w ++ shown ++
         (if py.contains (py.of_string "ben") m
          then [st_error app.ben_not_found; st_markdown fix_bengali_data]
          else [generic_report (Exc TesseractError m)]).
Proof.
  induction good as [|img good IH]; intros i n t w Hgood Hbad.
  - cbn [app app.ocr_pages]. run_monad. cbn beta iota. rewrite Hbad.
    cbn [is_TesseractError str_of]. unfold generic_report.
    destruct (py.contains _ m); eexists _, [];
      (split; [reflexivity|split; [constructor|cbn [ui app]; now rewrite <- ?app_assoc]]).
  - apply Forall_cons in Hgood as [[text Himg] Hgood].
    cbn [app app.ocr_pages]. run_monad. cbn beta iota. rewrite Himg. cbn beta iota.
    edestruct IH as (w' & shown & -> & Hshown & Hui); [exact Hgood|exact Hbad|].
    exists w', (st_progress (i + 1) n :: shown). split; [reflexivity|]. split.
    + constructor; [intros body; discriminate|exact Hshown].
    + rewrite Hui. cbn [ui]. now rewrite <- app_assoc.
Qed.

Lemma deploy_ocr_pages_report config good bad rest m : forall i n t w,
  Forall (fun img => exists text, image_to_string img config = Ok text) good ->
  image_to_string bad config = Raise (Exc TesseractError m) ->
  exists w' shown,
    app_deploy.ocr_pages config (good ++ bad :: rest) i n t w = (Raise StopException, w')
    /\ Forall not_error shown
    /\ ui w' = ui w ++ shown ++ [generic_report (Exc TesseractError m)].
Proof.
  induction good as [|img good IH]; intros i n t w Hgood Hbad.
  - cbn [app app_deploy.ocr_pages]. run_monad. cbn beta iota. rewrite Hbad.
    cbn [is_TesseractError str_of]. unfold generic_report.
    eexists _, []; (split; [reflexivity|split; [constructor|reflexivity]]).
  - apply Forall_cons in Hgood as [[text Himg] Hgood].
    cbn [app app_deploy.ocr_pages]. run_monad. cbn beta iota. rewrite Himg. cbn beta iota.
    edestruct IH as (w' & shown & -> & Hshown & Hui); [exact Hgood|exact Hbad|].
    exists w', (st_progress (i + 1) n :: shown). split; [reflexivity|]. split.
    + constructor; [intros body; discriminate|exact Hshown].
    + rewrite Hui. cbn [ui]. now rewrite <- app_assoc.
Qed.

(** C6, as the code has it.  When OCR raises a [TesseractError] on a page
    after pages that were read: in src/app.py, an error text that names
    [ben] stops the script behind the Bengali-data error and its
    instructions, and any other text behind [Tesseract error: ...]; in
    src/app_deploy.py every such error, whatever its text, stops the script
    behind [Tesseract error: ...].  Nothing else is shown as an error. *)
Theorem tesseract_error_report config pdf_path good bad rest m w :
  convert_from_path pdf_path = Ok (good ++ bad :: rest) ->
  Forall (fun img => exists text, image_to_string img config = Ok text) good ->
  image_to_string bad config = Raise (Exc TesseractError m) ->
  (config = app.TESSERACT_CONFIG ->
   exists w' shown,
     app.extract_text_from_pdf pdf_path w = (Raise StopException, w')
     /\ Forall not_error shown
     /\ ui w' = ui w ++ shown ++
          (if py.contains (py.of_string "ben") m
           then [st_error app.ben_not_found; st_markdown fix_bengali_data]
           else [generic_report (Exc TesseractError m)]))
  /\ (exists w' shown,
        app_deploy.extract_text_from_pdf config pdf_path w = (Raise StopException, w')
        /\ Forall not_error shown
        /\ ui w' = ui w ++ shown ++ [generic_report (Exc TesseractError m)]).
Proof.
  intros Hconv Hgood Hbad. split.
  - intros ->. unfold app.extract_text_from_pdf. run_monad. cbn beta iota. rewrite Hconv.
    cbn beta iota.
    edestruct (app_ocr_pages_report good bad rest m) as (w' & shown & -> & Hshown & Hui);
      [exact Hgood|exact Hbad|].
    cbn [is_Exception]. cbn [ui] in Hui.
    exists w', (st_spinner (py.of_string "Extracting text from PDF...") :: st_progress 0 1 :: shown).
    split; [reflexivity|]. split.
    + repeat (constructor; [intros body; discriminate|]). exact Hshown.
    + rewrite Hui, <- !app_assoc. reflexivity.
  - unfold app_deploy.extract_text_from_pdf. run_monad. cbn beta iota. rewrite Hconv.
    cbn beta iota.
    edestruct (deploy_ocr_pages_report config good bad rest m) as (w' & shown & -> & Hshown & Hui);
      [exact Hgood|exact Hbad|].
    cbn [is_Exception]. cbn [ui] in Hui.
    exists w', (st_spinner (py.of_string "Extracting text from PDF...") :: st_progress 0 1 :: shown).
    split; [reflexivity|]. split.
    + repeat (constructor; [intros body; discriminate|]). exact Hshown.
    + rewrite Hui, <- !app_assoc. reflexivity.
Qed.

End reporting.

Lemma tesseract_error_report_witness :
  let S := mock (mock_pdf [Raise ben_missing]) (Ok None) in
  exists w1 w2,
    @app.extract_text_from_pdf S app.PDF_PATH empty_world = (Raise StopException, w1)
    /\ surfaces_language_data_missing (ui w1)
    /\ @app_deploy.extract_text_from_pdf S app.TESSERACT_CONFIG app.PDF_PATH empty_world
       = (Raise StopException, w2)
    /\ In (generic_report ben_missing) (ui w2).
Proof.
  intros S.
  destruct (@tesseract_error_report S app.TESSERACT_CONFIG app.PDF_PATH [] (Raise ben_missing) []
              (py.of_string "Failed loading language 'ben'") empty_world)
    as (Happ & w2 & shown2 & Hrun2 & _ & Hui2).
  - reflexivity.
  - constructor.
  - reflexivity.
  - destruct (Happ eq_refl) as (w1 & shown1 & Hrun1 & _ & Hui1).
    exists w1, w2. split; [exact Hrun1|]. split; [|split; [exact Hrun2|]].
    + unfold surfaces_language_data_missing. rewrite Hui1.
      replace (py.contains (py.of_string "ben") (py.of_string "Failed loading language 'ben'"))
        with true by (vm_compute; reflexivity).
      rewrite !in_app_iff. split; do 2 right; simpl; auto.
    + rewrite Hui2, !in_app_iff. do 2 right. simpl. auto.
Defined.

(** C6 fails in src/app_deploy.py: a Tesseract error that names the missing
    [ben] data is reported as any Tesseract error is, without the
    Bengali-data error of src/app.py. *)
Lemma deploy_reports_missing_language_generically :
  let S := mock (mock_pdf [Raise ben_missing]) (Ok None) in
  let shown := ui (snd (@app_deploy.extract_text_from_pdf S (app_deploy.TESSERACT_CONFIG true)
                          app.PDF_PATH empty_world)) in
  py.contains (py.of_string "ben") (str_of ben_missing) = true
  /\ ~ surfaces_language_data_missing shown
  /\ shown = [ st_spinner (py.of_string "Extracting text from PDF...");
               st_progress 0 1;
               generic_report ben_missing ].
Proof.
  intros S shown. split; [vm_compute; reflexivity|].
  assert (Hshown : shown = [ st_spinner (py.of_string "Extracting text from PDF...");
                             st_progress 0 1; generic_report ben_missing ])
    by (vm_compute; reflexivity).
  split; [|exact Hshown].
  rewrite Hshown. intros [Herr _]. simpl in Herr.
  destruct Herr as [Herr|[Herr|[Herr|[]]]]; discriminate.
Qed.

Lemma bind_run {A B} (m : M A) (f : A -> M B) w a w' :
  m w = (Ok a, w') -> (m ≫= f) w = f a w'.
Proof. intros Hm. unfold mbind, M_bind. now rewrite Hm. Qed.

Section generation.
Context `{Services}.

Lemma retrieve_run chunks index question w :
  retrieve chunks index question w = (retrieved chunks index question, asked w question).
Proof.
  unfold retrieve, retrieved. run_monad. cbn beta iota. unfold asked. cbn [files OPENAI_API_KEY ui calls].
  destruct (faiss.search index _ 3) as [DI|e]; [|reflexivity].
  cbn beta iota. destruct (index_or_raise DI.2 0) as [I0|e]; [|reflexivity].
  cbn beta iota. destruct (mapM (index_or_raise chunks) I0); reflexivity.
Qed.

Lemma query_openai_ok prompt w c :
  create (OPENAI_API_KEY w) (completion_request prompt) = Ok (Some c) ->
  query_openai prompt w
  = (Ok (Some (py.strip c)),
     {| files := files w; OPENAI_API_KEY := OPENAI_API_KEY w; ui := ui w;
        calls := calls w ++ [call_create (completion_request prompt)] |}).
Proof.
  intros Hc. unfold query_openai. run_monad. cbn beta iota zeta.
  cbn [files OPENAI_API_KEY ui calls]. rewrite Hc.
  destruct (OPENAI_API_KEY w) eqn:Hkey; cbn [OpenAI]; cbn beta iota;
    cbn [files OPENAI_API_KEY ui calls]; rewrite ?Hkey; reflexivity.
Qed.

Lemma query_openai_raise prompt w e :
  create (OPENAI_API_KEY w) (completion_request prompt) = Raise e ->
  is_Exception e = true ->
  query_openai prompt w
  = (Ok None,
     {| files := files w; OPENAI_API_KEY := OPENAI_API_KEY w;
        ui := ui w ++ [st_error (py.of_string "OpenAI Error: " ++ str_of e)];
        calls := calls w ++ match OPENAI_API_KEY w with
                            | Some _ => [call_create (completion_request prompt)]
                            | None => []
                            end |}).
Proof.
  intros Hc He. unfold query_openai. run_monad. cbn beta iota zeta.
  cbn [files OPENAI_API_KEY ui calls]. rewrite Hc.
  destruct (OPENAI_API_KEY w) eqn:Hkey; cbn [OpenAI]; cbn beta iota;
    cbn [files OPENAI_API_KEY ui calls]; rewrite He; cbn beta iota;
    rewrite ?app_nil_r, ?Hkey; reflexivity.
Qed.

Lemma prompt_embeds build_prompt config context question :
  build_prompt = prompt_bn \/ build_prompt = app_deploy.build_prompt config ->
  exists head mid tail, build_prompt context question = head ++ context ++ mid ++ question ++ tail.
Proof.
  intros [->| ->].
  - exists prompt_bn_head, prompt_bn_mid, prompt_bn_tail. reflexivity.
  - unfold app_deploy.build_prompt. destruct (py.contains _ _).
    + exists prompt_bn_head, prompt_bn_mid, prompt_bn_tail. reflexivity.
    + unfold prompt_en. eexists _, _, _. reflexivity.
Qed.

(** C7. When the completion call raises, [query_openai] returns [None]
    behind an [OpenAI Error] message, and the question path ends normally
    without showing an answer.  The cache files are the same, so the next
    run of [process_pdf] unpickles the same pair, and the chunks and the
    index in hand retrieve for the next question as before. *)
Theorem failed_generation_is_no_answer build_prompt chunks index question openai_api_key
    context e w :
  question <> [] -> openai_api_key <> [] ->
  retrieved chunks index question = Ok context ->
  create (OPENAI_API_KEY w) (completion_request (build_prompt context question)) = Raise e ->
  is_Exception e = true ->
  exists w',
    question_path build_prompt chunks index question openai_api_key w = (Ok tt, w')
    /\ (forall w0, OPENAI_API_KEY w0 = OPENAI_API_KEY w ->
          (query_openai (build_prompt context question) w0).1 = Ok None)
    /\ ui w' = ui w ++ [ st_spinner (py.of_string "Generating answer...");
                         st_error (py.of_string "OpenAI Error: " ++ str_of e) ]
    /\ files w' = files w
    /\ (forall q, (retrieve chunks index q w').1 = retrieved chunks index q)
    /\ (forall ex pdf_path e0,
          files w !! cache_path_of pdf_path = Some (pickled e0) ->
          process_pdf_with ex pdf_path w' = (Ok e0, w')).
Proof.
  intros Hq Hk Hctx Hcreate He.
  unfold question_path. destruct question as [|q0 question]; [congruence|].
  destruct openai_api_key as [|k0 key]; [congruence|]. cbn [langchain.nonempty andb].
  set (q := q0 :: question) in *.
  rewrite (bind_run _ _ w context (asked w q)) by (now rewrite retrieve_run, Hctx).
  set (w2 := (st (st_spinner (py.of_string "Generating answer...")) (asked w q)).2).
  rewrite (bind_run _ _ (asked w q) tt w2) by reflexivity.
  erewrite bind_run by (apply query_openai_raise; [exact Hcreate|exact He]).
  eexists. split; [reflexivity|]. split; [|split; [|split; [|split]]].
  - intros w0 Hw0. rewrite (query_openai_raise _ w0 e); [reflexivity| |exact He].
    rewrite Hw0. exact Hcreate.
  - cbn [ui w2 st asked snd]. now rewrite <- app_assoc.
  - reflexivity.
  - intros q'. now rewrite retrieve_run.
  - intros ex pdf_path e0 Hhit. now apply process_pdf_hit.
Qed.

(** C8. The prompt of either file is one text with the retrieved context
    and the question inside it.  [query_openai] sends it as the user
    message, after the system message that asks for answers in Bangla, to
    the model [gpt-4o] with temperature 0.2 and at most 500 tokens, and
    returns the stripped content of the reply. *)
Theorem completion_request_is_fixed build_prompt config context question w c :
  build_prompt = prompt_bn \/ build_prompt = app_deploy.build_prompt config ->
  create (OPENAI_API_KEY w) (completion_request (build_prompt context question)) = Ok (Some c) ->
  exists w' req,
    query_openai (build_prompt context question) w = (Ok (Some (py.strip c)), w')
    /\ calls w' = calls w ++ [call_create req]
    /\ model req = "gpt-4o"%string
    /\ temperature_tenths req = 2
    /\ max_tokens req = 500
    /\ messages req
       = [ {| role := "system";
              content := py.of_string "You are a helpful assistant that answers questions in Bangla." |};
           {| role := "user"; content := build_prompt context question |} ]
    /\ exists head mid tail,
         build_prompt context question = head ++ context ++ mid ++ question ++ tail.
Proof.
  intros Hbp Hc. eexists _, (completion_request (build_prompt context question)).
  split; [apply query_openai_ok, Hc|]. repeat (split; [reflexivity|]).
  eapply prompt_embeds, Hbp.
Qed.

End generation.

Lemma failed_generation_is_no_answer_witness :
  let S := mock (mock_pdf two_pages) (Raise (Exc OtherError (py.of_string "Connection error."))) in
  let chunks := [py.of_string "first chunk"; py.of_string "second"; py.of_string "third one"] in
  exists w',
    @question_path S prompt_bn chunks (@build_index S chunks) (py.of_string "second?")
      (py.of_string "sk-test") empty_world = (Ok tt, w')
    /\ ui w' = [ st_spinner (py.of_string "Generating answer...");
                 st_error (py.of_string "OpenAI Error: Connection error.") ]
    /\ files w' = files empty_world.
Proof.
  intros S chunks.
  edestruct (@failed_generation_is_no_answer S prompt_bn chunks (@build_index S chunks)
               (py.of_string "second?") (py.of_string "sk-test"))
    as (w' & Hrun & _ & Hui & Hfiles & _).
  - discriminate.
  - discriminate.
  - lazy. reflexivity.
  - reflexivity.
  - reflexivity.
  - exists w'. split; [exact Hrun|]. split; [exact Hui|exact Hfiles].
Defined.

Lemma completion_request_is_fixed_witness :
  let S := mock (mock_pdf two_pages) (Ok (Some (py.of_string " an answer  "))) in
  exists w' req,
    @query_openai S (prompt_bn (py.of_string "context") (py.of_string "question")) empty_world
      = (Ok (Some (py.of_string "an answer")), w')
    /\ calls w' = [call_create req]
    /\ model req = "gpt-4o"%string /\ temperature_tenths req = 2 /\ max_tokens req = 500.
Proof.
  intros S.
  destruct (@completion_request_is_fixed S prompt_bn EmptyString (py.of_string "context")
              (py.of_string "question") empty_world (py.of_string " an answer  "))
    as (w' & req & Hrun & Hcalls & Hmodel & Htemp & Hmax & _).
  - left. reflexivity.
  - reflexivity.
  - exists w', req. repeat split; assumption.
Defined.

(** ** The flat index: ranking by squared distance *)

Section ranking.
Import faiss.

#[local] Instance dist_le_total : Total dist_le.
Proof. intros a b. unfold dist_le. lia. Qed.

#[local] Instance dist_le_trans : Transitive dist_le.
Proof. intros a b c. unfold dist_le. lia. Qed.

Lemma ranked_Permutation index q : ranked index q ≡ₚ candidates index q.
Proof. apply merge_sort_Permutation. Qed.

Lemma ranked_sorted index q : StronglySorted dist_le (ranked index q).
Proof. apply StronglySorted_merge_sort; apply _. Qed.

Lemma ranked_length index q : length (ranked index q) = length (xb index).
Proof.
  rewrite (Permutation_length (ranked_Permutation index q)).
  apply length_imap.
Qed.

Lemma ranked_elem index q x :
  x ∈ ranked index q <->
  exists i v, xb index !! i = Some v /\ x = (L2sqr q v, Z.of_nat i).
Proof.
  rewrite (ranked_Permutation index q). unfold candidates.
  rewrite elem_of_lookup_imap. split; intros (i & v & H1 & H2); eauto.
Qed.

Lemma candidates_labels index q :
  (candidates index q).*2 = Z.of_nat <$> seq 0 (length (xb index)).
Proof.
  unfold candidates. rewrite fmap_imap. apply (imap_seq_0 (xb index) Z.of_nat).
Qed.

Lemma ranked_labels_NoDup index q : NoDup (ranked index q).*2.
Proof.
  rewrite (ranked_Permutation index q), candidates_labels.
  apply NoDup_fmap_2; [apply _|apply NoDup_seq].
Qed.

Lemma ranked_labels_Permutation index q :
  (ranked index q).*2 ≡ₚ Z.of_nat <$> seq 0 (length (xb index)).
Proof. now rewrite (ranked_Permutation index q), candidates_labels. Qed.

Lemma StronglySorted_lookup_le {A} (R : relation A) (l : list A) :
  StronglySorted R l ->
  forall i j a b, (i < j)%nat -> l !! i = Some a -> l !! j = Some b -> R a b.
Proof.
  induction 1 as [|x l Hl IH Hx]; intros i j a b Hij Ha Hb; [discriminate|].
  destruct j as [|j]; [lia|]. simpl in Hb.
  destruct i as [|i].
  - injection Ha as <-. rewrite Forall_forall in Hx. apply Hx.
    apply list_elem_of_lookup. eauto.
  - simpl in Ha. apply (IH i j); [lia|assumption|assumption].
Qed.

Lemma L2sqr_nonneg x : forall y, 0 <= L2sqr x y.
Proof.
  unfold L2sqr. induction x as [|a x IH]; intros [|b y]; simpl; try lia.
  specialize (IH y). pose proof (Z.square_nonneg (a - b)). lia.
Qed.

Lemma L2sqr_self x : L2sqr x x = 0.
Proof. unfold L2sqr. induction x as [|a x IH]; simpl; [reflexivity|]. rewrite IH. lia. Qed.

Lemma L2sqr_zero x : forall y, length x = length y -> L2sqr x y = 0 -> x = y.
Proof.
  induction x as [|a x IH]; intros [|b y] Hlen Hd; try discriminate; [reflexivity|].
  unfold L2sqr in Hd. simpl in Hd.
  pose proof (L2sqr_nonneg x y) as Hn. unfold L2sqr in Hn.
  pose proof (Z.square_nonneg (a - b)) as Hsq.
  assert (Hab : (a - b) * (a - b) = 0) by lia.
  assert (a = b) by nia. subst b. f_equal. apply IH; [simpl in Hlen; lia|].
  unfold L2sqr. lia.
Qed.

(** The result slots when the index holds at least [k] vectors. *)
Lemma knn_enough index q k :
  (k <= length (xb index))%nat ->
  knn index q k = map (fun r => (Some r.1, r.2)) (take k (ranked index q)).
Proof.
  intros Hk. unfold knn.
  rewrite length_take_le by (rewrite ranked_length; exact Hk).
  rewrite Nat.sub_diag. apply app_nil_r.
Qed.

(** The result slots when it holds fewer. *)
Lemma knn_short index q k :
  (length (xb index) <= k)%nat ->
  knn index q k
  = map (fun r => (Some r.1, r.2)) (ranked index q)
    ++ replicate (k - length (xb index)) (None, -1).
Proof.
  intros Hk. unfold knn.
  rewrite firstn_all2 by (rewrite ranked_length; exact Hk).
  now rewrite ranked_length.
Qed.

Lemma search_one index q k :
  xb index <> [] ->
  search index (np.asarray [q]) k
  = Ok ([map fst (knn index q (Z.to_nat k))], [map snd (knn index q (Z.to_nat k))]).
Proof.
  intros Hne. unfold search, np.asarray. cbn [np.shape np.rows map].
  replace (ntotal index =? 0) with false; [reflexivity|].
  symmetry. apply Z.eqb_neq. unfold ntotal, py.len.
  destruct (xb index); [congruence|simpl; lia].
Qed.

Lemma search_empty index x k :
  xb index = [] ->
  exists e, search index x k = Raise e /\ is_Exception e = true.
Proof.
  intros Hxb. unfold search, ntotal. rewrite Hxb.
  destruct (np.shape x) as [|? [|? [|? ?]]]; eexists; split; reflexivity.
Qed.

End ranking.

Section nearest.
Import faiss.
Context `{Services}.

Lemma top_spec index q k :
  (k <= length (xb index))%nat ->
  let top := take k (ranked index q) in
  length top = k
  /\ NoDup top.*2
  /\ StronglySorted dist_le top
  /\ (forall x, x ∈ top ->
        exists i v, xb index !! i = Some v /\ x = (L2sqr q v, Z.of_nat i))
  /\ (forall i v, xb index !! i = Some v -> Z.of_nat i ∉ top.*2 ->
        forall x, x ∈ top -> x.1 <= L2sqr q v).
Proof.
  intros Hk top.
  pose proof (ranked_sorted index q) as Hsorted.
  rewrite <- (take_drop k (ranked index q)) in Hsorted. fold top in Hsorted.
  split; [apply length_take_le; now rewrite ranked_length|].
  split.
  { apply (sublist_NoDup _ (ranked index q).*2); [apply ranked_labels_NoDup|].
    unfold top. rewrite fmap_take. apply sublist_take. }
  split; [now apply StronglySorted_app_1_l in Hsorted|].
  split.
  { intros x Hx. apply ranked_elem. unfold top in Hx.
    apply elem_of_take in Hx as (i & Hi & _). apply list_elem_of_lookup. eauto. }
  intros i v Hv Hnot x Hx.
  assert (Hin : (L2sqr q v, Z.of_nat i) ∈ ranked index q) by (apply ranked_elem; eauto).
  rewrite <- (take_drop k (ranked index q)) in Hin. fold top in Hin.
  apply elem_of_app in Hin as [Hin|Hin].
  - exfalso. apply Hnot. apply (list_elem_of_fmap_2 snd) in Hin. exact Hin.
  - apply (StronglySorted_app_1_elem_of _ _ _ _ _ Hsorted Hx Hin).
Qed.

(** C3. On an index that holds vectors, for every query vector and every
    [k] up to their number, [search] returns [k] labels of stored vectors,
    all different, with their squared distances to the query, in
    non-decreasing order of distance, and no vector left out is nearer
    than one returned.  On an index without vectors [search] raises an
    error for every query and every [k], and so does the search of the
    question path (lines 231-235) whatever the chunks are: no context
    comes back.  With no chunk, line 235 raises [IndexError] at the first
    label it looks up, whatever the labels are. *)
Theorem search_nearest_first index q k :
  (xb index <> [] -> k <= ntotal index ->
   exists D I,
     search index (np.asarray [q]) k = Ok ([D], [I])
     /\ length I = Z.to_nat k
     /\ NoDup I
     /\ (forall j label, I !! j = Some label ->
           exists i v, label = Z.of_nat i /\ xb index !! i = Some v
                       /\ D !! j = Some (Some (L2sqr q v)))
     /\ (forall j1 j2 a b, (j1 < j2)%nat ->
           D !! j1 = Some (Some a) -> D !! j2 = Some (Some b) -> a <= b)
     /\ (forall i v, xb index !! i = Some v -> Z.of_nat i ∉ I ->
           forall j a, D !! j = Some (Some a) -> a <= L2sqr q v))
  /\ (ntotal index = 0 ->
      exists e,
        search index (np.asarray [q]) k = Raise e
        /\ is_Exception e = true
        /\ forall chunks question w, embed question = q ->
             exists e', retrieve chunks index question w = (Raise e', asked w question)
                        /\ is_Exception e' = true)
  /\ (forall labels : list Z, labels <> [] ->
      mapM (index_or_raise (@nil py.str)) labels
      = Raise (Exc IndexError (py.of_string "index out of range"))).
Proof.
  split; [|split].
  - intros Hne Hn. unfold ntotal, py.len in Hn.
    assert (Hk' : (Z.to_nat k <= length (xb index))%nat) by lia.
    destruct (top_spec index q _ Hk') as (Hlen & Hdup & Hsorted & Helem & Hnear).
    set (top := take (Z.to_nat k) (ranked index q)) in *.
    exists ((fun r => Some r.1) <$> top), (top.*2).
    split.
    { rewrite (search_one _ _ _ Hne), (knn_enough _ _ _ Hk'). fold top.
      rewrite !map_map. reflexivity. }
    split; [now rewrite length_fmap|].
    split; [exact Hdup|].
    split.
    { intros j label Hj. apply list_lookup_fmap_Some in Hj as (x & Hlab & Hx).
      destruct (Helem x) as (i & v & Hv & Heq); [apply list_elem_of_lookup; eauto|].
      subst x label. exists i, v. split; [reflexivity|]. split; [exact Hv|].
      rewrite list_lookup_fmap, Hx. reflexivity. }
    split.
    { intros j1 j2 a b Hlt H1 H2.
      apply list_lookup_fmap_Some in H1 as (x1 & Ha & H1).
      apply list_lookup_fmap_Some in H2 as (x2 & Hb & H2).
      injection Ha as ->. injection Hb as ->.
      apply (StronglySorted_lookup_le _ _ Hsorted _ _ _ _ Hlt H1 H2). }
    intros i v Hv Hnot j a Hj.
    apply list_lookup_fmap_Some in Hj as (x & Ha & Hj).
    injection Ha as ->.
    apply (Hnear i v Hv Hnot x). apply list_elem_of_lookup. eauto.
  - intros Hn. unfold ntotal, py.len in Hn.
    assert (Hxb : xb index = []) by (destruct (xb index); [reflexivity|simpl in Hn; lia]).
    destruct (search_empty index (np.asarray [q]) k Hxb) as (e & Hsearch & He).
    exists e. split; [exact Hsearch|]. split; [exact He|].
    intros chunks question w <-.
    destruct (search_empty index (np.asarray [embed question]) 3 Hxb) as (e' & Hsearch' & He').
    exists e'. split; [|exact He']. rewrite retrieve_run. f_equal.
    unfold retrieved. cbn [map]. now rewrite Hsearch'.
  - intros [|label labels] Hne; [congruence|]. cbn [mapM]. unfold index_or_raise, py.getitem.
    repeat match goal with
           | |- context [if ?b then _ else _] => destruct b
           end; reflexivity.
Qed.

End nearest.

Lemma search_nearest_first_witness :
  let S := mock (mock_pdf two_pages) (Ok None) in
  let index := {| faiss.d := 2; faiss.xb := [[5; 5]; [1; 0]; [0; 3]; [1; 1]] |} in
  (exists D I,
     faiss.search index (np.asarray [[1; 2]]) 2 = Ok ([D], [I])
     /\ length I = 2%nat /\ NoDup I)
  /\ (exists e,
        faiss.search (faiss.new 2) (np.asarray [mock_embed (py.of_string "question")]) 3
        = Raise e
        /\ is_Exception e = true).
Proof.
  intros S index. split.
  - destruct (@search_nearest_first S index [1; 2] 2) as (Hfull & _).
    destruct Hfull as (D & I & Hsearch & Hlen & Hdup & _).
    + discriminate.
    + vm_compute. discriminate.
    + exists D, I. split; [exact Hsearch|]. split; [exact Hlen|exact Hdup].
  - destruct (@search_nearest_first S (faiss.new 2) (mock_embed (py.of_string "question")) 3)
      as (_ & Hempty & _).
    destruct (Hempty eq_refl) as (e & Hsearch & He & _).
    exists e. split; [exact Hsearch|exact He].
Defined.

Lemma getitem_nat {A} (l : list A) (i : nat) :
  (i < length l)%nat -> py.getitem l (Z.of_nat i) = l !! i.
Proof.
  intros Hi. unfold py.getitem, py.len.
  replace (0 <=? Z.of_nat i) with true by (symmetry; apply Z.leb_le; lia).
  replace (Z.of_nat i <? Z.of_nat (length l)) with true by (symmetry; apply Z.ltb_lt; lia).
  simpl. now rewrite Nat2Z.id.
Qed.

Lemma getitem_minus_one {A} (l : list A) : py.getitem l (-1) = last l.
Proof.
  unfold py.getitem, py.len. cbn [Z.leb Z.compare andb Z.ltb].
  destruct l as [|a l]; [reflexivity|].
  replace (0 <=? Z.of_nat (length (a :: l)) + -1) with true
    by (symmetry; apply Z.leb_le; simpl length; lia).
  cbn [andb]. rewrite last_lookup. f_equal. simpl length. lia.
Qed.

Lemma mapM_app {A B} (f : A -> result B) l1 l2 bs1 bs2 :
  mapM f l1 = Ok bs1 -> mapM f l2 = Ok bs2 -> mapM f (l1 ++ l2) = Ok (bs1 ++ bs2).
Proof.
  revert bs1. induction l1 as [|a l1 IH]; intros bs1 H1 H2; simpl in *.
  - injection H1 as <-. exact H2.
  - destruct (f a) as [b|e]; [|discriminate].
    destruct (mapM f l1) as [bs|e]; [|discriminate].
    injection H1 as <-. now rewrite (IH bs eq_refl H2).
Qed.

Lemma mapM_pick chunks labels :
  Forall (fun label => is_Some (py.getitem chunks label)) labels ->
  mapM (index_or_raise chunks) labels = Ok (pick chunks <$> labels).
Proof.
  induction 1 as [|label labels [c Hc] _ IH]; [reflexivity|].
  simpl. unfold index_or_raise at 1, pick at 1. rewrite Hc, IH. reflexivity.
Qed.

Lemma pick_all chunks :
  pick chunks <$> (Z.of_nat <$> seq 0 (length chunks)) = chunks.
Proof.
  apply list_eq. intros i. rewrite !list_lookup_fmap.
  destruct (decide (i < length chunks)%nat) as [Hi|Hi].
  - rewrite lookup_seq_lt by exact Hi. simpl. unfold pick. rewrite getitem_nat by exact Hi.
    destruct (lookup_lt_is_Some_2 chunks i Hi) as [c Hc]. now rewrite Hc.
  - rewrite lookup_seq_ge by lia. simpl. symmetry. apply lookup_ge_None. lia.
Qed.

Section correspondence.
Import faiss.
Context `{Services}.

Lemma process_pdf_well_formed config ex pdf_path w e w1 :
  extractor config ex -> cache_well_formed (files w) ->
  process_pdf_with ex pdf_path w = (Ok e, w1) ->
  well_formed e /\ cache_well_formed (files w1).
Proof.
  intros Hex Hcache Hrun.
  pose proof (extractor_keeps _ _ pdf_path Hex w) as Hfiles.
  destruct (files w !! cache_path_of pdf_path) as [[e0|]|] eqn:Hkey.
  - rewrite (process_pdf_hit _ _ _ _ Hkey) in Hrun. injection Hrun as <- <-. eauto.
  - unfold process_pdf_with, mbind, M_bind, path_exists, pickle_load in Hrun.
    rewrite Hkey in Hrun. rewrite bool_decide_eq_true_2 in Hrun by eauto.
    cbn beta iota in Hrun. rewrite Hkey in Hrun. discriminate.
  - rewrite (process_pdf_miss _ _ _ Hkey) in Hrun.
    destruct (ex pdf_path w) as [[text|e1] w0]; [|discriminate]. simpl in Hfiles.
    destruct (langchain.split_text text_splitter text) as [|c0 rest]; [discriminate|].
    injection Hrun as <- <-.
    assert (Hwf : well_formed (c0 :: rest, build_index (c0 :: rest)))
      by (split; [discriminate|reflexivity]).
    split; [exact Hwf|]. intros k e Hk. cbn [files persisted embedded] in Hk.
    destruct (decide (cache_path_of pdf_path = k)) as [Heq|Hne].
    + subst k. rewrite lookup_insert_eq in Hk. injection Hk as <-. exact Hwf.
    + rewrite lookup_insert_ne in Hk by exact Hne. rewrite Hfiles in Hk. eauto.
Qed.

Lemma well_formed_lookup chunks index i c :
  well_formed (chunks, index) -> chunks !! i = Some c -> xb index !! i = Some (embed c).
Proof.
  intros [_ Hidx] Hc. simpl in Hidx. subst index. cbn [xb build_index].
  change (map embed chunks) with (embed <$> chunks). now rewrite list_lookup_fmap, Hc.
Qed.

Lemma well_formed_width chunks index question :
  fixed_width -> well_formed (chunks, index) -> py.len (embed question) = d index.
Proof.
  intros Hw [_ Hidx]. simpl in Hidx. subst index. cbn [d build_index]. unfold py.len.
  f_equal. apply Hw.
Qed.

Lemma well_formed_nonempty chunks index :
  well_formed (chunks, index) -> xb index <> [].
Proof.
  intros [Hne Hidx]. simpl in Hne, Hidx. subst index. cbn [xb build_index].
  destruct chunks; [congruence|discriminate].
Qed.

Lemma well_formed_length chunks index :
  well_formed (chunks, index) -> length (xb index) = length chunks.
Proof.
  intros [_ Hidx]. simpl in Hidx. subst index. cbn [xb build_index]. apply length_map.
Qed.

(** C4. For a pair returned by [process_pdf], over a cache that holds
    pairs built by it: the index has as many vectors as there are chunks,
    vector [i] is the embedding of chunk [i], and a search with the
    embedding of chunk [i] and [k = 1] returns at distance 0 the label of a
    chunk with that same embedding, chunk [i] itself or one tied with it.
    The cache it leaves again holds pairs built by it. *)
Theorem index_matches_chunks config ex pdf_path w chunks index w1 :
  extractor config ex ->
  fixed_width ->
  cache_well_formed (files w) ->
  process_pdf_with ex pdf_path w = (Ok (chunks, index), w1) ->
  py.len chunks = ntotal index
  /\ (forall i c, chunks !! i = Some c -> xb index !! i = Some (embed c))
  /\ (forall i c, chunks !! i = Some c ->
        exists j c',
          search index (np.asarray [embed c]) 1 = Ok ([[Some 0]], [[Z.of_nat j]])
          /\ chunks !! j = Some c'
          /\ embed c' = embed c
          /\ L2sqr (embed c) (embed c') = L2sqr (embed c) (embed c))
  /\ cache_well_formed (files w1).
Proof.
  intros Hex Hw Hcache Hrun.
  destruct (process_pdf_well_formed _ _ _ _ _ _ Hex Hcache Hrun) as [Hwf Hcache1].
  split; [unfold ntotal, py.len; now rewrite (well_formed_length _ _ Hwf)|].
  split; [intros i c; now apply well_formed_lookup|].
  split; [|exact Hcache1].
  intros i c Hc.
  pose proof (well_formed_lookup _ _ _ _ Hwf Hc) as Hv.
  assert (Hone : (1 <= length (xb index))%nat).
  { apply lookup_lt_Some in Hv. lia. }
  destruct (top_spec index (embed c) 1 Hone) as (Hlen & _ & _ & Helem & Hnear).
  set (top := take 1 (ranked index (embed c))) in *.
  destruct top as [|x [|? ?]] eqn:Htop; try discriminate. clear Hlen.
  destruct (Helem x) as (j & v & Hj & ->); [apply list_elem_of_here|].
  assert (Hzero : L2sqr (embed c) v = 0).
  { destruct (decide (Z.of_nat i = Z.of_nat j)) as [Heq|Hne].
    - apply Nat2Z.inj in Heq. subst j. rewrite Hv in Hj. injection Hj as <-.
      apply L2sqr_self.
    - pose proof (L2sqr_nonneg (embed c) v) as Hn.
      assert (Hle : (L2sqr (embed c) v, Z.of_nat j).1 <= L2sqr (embed c) (embed c)).
      { apply (Hnear i (embed c) Hv); [|apply list_elem_of_here].
        simpl. intros Hin. apply list_elem_of_singleton in Hin. contradiction. }
      rewrite L2sqr_self in Hle. simpl in Hle. lia. }
  assert (Hjc : exists c', chunks !! j = Some c' /\ v = embed c').
  { destruct Hwf as [_ Hidx]. simpl in Hidx. rewrite Hidx in Hj. cbn [xb build_index] in Hj.
    change (map embed chunks) with (embed <$> chunks) in Hj.
    apply list_lookup_fmap_Some in Hj as (c' & -> & Hc'). eauto. }
  destruct Hjc as (c' & Hc' & ->).
  assert (Hsame : embed c = embed c') by (apply L2sqr_zero; [apply Hw|exact Hzero]).
  exists j, c'. split.
  - rewrite search_one by (apply (well_formed_nonempty _ _ Hwf)).
    rewrite (knn_enough _ _ 1 Hone). fold top. rewrite Htop. simpl. now rewrite Hzero.
  - split; [exact Hc'|]. split; [now symmetry|]. now rewrite Hzero, L2sqr_self.
Qed.

(** C9. For a pair returned by [process_pdf] with fewer than three chunks,
    the question path still asks for three results.  The labels of all the
    chunks come back, nearest first, and every further slot holds [-1];
    [chunks[-1]] is the last chunk, so the context is the chunks joined by
    blank lines followed by the last chunk once more per missing slot:
    three texts in all, and no exception. *)
Theorem short_document_repeats_last_chunk config ex pdf_path w chunks index w1 question :
  extractor config ex ->
  fixed_width ->
  cache_well_formed (files w) ->
  process_pdf_with ex pdf_path w = (Ok (chunks, index), w1) ->
  (length chunks < 3)%nat ->
  exists D labels last_chunk,
    search index (np.asarray [embed question]) 3
    = Ok ([D], [labels ++ replicate (3 - length chunks) (-1)])
    /\ labels ≡ₚ Z.of_nat <$> seq 0 (length chunks)
    /\ last chunks = Some last_chunk
    /\ (pick chunks <$> labels) ≡ₚ chunks
    /\ length ((pick chunks <$> labels) ++ replicate (3 - length chunks) last_chunk) = 3%nat
    /\ retrieve chunks index question w1
       = (Ok (py.join [10; 10]%N
                ((pick chunks <$> labels) ++ replicate (3 - length chunks) last_chunk)),
          asked w1 question).
Proof.
  intros Hex Hw Hcache Hrun Hshort.
  destruct (process_pdf_well_formed _ _ _ _ _ _ Hex Hcache Hrun) as [Hwf _].
  pose proof (well_formed_length _ _ Hwf) as Hlen.
  pose proof (well_formed_width _ _ question Hw Hwf) as Hd.
  set (q := embed question) in *.
  set (labels := (ranked index q).*2).
  assert (Hperm : labels ≡ₚ Z.of_nat <$> seq 0 (length chunks)).
  { unfold labels. rewrite ranked_labels_Permutation. now rewrite Hlen. }
  assert (Hlast : exists last_chunk, last chunks = Some last_chunk).
  { destruct Hwf as [Hne _]. simpl in Hne. rewrite last_lookup.
    apply lookup_lt_is_Some_2. destruct chunks; [congruence|simpl; lia]. }
  destruct Hlast as [last_chunk Hlast].
  assert (Hsearch : search index (np.asarray [q]) 3
                    = Ok ([map fst (knn index q 3)],
                          [labels ++ replicate (3 - length chunks) (-1)])).
  { rewrite (search_one _ _ _ (well_formed_nonempty _ _ Hwf)). change (Z.to_nat 3) with 3%nat.
    do 2 f_equal. f_equal. rewrite knn_short by lia. rewrite Hlen.
    rewrite map_app, map_map. unfold labels. f_equal.
    generalize (3 - length chunks)%nat. intros n. induction n as [|n IH]; [reflexivity|].
    simpl. now rewrite IH. }
  assert (Hpicked : (pick chunks <$> labels) ≡ₚ chunks).
  { rewrite Hperm. now rewrite pick_all. }
  exists (map fst (knn index q 3)), labels, last_chunk.
  split; [exact Hsearch|]. split; [exact Hperm|]. split; [exact Hlast|].
  split; [exact Hpicked|]. split.
  { rewrite length_app, length_replicate, length_fmap.
    rewrite (Permutation_length Hperm), length_fmap, length_seq. lia. }
  rewrite retrieve_run. f_equal. unfold retrieved. cbn [map]. fold q. rewrite Hsearch.
  cbn [snd]. rewrite index_or_raise_0.
  rewrite (mapM_app _ _ _ (pick chunks <$> labels) (replicate (3 - length chunks) last_chunk));
    [reflexivity| |].
  - apply mapM_pick. rewrite Forall_forall. intros label Hlabel.
    rewrite Hperm in Hlabel. apply list_elem_of_fmap in Hlabel as (i & -> & Hi).
    apply elem_of_seq in Hi. rewrite getitem_nat by lia. apply lookup_lt_is_Some_2. lia.
  - generalize (3 - length chunks)%nat. intros n. induction n as [|n IH]; [reflexivity|].
    simpl. unfold index_or_raise at 1. rewrite getitem_minus_one, Hlast, IH. reflexivity.
Qed.

End correspondence.

Lemma mock_fixed_width pdf completion : @fixed_width (mock pdf completion).
Proof. intros s t. reflexivity. Qed.

Lemma empty_cache_well_formed `{Services} : cache_well_formed (files empty_world).
Proof. intros k e Hk. simpl in Hk. rewrite lookup_empty in Hk. discriminate. Qed.

Lemma index_matches_chunks_witness :
  let S := mock (mock_pdf two_pages) (Ok None) in
  exists chunks index w1,
    @app.process_pdf S app.PDF_PATH empty_world = (Ok (chunks, index), w1)
    /\ py.len chunks = faiss.ntotal index
    /\ (forall i c, chunks !! i = Some c -> faiss.xb index !! i = Some (mock_embed c))
    /\ (forall i c, chunks !! i = Some c ->
          exists j, faiss.search index (np.asarray [mock_embed c]) 1
                    = Ok ([[Some 0]], [[Z.of_nat j]])).
Proof.
  intros S.
  destruct (@app.process_pdf S app.PDF_PATH empty_world) as [[[chunks index]|e] w1] eqn:Hrun;
    [|vm_compute in Hrun; discriminate].
  destruct (@index_matches_chunks S _ _ app.PDF_PATH empty_world chunks index w1
              (@extractor_app S) (mock_fixed_width _ _) (@empty_cache_well_formed S) Hrun)
    as (Hlen & Hrows & Hself & _).
  exists chunks, index, w1. split; [reflexivity|]. split; [exact Hlen|]. split; [exact Hrows|].
  intros i c Hc. destruct (Hself i c Hc) as (j & c' & Hs & _). eauto.
Defined.

Lemma short_document_repeats_last_chunk_witness :
  let S := mock (mock_pdf two_pages) (Ok None) in
  exists chunks index w1 context,
    @app.process_pdf S app.PDF_PATH empty_world = (Ok (chunks, index), w1)
    /\ length chunks = 1%nat
    /\ @retrieve S chunks index (py.of_string "question") w1
       = (Ok context, asked w1 (py.of_string "question"))
    /\ context = py.join [10; 10]%N (chunks ++ chunks ++ chunks).
Proof.
  intros S.
  destruct (@app.process_pdf S app.PDF_PATH empty_world) as [[[chunks index]|e] w1] eqn:Hrun;
    [|vm_compute in Hrun; discriminate].
  assert (Hone : length chunks = 1%nat) by (vm_compute in Hrun; now injection Hrun as <- _ _).
  destruct (@short_document_repeats_last_chunk S _ _ app.PDF_PATH empty_world chunks index w1
              (py.of_string "question")
              (@extractor_app S) (mock_fixed_width _ _) (@empty_cache_well_formed S) Hrun)
    as (D & labels & last_chunk & _ & _ & Hlast & Hperm & _ & Hret).
  - rewrite Hone. lia.
  - exists chunks, index, w1. eexists. split; [reflexivity|]. split; [exact Hone|].
    split; [exact Hret|].
    destruct chunks as [|c [|? ?]]; try discriminate.
    apply Permutation_singleton_r in Hperm. rewrite Hperm. simpl in Hlast.
    injection Hlast as <-. reflexivity.
Defined.

(** ** The chunker: every chunk fits *)

Section chunk_bound.
Import py langchain.

Lemma lstrip_length s : (length (lstrip s) <= length s)%nat.
Proof. induction s as [|c s IH]; simpl; [lia|]. destruct (isspace c); simpl; lia. Qed.

Lemma strip_length s : (length (strip s) <= length s)%nat.
Proof.
  unfold strip, rstrip. rewrite length_rev.
  etransitivity; [apply lstrip_length|]. rewrite length_rev. apply lstrip_length.
Qed.

Lemma join_nil parts : join [] parts = concat parts.
Proof.
  induction parts as [|p [|p' parts] IH]; [reflexivity|simpl; now rewrite app_nil_r|].
  change (join [] (p :: p' :: parts)) with (p ++ [] ++ join [] (p' :: parts)).
  rewrite IH. reflexivity.
Qed.

Lemma sep_if_zero b : sep_if b 0 = 0.
Proof. now destruct b. Qed.

Variable T : RecursiveCharacterTextSplitter.
Hypothesis overlap_nonneg : 0 <= chunk_overlap T.

Lemma join_docs_fits parts doc :
  len (concat parts) <= chunk_size T -> _join_docs T parts [] = Some doc -> fits T doc.
Proof.
  unfold _join_docs, fits, len. rewrite join_nil. intros Hlen Hdoc.
  destruct (strip_whitespace T).
  - destruct (strip (concat parts)) eqn:Hs; [discriminate|]. injection Hdoc as <-.
    rewrite <- Hs. pose proof (strip_length (concat parts)). lia.
  - destruct (concat parts) eqn:Hs; [discriminate|]. injection Hdoc as <-. exact Hlen.
Qed.

Lemma push_doc_fits ds doc :
  Forall (fits T) ds -> (forall d, doc = Some d -> fits T d) -> Forall (fits T) (push_doc ds doc).
Proof.
  intros Hds Hdoc. destruct doc as [d|]; simpl; [|exact Hds].
  apply Forall_app. split; [exact Hds|]. constructor; [now apply Hdoc|constructor].
Qed.

(** The running total is the length of what [current_doc] joins to, and
    after the [while] the next piece fits or nothing is kept. *)
Lemma pop_front_spec _len cur : forall tot,
  tot = len (concat cur) ->
  let r := pop_front T 0 _len cur tot in
  r.2 = len (concat r.1)
  /\ (r.2 + _len <= chunk_size T \/ r.2 = 0)
  /\ r.2 <= chunk_overlap T.
Proof.
  induction cur as [|d0 rest IH]; intros tot Htot; cbn [pop_front].
  - simpl. split; [exact Htot|]. split; [right; exact Htot|].
    rewrite Htot. exact overlap_nonneg.
  - rewrite !sep_if_zero, Z.add_0_r.
    destruct ((tot >? chunk_overlap T) || ((tot + _len >? chunk_size T) && (tot >? 0))) eqn:Hc.
    + apply IH. unfold len in *. simpl in Htot. rewrite length_app in Htot. lia.
    + simpl. split; [exact Htot|].
      apply orb_false_iff in Hc as [Hov Hc].
      rewrite Z.gtb_ltb in Hov. apply Z.ltb_ge in Hov. split; [|exact Hov].
      apply andb_false_iff in Hc as [Hc|Hc].
      * left. rewrite Z.gtb_ltb in Hc. apply Z.ltb_ge in Hc. lia.
      * right. rewrite Z.gtb_ltb in Hc. apply Z.ltb_ge in Hc. unfold len in *. lia.
Qed.

(** The pieces kept for the next chunk are at most the overlap long. *)
Lemma carried_over_at_most _len cur :
  len (carried_over T _len cur) <= chunk_overlap T.
Proof.
  unfold carried_over.
  destruct (pop_front_spec _len cur (len (concat cur)) eq_refl) as (Htot & _ & Hov).
  cbv zeta in Htot, Hov. now rewrite <- Htot.
Qed.

Lemma merge_step_inv st d :
  merge_inv T st -> fits T d -> merge_inv T (merge_step T [] st d).
Proof.
  intros (Htot & Hle & Hdocs) Hd. unfold merge_step.
  change (len (@nil N)) with 0. rewrite !sep_if_zero, !Z.add_0_r.
  assert (Hconcat : forall cur, len (concat (cur ++ [d])) = len (concat cur) + len d).
  { intros cur. unfold len. rewrite concat_app, length_app. simpl. rewrite app_nil_r. lia. }
  destruct (total st + len d >? chunk_size T) eqn:Hover.
  - destruct (0 <? len (current_doc st)) eqn:Hcur.
    + pose proof (pop_front_spec (len d) (current_doc st) (total st) Htot) as Hpop.
      destruct (pop_front T 0 (len d) (current_doc st) (total st)) as [cur tot].
      simpl in Hpop. destruct Hpop as (Htot' & Hfit & _). unfold merge_inv; cbn [docs current_doc total].
      split; [rewrite Hconcat; lia|]. split.
      * unfold fits in Hd. destruct Hfit as [Hfit|Hfit]; lia.
      * apply push_doc_fits; [exact Hdocs|]. intros doc Hdoc.
        eapply join_docs_fits; [|exact Hdoc]. lia.
    + unfold merge_inv; cbn [docs current_doc total].
      apply Z.ltb_ge in Hcur. unfold len in Hcur.
      assert (current_doc st = []) as Hnil by (destruct (current_doc st); [reflexivity|simpl in Hcur; lia]).
      rewrite Hnil in *. split; [rewrite Hconcat; lia|].
      split; [unfold fits, len in *; simpl in Htot; lia|exact Hdocs].
  - unfold merge_inv; cbn [docs current_doc total]. rewrite Z.gtb_ltb in Hover. apply Z.ltb_ge in Hover.
    split; [rewrite Hconcat; lia|]. split; [lia|exact Hdocs].
Qed.

Lemma merge_fold_inv splits : forall st,
  merge_inv T st -> Forall (fits T) splits -> merge_inv T (fold_left (merge_step T []) splits st).
Proof.
  induction splits as [|d splits IH]; intros st Hst Hsplits; [exact Hst|].
  apply Forall_cons in Hsplits as [Hd Hsplits]. simpl. apply IH; [|exact Hsplits].
  now apply merge_step_inv.
Qed.

Hypothesis size_nonneg : 0 <= chunk_size T.

Lemma merge_splits_fits splits :
  Forall (fits T) splits -> Forall (fits T) (_merge_splits T splits []).
Proof.
  intros Hsplits. unfold _merge_splits.
  destruct (merge_fold_inv splits {| docs := []; current_doc := []; total := 0 |})
    as (Htot & Hle & Hdocs); [|exact Hsplits|].
  { split; [reflexivity|]. split; [exact size_nonneg|constructor]. }
  apply push_doc_fits; [exact Hdocs|]. intros doc Hdoc.
  eapply join_docs_fits; [|exact Hdoc]. lia.
Qed.

Hypothesis keeps : keep_separator T = true.

(** The loop of [_split_text]: what is already final fits, and what is
    waiting to be merged is shorter than the chunk size. *)
Lemma split_fold_fits recurse splits : forall final good,
  Forall (fits T) final -> Forall (fits T) good ->
  Forall (fun s => len s < chunk_size T \/
                   match recurse with
                   | Some f => Forall (fits T) (f s)
                   | None => False
                   end) splits ->
  let r := fold_left (split_step T [] recurse) splits (final, good) in
  Forall (fits T) r.1 /\ Forall (fits T) r.2.
Proof.
  induction splits as [|s splits IH]; intros final good Hfinal Hgood Hsplits; [now split|].
  apply Forall_cons in Hsplits as [Hs Hsplits]. cbn [fold_left].
  assert (Hstep : Forall (fits T) (split_step T [] recurse (final, good) s).1
                  /\ Forall (fits T) (split_step T [] recurse (final, good) s).2).
  { unfold split_step. destruct (len s <? chunk_size T) eqn:Hlt.
    - split; [exact Hfinal|]. apply Forall_app. split; [exact Hgood|].
      constructor; [|constructor]. apply Z.ltb_lt in Hlt. unfold fits. lia.
    - destruct Hs as [Hs|Hs]; [apply Z.ltb_ge in Hlt; lia|].
      assert (Hfinal' : Forall (fits T) match good with
                                    | [] => final
                                    | _ :: _ => final ++ _merge_splits T good []
                                    end).
      { destruct good; [exact Hfinal|]. apply Forall_app. split; [exact Hfinal|].
        now apply merge_splits_fits. }
      destruct recurse as [f|]; [|contradiction].
      split; [|constructor]. apply Forall_app. now split. }
  destruct (split_step T [] recurse (final, good) s) as [final' good'].
  destruct Hstep as [Hf Hg]. now apply IH.
Qed.

Lemma split_with_fits separator recurse text :
  Forall (fun s => len s < chunk_size T \/
                   match recurse with
                   | Some f => Forall (fits T) (f s)
                   | None => False
                   end) (_split_text_with_regex text separator (keep_separator T)) ->
  Forall (fits T) (split_with T separator recurse text).
Proof.
  intros Hsplits. unfold split_with. rewrite keeps in *.
  pose proof (split_fold_fits recurse _ [] [] (Forall_nil_2 _) (Forall_nil_2 _) Hsplits) as Hfold.
  destruct (fold_left _ _ _) as [final good]. simpl in Hfold. destruct Hfold as [Hfinal Hgood].
  destruct good; [exact Hfinal|]. apply Forall_app. split; [exact Hfinal|].
  now apply merge_splits_fits.
Qed.

Hypothesis size_two : 1 < chunk_size T.

Lemma split_chars_fits text : Forall (fits T) (split_with T [] None text).
Proof.
  apply split_with_fits. unfold _split_text_with_regex. cbn [nonempty].
  apply Forall_forall. intros s Hs. left.
  apply list_elem_of_In, filter_In in Hs as [Hs _].
  apply in_map_iff in Hs as (c & <- & _). unfold len. simpl. lia.
Qed.

Lemma split_text_rec_fits seps : forall text,
  In [] seps -> Forall (fits T) (_split_text T seps text).
Proof.
  induction seps as [|_s rest IH]; intros text Hin; [constructor|].
  cbn [_split_text].
  destruct _s as [|c _s].
  - cbn [nonempty negb]. apply split_chars_fits.
  - cbn [nonempty negb]. destruct Hin as [Hin|Hin]; [discriminate|].
    destruct rest as [|s' rest']; [destruct Hin|].
    destruct (contains (c :: _s) text).
    + apply split_with_fits. apply Forall_forall. intros s _. right. now apply IH.
    + now apply IH.
Qed.

End chunk_bound.

(** ** The chunker on a text without separators: windows that overlap *)

Section char_windows.
Import py langchain.

Lemma lstrip_unbroken w : unbroken w -> lstrip w = w.
Proof. intros Hw. destruct Hw as [|c w [Hc _] _]; [reflexivity|]. simpl. now rewrite Hc. Qed.

Lemma strip_unbroken w : unbroken w -> strip w = w.
Proof.
  intros Hw. unfold strip, rstrip. rewrite (lstrip_unbroken w Hw).
  rewrite lstrip_unbroken; [apply rev_involutive|].
  unfold unbroken. apply Forall_rev. exact Hw.
Qed.

Lemma concat_single w : concat (map single w) = w.
Proof. induction w as [|c w IH]; [reflexivity|]. simpl. now rewrite IH. Qed.

Lemma contains_head_absent x s text :
  ~ In x text -> contains (x :: s) text = false.
Proof.
  induction text as [|c text IH]; intros Hx; [reflexivity|].
  cbn [contains startswith]. rewrite IH by (intros Hin; apply Hx; now right).
  destruct (N.eqb_spec x c) as [->|Hne]; [exfalso; apply Hx; now left|reflexivity].
Qed.

Lemma unbroken_absent x text : unbroken text -> isspace x = true \/ x = 2404%N -> ~ In x text.
Proof.
  intros Hw Hx Hin. unfold unbroken in Hw. rewrite Forall_forall in Hw.
  apply list_elem_of_In in Hin. destruct (Hw x Hin) as [Hs Hd]. destruct Hx; congruence.
Qed.

Variable T : RecursiveCharacterTextSplitter.
Variables size lap : nat.
Hypothesis size_is : chunk_size T = Z.of_nat size.
Hypothesis overlap_is : chunk_overlap T = Z.of_nat lap.
Hypothesis overlap_small : (lap < size)%nat.

Lemma pop_front_singles w :
  (lap <= length w)%nat -> (length w <= size)%nat ->
  pop_front T 0 1 (map single w) (len w) = (map single (drop (length w - lap) w), Z.of_nat lap).
Proof.
  induction w as [|c w IH]; intros Hlow Hhigh.
  - simpl in *. assert (lap = 0)%nat as -> by lia. reflexivity.
  - cbn [map pop_front]. rewrite !sep_if_zero, Z.add_0_r, size_is, overlap_is.
    unfold len in *. simpl length in *.
    destruct (decide (lap = S (length w))) as [Heq|Hne].
    + replace (Z.of_nat (S (length w)) >? Z.of_nat lap) with false
        by (symmetry; rewrite Z.gtb_ltb; apply Z.ltb_ge; lia).
      replace (Z.of_nat (S (length w)) + 1 >? Z.of_nat size) with false
        by (symmetry; rewrite Z.gtb_ltb; apply Z.ltb_ge; lia).
      cbn [orb andb]. rewrite <- Heq, Nat.sub_diag. reflexivity.
    + replace (Z.of_nat (S (length w)) >? Z.of_nat lap) with true
        by (symmetry; rewrite Z.gtb_ltb; apply Z.ltb_lt; lia).
      cbn [orb].
      replace (Z.of_nat (S (length w)) - (Z.of_nat 1 + 0))
        with (Z.of_nat (length w)) by lia.
      rewrite IH by lia.
      replace (S (length w) - lap)%nat with (S (length w - lap)) by lia. reflexivity.
Qed.

Lemma join_docs_singles w :
  unbroken w -> w <> [] -> _join_docs T (map single w) [] = Some w.
Proof.
  intros Hw Hne. unfold _join_docs. rewrite join_nil, concat_single.
  destruct (strip_whitespace T); [rewrite strip_unbroken by exact Hw|];
    destruct w; [congruence|reflexivity|congruence|reflexivity].
Qed.

Lemma overlapping_snoc chunks b :
  overlapping size lap chunks ->
  (forall a, last chunks = Some a -> length a = size /\ drop (size - lap) a = take lap b) ->
  overlapping size lap (chunks ++ [b]).
Proof.
  intros Hch Hlast i x y Hx Hy.
  destruct (decide (S i < length chunks)%nat) as [Hi|Hi].
  - rewrite lookup_app_l in Hx by lia. rewrite lookup_app_l in Hy by lia. eauto.
  - destruct (decide (S i = length chunks)) as [Heq|Hne].
    + rewrite lookup_app_l in Hx by lia. rewrite lookup_app_r in Hy by lia.
      replace (S i - length chunks)%nat with 0%nat in Hy by lia. injection Hy as <-.
      apply Hlast. rewrite last_lookup, <- Heq. exact Hx.
    + apply lookup_lt_Some in Hy. rewrite length_app in Hy. simpl in Hy. lia.
Qed.

Lemma window_step st c :
  window_inv T size lap st -> isspace c = false /\ c <> 2404%N ->
  window_inv T size lap (merge_step T [] st (single c)).
Proof.
  intros (w & Hcur & Htot & Hlen & Hw & Hch & Hlast) Hc. unfold merge_step.
  change (len (@nil N)) with 0. change (len (single c)) with 1.
  rewrite !sep_if_zero, !Z.add_0_r, Hcur, Htot, size_is.
  destruct (len w + 1 >? Z.of_nat size) eqn:Hover.
  - rewrite Z.gtb_ltb in Hover. apply Z.ltb_lt in Hover. unfold len in Hover.
    assert (Hfull : length w = size) by lia.
    replace (0 <? len (map single w)) with true
      by (symmetry; apply Z.ltb_lt; unfold len; rewrite length_map; lia).
    rewrite pop_front_singles by lia.
    rewrite join_docs_singles by (try exact Hw; intros ->; simpl in Hfull; lia).
    cbn [push_doc]. exists (drop (size - lap) w ++ [c]). cbn [docs current_doc total].
    rewrite Hfull. split; [now rewrite map_app|].
    assert (Hdrop : length (drop (size - lap) w) = lap) by (rewrite length_drop; lia).
    split; [unfold len; rewrite length_app, Hdrop; simpl; lia|].
    split; [rewrite length_app, Hdrop; simpl; lia|].
    split.
    { apply Forall_app. split; [|constructor; [exact Hc|constructor]].
      unfold unbroken in *. rewrite <- (take_drop (size - lap) w) in Hw.
      now apply Forall_app in Hw as [_ Hw]. }
    split.
    { apply overlapping_snoc; [exact Hch|]. intros a Ha.
      destruct (Hlast a Ha) as (H1 & _ & H3). now split. }
    intros a Ha. rewrite last_snoc in Ha. injection Ha as <-.
    split; [exact Hfull|]. split; [rewrite length_app, Hdrop; simpl; lia|].
    rewrite take_app_le by lia. rewrite take_ge by lia. reflexivity.
  - rewrite Z.gtb_ltb in Hover. apply Z.ltb_ge in Hover. unfold len in Hover.
    exists (w ++ [c]). cbn [docs current_doc total]. rewrite ?Hcur, ?Htot.
    split; [now rewrite map_app|].
    split; [unfold len; rewrite length_app; simpl; lia|].
    split; [rewrite length_app; simpl; lia|].
    split; [apply Forall_app; split; [exact Hw|constructor; [exact Hc|constructor]]|].
    split; [exact Hch|].
    intros a Ha. destruct (Hlast a Ha) as (H1 & H2 & H3).
    split; [exact H1|]. split; [rewrite length_app; simpl; lia|].
    rewrite take_app_le by lia. exact H3.
Qed.

Lemma window_fold text : forall st,
  window_inv T size lap st -> unbroken text ->
  window_inv T size lap (fold_left (merge_step T []) (map single text) st).
Proof.
  induction text as [|c text IH]; intros st Hst Htext; [exact Hst|].
  apply Forall_cons in Htext as [Hc Htext]. simpl. apply IH; [|exact Htext].
  now apply window_step.
Qed.

Lemma merge_singles_overlapping text :
  unbroken text -> overlapping size lap (_merge_splits T (map single text) []).
Proof.
  intros Htext. unfold _merge_splits.
  destruct (window_fold text {| docs := []; current_doc := []; total := 0 |})
    as (w & Hcur & Htot & Hlen & Hw & Hch & Hlast); [|exact Htext|].
  { exists []. split; [reflexivity|]. split; [reflexivity|]. split; [simpl; lia|].
    split; [constructor|]. split; [intros i a b Ha; discriminate|intros a Ha; discriminate]. }
  rewrite Hcur. destruct w as [|c w].
  - unfold _join_docs. cbn [map join]. destruct (strip_whitespace T); exact Hch.
  - rewrite join_docs_singles by (try exact Hw; discriminate). cbn [push_doc].
    apply overlapping_snoc; [exact Hch|]. intros a Ha.
    destruct (Hlast a Ha) as (H1 & _ & H3). now split.
Qed.

Lemma split_fold_singles text : forall final good,
  1 < chunk_size T ->
  fold_left (split_step T [] None) (map single text) (final, good)
  = (final, good ++ map single text).
Proof.
  induction text as [|c text IH]; intros final good Hsize; [now rewrite app_nil_r|].
  cbn [map fold_left]. unfold split_step at 2. change (len (single c)) with 1.
  replace (1 <? chunk_size T) with true by (symmetry; apply Z.ltb_lt; exact Hsize).
  rewrite IH by exact Hsize. now rewrite <- app_assoc.
Qed.

Hypothesis keeps : keep_separator T = true.

Lemma split_chars_is_merge text :
  1 < chunk_size T ->
  split_with T [] None text
  = match text with
    | [] => []
    | _ => _merge_splits T (map single text) []
    end.
Proof.
  intros Hsize. unfold split_with, _split_text_with_regex. rewrite keeps. cbn [nonempty].
  assert (Hfilter : List.filter nonempty (map (fun c => [c]) text) = map single text).
  { clear. induction text as [|c text IH]; [reflexivity|]. simpl. now rewrite IH. }
  rewrite Hfilter, split_fold_singles by exact Hsize.
  destruct text; reflexivity.
Qed.

End char_windows.

Lemma unbroken_falls_to_characters text :
  unbroken text ->
  langchain.split_text text_splitter text
  = match text with
    | [] => []
    | _ => langchain._merge_splits text_splitter (map single text) []
    end.
Proof.
  intros Htext. unfold langchain.split_text.
  cbn [langchain.separators text_splitter langchain._split_text langchain.nonempty negb].
  rewrite !contains_head_absent
    by (apply (unbroken_absent _ _ Htext); first [left; reflexivity|right; reflexivity]).
  apply split_chars_is_merge; [reflexivity|reflexivity].
Qed.

(** * Further properties of the two scripts *)

(** ** Extraction *)

Section extraction_runs.
Context `{Services}.

Lemma progress_from_app i n k1 k2 :
  progress_from i n (k1 + k2) = progress_from i n k1 ++ progress_from (i + Z.of_nat k1) n k2.
Proof.
  revert i. induction k1 as [|k1 IH]; intros i.
  - simpl. now rewrite Z.add_0_r.
  - cbn [Nat.add progress_from app]. rewrite IH. do 3 f_equal. lia.
Qed.

Lemma app_ocr_pages_ok images texts :
  Forall2 (reads app.TESSERACT_CONFIG) images texts ->
  forall i n t w,
  exists w',
    app.ocr_pages images i n t w = (Ok (t ++ pages_text texts), w')
    /\ ui w' = ui w ++ progress_from i n (length images)
    /\ calls w' = calls w ++ replicate (length images) (call_image_to_string app.TESSERACT_CONFIG)
    /\ files w' = files w
    /\ OPENAI_API_KEY w' = OPENAI_API_KEY w.
Proof.
  induction 1 as [|img text images texts Himg _ IH]; intros i n t w.
  - exists w. cbn [app.ocr_pages]. unfold pages_text. cbn [map concat length progress_from replicate].
    rewrite !app_nil_r. repeat split; reflexivity.
  - cbn [app.ocr_pages]. run_monad. cbn beta iota. unfold reads in Himg. rewrite Himg.
    cbn beta iota.
    edestruct IH as (w' & -> & Hui & Hcalls & Hfiles & Hkey).
    exists w'. split.
    { unfold pages_text. cbn [map concat]. now rewrite <- !app_assoc. }
    rewrite Hui, Hcalls, Hfiles, Hkey. cbn [ui calls files OPENAI_API_KEY length progress_from replicate].
    rewrite <- !app_assoc. repeat split; reflexivity.
Qed.

Lemma deploy_ocr_pages_ok config images texts :
  Forall2 (reads config) images texts ->
  forall i n t w,
  exists w',
    app_deploy.ocr_pages config images i n t w = (Ok (t ++ pages_text texts), w')
    /\ ui w' = ui w ++ progress_from i n (length images)
    /\ calls w' = calls w ++ replicate (length images) (call_image_to_string config)
    /\ files w' = files w
    /\ OPENAI_API_KEY w' = OPENAI_API_KEY w.
Proof.
  induction 1 as [|img text images texts Himg _ IH]; intros i n t w.
  - exists w. cbn [app_deploy.ocr_pages]. unfold pages_text.
    cbn [map concat length progress_from replicate].
    rewrite !app_nil_r. repeat split; reflexivity.
  - cbn [app_deploy.ocr_pages]. run_monad. cbn beta iota. unfold reads in Himg. rewrite Himg.
    cbn beta iota.
    edestruct IH as (w' & -> & Hui & Hcalls & Hfiles & Hkey).
    exists w'. split.
    { unfold pages_text. cbn [map concat]. now rewrite <- !app_assoc. }
    rewrite Hui, Hcalls, Hfiles, Hkey. cbn [ui calls files OPENAI_API_KEY length progress_from replicate].
    rewrite <- !app_assoc. repeat split; reflexivity.
Qed.

(** X1. When the PDF converts and OCR reads every page, extraction returns
    the page texts in page order, each followed by a blank line.  It shows
    the spinner, the progress after each page and the success message,
    calls the converter once and OCR once per page with the configured
    options, and leaves the cache files and the API key alone. *)
Theorem extraction_reads_every_page config ex pdf_path images texts w :
  extractor config ex ->
  convert_from_path pdf_path = Ok images ->
  Forall2 (reads config) images texts ->
  exists w',
    ex pdf_path w = (Ok (pages_text texts), w')
    /\ ui w' = ui w
               ++ [st_spinner (py.of_string "Extracting text from PDF..."); st_progress 0 1]
               ++ progress_from 0 (py.len images) (length images)
               ++ [st_success (py.of_string "Text extraction complete!")]
    /\ calls w' = calls w
                  ++ call_convert_from_path pdf_path 300
                     :: replicate (length images) (call_image_to_string config)
    /\ files w' = files w
    /\ OPENAI_API_KEY w' = OPENAI_API_KEY w.
Proof.
  intros Hex Hconv Hread. destruct Hex as [|config].
  - unfold app.extract_text_from_pdf. run_monad. cbn beta iota. rewrite Hconv. cbn beta iota.
    edestruct (app_ocr_pages_ok images texts Hread) as (w' & -> & Hui & Hcalls & Hfiles & Hkey).
    cbn beta iota. eexists. split; [reflexivity|].
    cbn [ui calls files OPENAI_API_KEY]. rewrite Hui, Hcalls, Hfiles, Hkey.
    cbn [ui calls files OPENAI_API_KEY]. rewrite <- !app_assoc. repeat split; reflexivity.
  - unfold app_deploy.extract_text_from_pdf. run_monad. cbn beta iota. rewrite Hconv.
    cbn beta iota.
    edestruct (deploy_ocr_pages_ok config images texts Hread)
      as (w' & -> & Hui & Hcalls & Hfiles & Hkey).
    cbn beta iota. eexists. split; [reflexivity|].
    cbn [ui calls files OPENAI_API_KEY]. rewrite Hui, Hcalls, Hfiles, Hkey.
    cbn [ui calls files OPENAI_API_KEY]. rewrite <- !app_assoc. repeat split; reflexivity.
Qed.

End extraction_runs.

Lemma extraction_reads_every_page_witness :
  let S := mock (mock_pdf two_pages) (Ok None) in
  exists text w',
    @app.extract_text_from_pdf S app.PDF_PATH empty_world = (Ok text, w')
    /\ py.len text = 33
    /\ calls w' = [ call_convert_from_path app.PDF_PATH 300;
                    call_image_to_string app.TESSERACT_CONFIG;
                    call_image_to_string app.TESSERACT_CONFIG ].
Proof.
  intros S.
  destruct (@extraction_reads_every_page S _ _ app.PDF_PATH two_pages
              [ [2474; 2509; 2480; 2469; 2478; 32; 2474; 2499; 2487; 2509; 2464; 2494; 2404]%N;
                [2470; 2509; 2476; 2495; 2468; 2496; 2479; 2492; 32; 2474; 2499; 2487; 2509;
                 2464; 2494; 2404]%N ]
              empty_world (@extractor_app S))
    as (w' & Hrun & _ & Hcalls & _).
  - reflexivity.
  - repeat constructor.
  - eexists _, w'. split; [exact Hrun|]. split; [reflexivity|exact Hcalls].
Defined.

Section extraction_stops.
Context `{Services}.

Lemma app_ocr_pages_stops good texts bad rest e :
  Forall2 (reads app.TESSERACT_CONFIG) good texts ->
  image_to_string bad app.TESSERACT_CONFIG = Raise e ->
  forall i n t w,
  exists e' w',
    app.ocr_pages (good ++ bad :: rest) i n t w = (Raise e', w')
    /\ calls w' = calls w
                  ++ replicate (S (length good)) (call_image_to_string app.TESSERACT_CONFIG)
    /\ (forall c m, e = Exc c m -> is_TesseractError c = true -> e' = StopException)
    /\ (forall c m, e = Exc c m -> is_TesseractError c = false ->
          e' = e /\ ui w' = ui w ++ progress_from i n (length good))
    /\ (e = StopException -> e' = StopException).
Proof.
  induction 1 as [|img text good texts Himg _ IH]; intros Hbad i n t w.
  - cbn [app app.ocr_pages]. run_monad. cbn beta iota. rewrite Hbad.
    destruct e as [|c m].
    + eexists _, _. split; [reflexivity|]. cbn [calls length replicate].
      split; [reflexivity|]. repeat split; intros; discriminate.
    + destruct (is_TesseractError c) eqn:Hc.
      * cbn [str_of]. destruct (py.contains _ m);
          (eexists _, _; split; [reflexivity|]; cbn [calls length replicate];
           split; [reflexivity|]; split; [reflexivity|]; split; [|discriminate];
           intros c' m' Heq Hc'; injection Heq as <- <-; congruence).
      * eexists _, _. split; [reflexivity|]. cbn [calls ui length replicate progress_from].
        split; [reflexivity|]. split; [intros c' m' Heq Hc'; injection Heq as <- <-; congruence|].
        split; [|discriminate]. intros c' m' _ _. split; [reflexivity|now rewrite app_nil_r].
  - cbn [app app.ocr_pages]. run_monad. cbn beta iota. unfold reads in Himg. rewrite Himg.
    cbn beta iota.
    edestruct (IH Hbad) as (e' & w' & -> & Hcalls & Htess & Hother & Hstop).
    exists e', w'. split; [reflexivity|]. rewrite Hcalls. cbn [calls ui length replicate].
    split; [now rewrite <- app_assoc|]. split; [exact Htess|]. split; [|exact Hstop].
    intros c m He Hc. destruct (Hother c m He Hc) as [-> Hui]. split; [reflexivity|].
    rewrite Hui. cbn [ui progress_from]. now rewrite <- app_assoc.
Qed.

Lemma deploy_ocr_pages_stops config good texts bad rest e :
  Forall2 (reads config) good texts ->
  image_to_string bad config = Raise e ->
  forall i n t w,
  exists e' w',
    app_deploy.ocr_pages config (good ++ bad :: rest) i n t w = (Raise e', w')
    /\ calls w' = calls w ++ replicate (S (length good)) (call_image_to_string config)
    /\ (forall c m, e = Exc c m -> is_TesseractError c = true -> e' = StopException)
    /\ (forall c m, e = Exc c m -> is_TesseractError c = false ->
          e' = e /\ ui w' = ui w ++ progress_from i n (length good))
    /\ (e = StopException -> e' = StopException).
Proof.
  induction 1 as [|img text good texts Himg _ IH]; intros Hbad i n t w.
  - cbn [app app_deploy.ocr_pages]. run_monad. cbn beta iota. rewrite Hbad.
    destruct e as [|c m].
    + eexists _, _. split; [reflexivity|]. cbn [calls length replicate].
      split; [reflexivity|]. repeat split; intros; discriminate.
    + destruct (is_TesseractError c) eqn:Hc.
      * eexists _, _; split; [reflexivity|]; cbn [calls length replicate];
          split; [reflexivity|]; split; [reflexivity|]; split; [|discriminate];
          intros c' m' Heq Hc'; injection Heq as <- <-; congruence.
      * eexists _, _. split; [reflexivity|]. cbn [calls ui length replicate progress_from].
        split; [reflexivity|]. split; [intros c' m' Heq Hc'; injection Heq as <- <-; congruence|].
        split; [|discriminate]. intros c' m' _ _. split; [reflexivity|now rewrite app_nil_r].
  - cbn [app app_deploy.ocr_pages]. run_monad. cbn beta iota. unfold reads in Himg. rewrite Himg.
    cbn beta iota.
    edestruct (IH Hbad) as (e' & w' & -> & Hcalls & Htess & Hother & Hstop).
    exists e', w'. split; [reflexivity|]. rewrite Hcalls. cbn [calls ui length replicate].
    split; [now rewrite <- app_assoc|]. split; [exact Htess|]. split; [|exact Hstop].
    intros c m He Hc. destruct (Hother c m He Hc) as [-> Hui]. split; [reflexivity|].
    rewrite Hui. cbn [ui progress_from]. now rewrite <- app_assoc.
Qed.

(** X2. When OCR raises on a page after pages that were read, whatever it
    raises, extraction stops the script there: OCR has been called once for
    each page up to and including that one and for no later page, and the
    cache files are untouched. *)
Theorem extraction_stops_at_first_failure config ex pdf_path good texts bad rest e w :
  extractor config ex ->
  convert_from_path pdf_path = Ok (good ++ bad :: rest) ->
  Forall2 (reads config) good texts ->
  image_to_string bad config = Raise e ->
  exists w',
    ex pdf_path w = (Raise StopException, w')
    /\ calls w' = calls w
                  ++ call_convert_from_path pdf_path 300
                     :: replicate (S (length good)) (call_image_to_string config)
    /\ files w' = files w.
Proof.
  intros Hex Hconv Hgood Hbad.
  pose proof (extractor_keeps _ _ pdf_path Hex w) as Hfiles.
  assert (Hrun : exists w', ex pdf_path w = (Raise StopException, w')
            /\ calls w' = calls w ++ call_convert_from_path pdf_path 300
                           :: replicate (S (length good)) (call_image_to_string config)).
  { destruct Hex as [|config].
    - unfold app.extract_text_from_pdf. run_monad. cbn beta iota. rewrite Hconv. cbn beta iota.
      edestruct (app_ocr_pages_stops good texts bad rest e Hgood Hbad)
        as (e' & w' & -> & Hcalls & Htess & Hother & Hstop).
      cbn [calls] in Hcalls. rewrite <- app_assoc in Hcalls.
      destruct e as [|c m].
      + rewrite (Hstop eq_refl). cbn [is_Exception]. eauto.
      + destruct (is_TesseractError c) eqn:Hc.
        * rewrite (Htess c m eq_refl Hc). cbn [is_Exception]. eauto.
        * destruct (Hother c m eq_refl Hc) as [-> _]. cbn [is_Exception calls].
          eexists. split; [reflexivity|exact Hcalls].
    - unfold app_deploy.extract_text_from_pdf. run_monad. cbn beta iota. rewrite Hconv.
      cbn beta iota.
      edestruct (deploy_ocr_pages_stops config good texts bad rest e Hgood Hbad)
        as (e' & w' & -> & Hcalls & Htess & Hother & Hstop).
      cbn [calls] in Hcalls. rewrite <- app_assoc in Hcalls.
      destruct e as [|c m].
      + rewrite (Hstop eq_refl). cbn [is_Exception]. eauto.
      + destruct (is_TesseractError c) eqn:Hc.
        * rewrite (Htess c m eq_refl Hc). cbn [is_Exception]. eauto.
        * destruct (Hother c m eq_refl Hc) as [-> _]. cbn [is_Exception calls].
          eexists. split; [reflexivity|exact Hcalls]. }
  destruct Hrun as (w' & Hrun & Hcalls). exists w'. rewrite Hrun in Hfiles. auto.
Qed.

(** X3. An exception that is not a [TesseractError] is reported as
    [Error processing PDF: ...] with its text before the script stops:
    when the converter raises it, nothing else is shown and OCR is never
    called; when OCR raises it on a page, it follows the progress of the
    pages read before. *)
Theorem extraction_reports_other_errors config ex pdf_path c m w :
  extractor config ex ->
  (convert_from_path pdf_path = Raise (Exc c m) ->
   exists w',
     ex pdf_path w = (Raise StopException, w')
     /\ ui w' = ui w ++ [st_error (py.of_string "Error processing PDF: " ++ m)]
     /\ calls w' = calls w ++ [call_convert_from_path pdf_path 300])
  /\ (forall good texts bad rest,
        convert_from_path pdf_path = Ok (good ++ bad :: rest) ->
        Forall2 (reads config) good texts ->
        image_to_string bad config = Raise (Exc c m) ->
        is_TesseractError c = false ->
        exists w',
          ex pdf_path w = (Raise StopException, w')
          /\ ui w' = ui w
                     ++ [st_spinner (py.of_string "Extracting text from PDF..."); st_progress 0 1]
                     ++ progress_from 0 (py.len (good ++ bad :: rest)) (length good)
                     ++ [st_error (py.of_string "Error processing PDF: " ++ m)]).
Proof.
  intros Hex. split.
  - intros Hconv. destruct Hex as [|config].
    + unfold app.extract_text_from_pdf. run_monad. cbn beta iota. rewrite Hconv.
      cbn [is_Exception str_of ui calls]. eauto.
    + unfold app_deploy.extract_text_from_pdf. run_monad. cbn beta iota. rewrite Hconv.
      cbn [is_Exception str_of ui calls]. eauto.
  - intros good texts bad rest Hconv Hgood Hbad Hc. destruct Hex as [|config].
    + unfold app.extract_text_from_pdf. run_monad. cbn beta iota. rewrite Hconv. cbn beta iota.
      edestruct (app_ocr_pages_stops good texts bad rest _ Hgood Hbad)
        as (e' & w' & -> & _ & _ & Hother & _).
      destruct (Hother c m eq_refl Hc) as [-> Hui]. cbn [is_Exception str_of ui].
      eexists. split; [reflexivity|]. rewrite Hui. cbn [ui]. now rewrite <- !app_assoc.
    + unfold app_deploy.extract_text_from_pdf. run_monad. cbn beta iota. rewrite Hconv.
      cbn beta iota.
      edestruct (deploy_ocr_pages_stops config good texts bad rest _ Hgood Hbad)
        as (e' & w' & -> & _ & _ & Hother & _).
      destruct (Hother c m eq_refl Hc) as [-> Hui]. cbn [is_Exception str_of ui].
      eexists. split; [reflexivity|]. rewrite Hui. cbn [ui]. now rewrite <- !app_assoc.
Qed.

End extraction_stops.

Lemma extraction_stops_at_first_failure_witness :
  let S := mock (mock_pdf [Ok (py.of_string "one"); Raise ben_missing; Ok (py.of_string "three")])
             (Ok None) in
  exists w',
    @app.extract_text_from_pdf S app.PDF_PATH empty_world = (Raise StopException, w')
    /\ calls w' = [ call_convert_from_path app.PDF_PATH 300;
                    call_image_to_string app.TESSERACT_CONFIG;
                    call_image_to_string app.TESSERACT_CONFIG ]
    /\ files w' = files empty_world.
Proof.
  intros S.
  apply (@extraction_stops_at_first_failure S _ _ app.PDF_PATH [Ok (py.of_string "one")]
           [py.of_string "one"] (Raise ben_missing) [Ok (py.of_string "three")] ben_missing
           empty_world (@extractor_app S)).
  - reflexivity.
  - repeat constructor.
  - reflexivity.
Defined.

Lemma extraction_reports_other_errors_witness :
  let S := mock (mock_pdf two_pages) (Ok None) in
  exists w',
    @app.extract_text_from_pdf S "data/missing.pdf" empty_world = (Raise StopException, w')
    /\ ui w' = [st_error (py.of_string "Error processing PDF: Unable to get page count.")]
    /\ calls w' = [call_convert_from_path "data/missing.pdf" 300].
Proof.
  intros S.
  destruct (@extraction_reports_other_errors S _ _ "data/missing.pdf" OtherError
              (py.of_string "Unable to get page count.") empty_world (@extractor_app S))
    as (Hconv & _).
  apply Hconv. reflexivity.
Defined.

(** ** The cache *)

Lemma string_length_app (a b : string) :
  String.length (a ++ b) = (String.length a + String.length b)%nat.
Proof.
  induction a as [|c a IH]; [reflexivity|].
  change (S (String.length (a ++ b)) = S (String.length a + String.length b)%nat).
  now rewrite IH.
Qed.

Lemma string_app_inv_tail (a b s : string) : (a ++ s = b ++ s)%string -> a = b.
Proof.
  revert b. induction a as [|c a IH]; intros [|c' b] Heq; cbn [String.append] in Heq.
  - reflexivity.
  - apply (f_equal String.length) in Heq.
    change (String.length s = S (String.length (b ++ s))) in Heq.
    rewrite string_length_app in Heq. lia.
  - apply (f_equal String.length) in Heq.
    change (S (String.length (a ++ s)) = String.length s) in Heq.
    rewrite string_length_app in Heq. lia.
  - injection Heq as -> Heq. f_equal. now apply IH.
Qed.

Lemma cache_path_of_inj p1 p2 :
  cache_path_of p1 = cache_path_of p2 <-> basename p1 = basename p2.
Proof.
  unfold cache_path_of. split; [|now intros ->].
  intros Heq. apply (String.app_inj "cache/") in Heq. now apply string_app_inv_tail in Heq.
Qed.

(** X4. The cache entry belongs to the base name of the path and to
    nothing else: once [process_pdf] has returned a pair for one path, it
    returns that same pair, and does nothing else, for any path with the
    same base name, whatever the document, the services or the extractor
    are by then. *)
Theorem cache_entry_shared_by_base_name (S1 S2 : Services) ex1 ex2 p1 p2 w e w1 :
  basename p1 = basename p2 ->
  @process_pdf_with S1 ex1 p1 w = (Ok e, w1) ->
  @process_pdf_with S2 ex2 p2 w1 = (Ok e, w1).
Proof.
  intros Hbase Hrun. apply process_pdf_hit.
  replace (cache_path_of p2) with (cache_path_of p1) by now apply cache_path_of_inj.
  destruct (files w !! cache_path_of p1) as [[e0|]|] eqn:Hkey.
  - rewrite (@process_pdf_hit S1 _ _ _ _ Hkey) in Hrun. injection Hrun as <- <-. exact Hkey.
  - unfold process_pdf_with, mbind, M_bind, path_exists, pickle_load in Hrun.
    rewrite Hkey in Hrun. rewrite bool_decide_eq_true_2 in Hrun by eauto.
    cbn beta iota in Hrun. rewrite Hkey in Hrun. discriminate.
  - rewrite (@process_pdf_miss S1 _ _ _ Hkey) in Hrun.
    destruct (ex1 p1 w) as [[text|e1] w0]; [|discriminate].
    destruct (langchain.split_text text_splitter text); [discriminate|].
    injection Hrun as <- <-. cbn [files persisted]. apply lookup_insert_eq.
Qed.

Section cache_frame.
Context `{Services}.

(** X5. A run of [process_pdf] changes no cache file but the one of its
    own base name, and two paths have the same cache file exactly when
    their base names are equal: documents with different file names never
    overwrite each other's entry. *)
Theorem cache_entries_do_not_interfere config ex p1 p2 w r w1 :
  extractor config ex ->
  process_pdf_with ex p1 w = (r, w1) ->
  (forall k, k <> cache_path_of p1 -> files w1 !! k = files w !! k)
  /\ (basename p1 <> basename p2 ->
      files w1 !! cache_path_of p2 = files w !! cache_path_of p2).
Proof.
  intros Hex Hrun.
  assert (Hframe : forall k, k <> cache_path_of p1 -> files w1 !! k = files w !! k).
  { intros k Hk. pose proof (extractor_keeps _ _ p1 Hex w) as Hfiles.
    destruct (files w !! cache_path_of p1) as [[e0|]|] eqn:Hkey.
    - rewrite (process_pdf_hit _ _ _ _ Hkey) in Hrun. now injection Hrun as <- <-.
    - unfold process_pdf_with, mbind, M_bind, path_exists, pickle_load in Hrun.
      rewrite Hkey in Hrun. rewrite bool_decide_eq_true_2 in Hrun by eauto.
      cbn beta iota in Hrun. rewrite Hkey in Hrun. now injection Hrun as <- <-.
    - rewrite (process_pdf_miss _ _ _ Hkey) in Hrun.
      destruct (ex p1 w) as [[text|e1] w0]; simpl in Hfiles.
      + destruct (langchain.split_text text_splitter text).
        * injection Hrun as <- <-. cbn [files embedded]. now rewrite Hfiles.
        * injection Hrun as <- <-. cbn [files persisted embedded].
          rewrite lookup_insert_ne by congruence. now rewrite Hfiles.
      + injection Hrun as <- <-. now rewrite Hfiles. }
  split; [exact Hframe|].
  intros Hbase. apply Hframe. intros Heq. apply Hbase. symmetry. now apply cache_path_of_inj.
Qed.

(** X6. A cache file that does not unpickle makes [process_pdf] raise
    without extracting, chunking or embedding anything and without
    replacing the file, so every later run for that base name fails in
    the same way. *)
Theorem corrupt_cache_entry_is_fatal ex pdf_path w :
  files w !! cache_path_of pdf_path = Some garbage ->
  exists e,
    process_pdf_with ex pdf_path w = (Raise e, w)
    /\ is_Exception e = true
    /\ forall ex', process_pdf_with ex' pdf_path w = (Raise e, w).
Proof.
  intros Hkey.
  assert (Hrun : forall ex0, process_pdf_with ex0 pdf_path w = (Raise (Exc UnpicklingError []), w)).
  { intros ex0. unfold process_pdf_with, mbind, M_bind, path_exists, pickle_load.
    rewrite Hkey. rewrite bool_decide_eq_true_2 by eauto. cbn beta iota. now rewrite Hkey. }
  exists (Exc UnpicklingError []). split; [apply Hrun|]. split; [reflexivity|exact Hrun].
Qed.

End cache_frame.

Lemma cache_entry_shared_by_base_name_witness :
  let S1 := mock (mock_pdf two_pages) (Ok None) in
  let S2 := mock (fun _ => Ok [Ok (py.of_string "another document")]) (Ok None) in
  exists e w1,
    @app.process_pdf S1 app.PDF_PATH empty_world = (Ok e, w1)
    /\ @app_deploy.process_pdf S2 "--oem 3 --psm 6 -l eng" "uploads/bangla_document.pdf" w1
       = (Ok e, w1).
Proof.
  intros S1 S2.
  destruct (@app.process_pdf S1 app.PDF_PATH empty_world) as [[e|x] w1] eqn:Hrun;
    [|vm_compute in Hrun; discriminate].
  exists e, w1. split; [reflexivity|].
  apply (@cache_entry_shared_by_base_name S1 S2 (@app.extract_text_from_pdf S1)
           (@app_deploy.extract_text_from_pdf S2 "--oem 3 --psm 6 -l eng")
           app.PDF_PATH "uploads/bangla_document.pdf" empty_world e w1);
    [reflexivity|exact Hrun].
Defined.

Lemma cache_entries_do_not_interfere_witness :
  let S := mock (mock_pdf two_pages) (Ok None) in
  exists r w1,
    @app.process_pdf S app.PDF_PATH empty_world = (r, w1)
    /\ files w1 !! cache_path_of "data/other.pdf" = None.
Proof.
  intros S.
  destruct (@app.process_pdf S app.PDF_PATH empty_world) as [r w1] eqn:Hrun.
  exists r, w1. split; [reflexivity|].
  destruct (@cache_entries_do_not_interfere S _ _ app.PDF_PATH "data/other.pdf" empty_world r w1
              (@extractor_app S) Hrun) as [_ Hother].
  rewrite Hother; [reflexivity|]. vm_compute. discriminate.
Defined.

Lemma corrupt_cache_entry_is_fatal_witness :
  let S := mock (mock_pdf two_pages) (Ok None) in
  let w := {| files := {[ cache_path_of app.PDF_PATH := garbage ]};
              OPENAI_API_KEY := None; ui := []; calls := [] |} in
  exists e, @app.process_pdf S app.PDF_PATH w = (Raise e, w).
Proof.
  intros S w.
  destruct (@corrupt_cache_entry_is_fatal S (@app.extract_text_from_pdf S) app.PDF_PATH w)
    as (e & Hrun & _).
  - apply lookup_singleton_eq.
  - exists e. exact Hrun.
Defined.

(** ** The completion call and the question path *)

Section answering.
Context `{Services}.

(** X7. [query_openai] never lets an exception of the client reach its
    caller, and leaves the cache files alone.  With a key in the
    environment it makes exactly one completion call, with the fixed
    request; without one the client cannot be built and no call is made.
    It returns the stripped reply; a raised exception or a reply without
    content gives [None] behind an [OpenAI Error] message. *)
Theorem query_openai_never_raises prompt w r :
  create (OPENAI_API_KEY w) (completion_request prompt) = r ->
  r <> Raise StopException ->
  exists answer w',
    query_openai prompt w = (Ok answer, w')
    /\ (OPENAI_API_KEY w <> None ->
        calls w' = calls w ++ [call_create (completion_request prompt)])
    /\ (OPENAI_API_KEY w = None -> (exists e, r = Raise e) -> calls w' = calls w)
    /\ files w' = files w
    /\ match r with
       | Ok (Some c) => answer = Some (py.strip c) /\ ui w' = ui w
       | Ok None =>
           answer = None
           /\ ui w' = ui w ++ [st_error (py.of_string "OpenAI Error: 'NoneType' object has no attribute 'strip'")]
       | Raise e =>
           answer = None /\ ui w' = ui w ++ [st_error (py.of_string "OpenAI Error: " ++ str_of e)]
       end.
Proof.
  intros Hr Hstop. destruct r as [[c|]|e].
  - rewrite (query_openai_ok _ _ _ Hr). eexists _, _.
    split; [reflexivity|]. split; [reflexivity|]. split; [|now repeat split].
    intros _ [e He]. discriminate.
  - unfold query_openai. run_monad. cbn beta iota zeta. cbn [files OPENAI_API_KEY ui calls].
    rewrite Hr. cbn [OpenAI]. destruct (OPENAI_API_KEY w); cbn beta iota;
      cbn [is_Exception str_of files OPENAI_API_KEY ui calls]; eexists _, _;
      (split; [reflexivity|]); (split; [reflexivity|]);
      (split; [intros _ [e He]; discriminate|]); now repeat split.
  - destruct e as [|c m]; [congruence|].
    rewrite (query_openai_raise _ _ _ Hr eq_refl). eexists _, _.
    split; [reflexivity|]. cbn [calls files ui].
    split; [intros Hkey; destruct (OPENAI_API_KEY w); [reflexivity|congruence]|].
    split; [intros -> _; apply app_nil_r|]. now repeat split.
Qed.

Lemma question_path_replied build_prompt chunks index question openai_api_key context c w :
  question <> [] -> openai_api_key <> [] ->
  retrieved chunks index question = Ok context ->
  create (OPENAI_API_KEY w) (completion_request (build_prompt context question)) = Ok (Some c) ->
  exists w',
    question_path build_prompt chunks index question openai_api_key w = (Ok tt, w')
    /\ calls w' = calls w ++ [ call_encode [question]; call_search 3;
                               call_create (completion_request (build_prompt context question)) ]
    /\ files w' = files w
    /\ ui w' = ui w ++ (if langchain.nonempty (py.strip c)
                        then answer_shown (py.strip c) context
                        else [st_spinner (py.of_string "Generating answer...")]).
Proof.
  intros Hq Hk Hctx Hcreate.
  unfold question_path. destruct question as [|q0 question]; [congruence|].
  destruct openai_api_key as [|k0 key]; [congruence|]. cbn [langchain.nonempty andb].
  set (q := q0 :: question) in *.
  rewrite (bind_run _ _ w context (asked w q)) by (now rewrite retrieve_run, Hctx).
  set (w2 := (st (st_spinner (py.of_string "Generating answer...")) (asked w q)).2).
  rewrite (bind_run _ _ (asked w q) tt w2) by reflexivity.
  erewrite bind_run by (apply query_openai_ok; exact Hcreate).
  destruct (py.strip c) as [|a0 a] eqn:Hstrip; cbn [truthy langchain.nonempty].
  - eexists. split; [reflexivity|]. cbn [calls files ui w2 st asked snd].
    rewrite <- !app_assoc. repeat split; reflexivity.
  - run_monad. cbn beta iota. eexists. split; [reflexivity|].
    cbn [calls files ui w2 st asked snd]. unfold answer_shown.
    rewrite <- !app_assoc. repeat split; reflexivity.
Qed.

(** X8. With a question and a key, a retrieved context and a reply with
    content, the question path makes three calls (embed the question,
    search with [k = 3], complete) and changes no cache file.  It shows
    the stripped reply under [Answer:] with the context used; when the
    reply is whitespace only it shows neither an answer nor an error. *)
Theorem question_path_shows_answer build_prompt chunks index question openai_api_key
    context c w :
  question <> [] -> openai_api_key <> [] ->
  retrieved chunks index question = Ok context ->
  create (OPENAI_API_KEY w) (completion_request (build_prompt context question)) = Ok (Some c) ->
  exists w',
    question_path build_prompt chunks index question openai_api_key w = (Ok tt, w')
    /\ calls w' = calls w ++ [ call_encode [question]; call_search 3;
                               call_create (completion_request (build_prompt context question)) ]
    /\ files w' = files w
    /\ (py.strip c <> [] -> ui w' = ui w ++ answer_shown (py.strip c) context)
    /\ (py.strip c = [] ->
        ui w' = ui w ++ [st_spinner (py.of_string "Generating answer...")]
        /\ forall body, st_error body ∉ drop (length (ui w)) (ui w')).
Proof.
  intros Hq Hk Hctx Hcreate.
  destruct (question_path_replied build_prompt chunks index question openai_api_key context c w
              Hq Hk Hctx Hcreate) as (w' & Hrun & Hcalls & Hfiles & Hui).
  exists w'. split; [exact Hrun|]. split; [exact Hcalls|]. split; [exact Hfiles|].
  split.
  - intros Hstrip. rewrite Hui. destruct (py.strip c); [congruence|reflexivity].
  - intros Hstrip. rewrite Hstrip in Hui. cbn [langchain.nonempty] in Hui.
    split; [exact Hui|]. intros body Hin. rewrite Hui, drop_app_length in Hin.
    apply list_elem_of_singleton in Hin. discriminate.
Qed.

End answering.

Lemma query_openai_never_raises_witness :
  let S := mock (mock_pdf two_pages)
             (Raise (Exc OtherError (py.of_string "The api_key client option must be set"))) in
  exists w',
    @query_openai S (py.of_string "prompt") empty_world = (Ok None, w')
    /\ calls w' = []
    /\ ui w' = [st_error (py.of_string "OpenAI Error: The api_key client option must be set")].
Proof.
  intros S.
  destruct (@query_openai_never_raises S (py.of_string "prompt") empty_world
              (Raise (Exc OtherError (py.of_string "The api_key client option must be set"))))
    as (answer & w' & Hrun & _ & Hcalls & _ & -> & Hui).
  - reflexivity.
  - discriminate.
  - exists w'. split; [exact Hrun|]. split; [|exact Hui]. apply Hcalls; [reflexivity|eauto].
Defined.

Lemma question_path_shows_answer_witness :
  let S := mock (mock_pdf two_pages) (Ok (Some (py.of_string "  "))) in
  let chunks := [py.of_string "first chunk"; py.of_string "second"; py.of_string "third one"] in
  exists w',
    @question_path S prompt_bn chunks (@build_index S chunks) (py.of_string "second?")
      (py.of_string "sk-test") empty_world = (Ok tt, w')
    /\ ui w' = [st_spinner (py.of_string "Generating answer...")].
Proof.
  intros S chunks.
  edestruct (@question_path_shows_answer S prompt_bn chunks (@build_index S chunks)
               (py.of_string "second?") (py.of_string "sk-test"))
    as (w' & Hrun & _ & _ & _ & Hui).
  - discriminate.
  - discriminate.
  - lazy. reflexivity.
  - reflexivity.
  - exists w'. split; [exact Hrun|]. apply Hui. reflexivity.
Defined.

(** ** [main()] of src/app.py *)

Lemma keeps_key_ret {A} (a : A) : keeps_key (mret a).
Proof. intros w. reflexivity. Qed.

Lemma keeps_key_raise {A} (e : exn) : keeps_key (@raise A e).
Proof. intros w. reflexivity. Qed.

Lemma keeps_key_lift {A} (r : result A) : keeps_key (lift r).
Proof. intros w. reflexivity. Qed.

Lemma keeps_key_st (c : st_call) : keeps_key (st c).
Proof. intros w. reflexivity. Qed.

Lemma keeps_key_called (c : call) : keeps_key (called c).
Proof. intros w. reflexivity. Qed.

Lemma keeps_key_bind {A B} (m : M A) (f : A -> M B) :
  keeps_key m -> (forall a, keeps_key (f a)) -> keeps_key (m ≫= f).
Proof.
  intros Hm Hf w. unfold mbind, M_bind. specialize (Hm w).
  destruct (m w) as [[a|e] w']; simpl in *.
  - rewrite Hf. exact Hm.
  - exact Hm.
Qed.

Lemma keeps_key_try_except_Exception {A} (body : M A) (handler : exn -> M A) :
  keeps_key body -> (forall e, keeps_key (handler e)) ->
  keeps_key (try_except_Exception body handler).
Proof.
  intros Hb Hh w. unfold try_except_Exception. specialize (Hb w).
  destruct (body w) as [[a|e] w']; simpl in *; [exact Hb|].
  destruct (is_Exception e); simpl; [rewrite Hh|]; exact Hb.
Qed.

Lemma keeps_key_try_except {A} (is_cls : exc_class -> bool) (body : M A)
    (handler : exn -> M A) :
  keeps_key body -> (forall e, keeps_key (handler e)) ->
  keeps_key (try_except is_cls body handler).
Proof.
  intros Hb Hh w. unfold try_except. specialize (Hb w).
  destruct (body w) as [[a|[|c m]] w']; simpl in *; try exact Hb.
  destruct (is_cls c); simpl; [rewrite Hh|]; exact Hb.
Qed.

Ltac keeps_key :=
  repeat (first [ progress intros
                | apply keeps_key_bind | apply keeps_key_try_except_Exception
                | apply keeps_key_try_except | apply keeps_key_st
                | apply keeps_key_called | apply keeps_key_lift
                | apply keeps_key_ret | apply keeps_key_raise
                | match goal with |- keeps_key (if ?b then _ else _) => destruct b end ]).

Section main_runs.
Context `{Services}.

Lemma app_ocr_pages_keeps_key images : forall i n t, keeps_key (app.ocr_pages images i n t).
Proof.
  induction images as [|img rest IH]; intros i n t; simpl.
  - apply keeps_key_ret.
  - apply keeps_key_bind; [|intros; apply keeps_key_bind; [apply keeps_key_st|intros; apply IH]].
    apply keeps_key_try_except; keeps_key.
Qed.

Lemma app_extract_keeps_key pdf_path : keeps_key (app.extract_text_from_pdf pdf_path).
Proof.
  unfold app.extract_text_from_pdf. apply keeps_key_try_except_Exception; [|keeps_key].
  repeat (apply keeps_key_bind; [solve [keeps_key]|intros]).
  apply keeps_key_bind; [apply app_ocr_pages_keeps_key|keeps_key].
Qed.

Lemma app_process_pdf_keeps_key pdf_path : keeps_key (app.process_pdf pdf_path).
Proof.
  unfold app.process_pdf, process_pdf_with.
  apply keeps_key_bind; [intros w; reflexivity|]. intros [|].
  - intros w. unfold pickle_load. destruct (files w !! _) as [[?|]|]; reflexivity.
  - apply keeps_key_bind; [apply app_extract_keeps_key|]. intros text.
    repeat (apply keeps_key_bind; [solve [keeps_key]|intros]).
    apply keeps_key_bind; [intros w; reflexivity|keeps_key].
Qed.

(** X9. [main()] stops before it processes anything unless Tesseract is
    installed, Bengali is supported and the PDF is there: it shows the
    title and the report of the first check that fails, calls no service
    and changes no cache file. *)
Theorem main_stops_before_processing tesseract_installed bengali_support pdf_exists
    openai_api_key question w :
  tesseract_installed && bengali_support && pdf_exists = false ->
  exists w',
    app.main tesseract_installed bengali_support pdf_exists openai_api_key question w
    = (Raise StopException, w')
    /\ ui w' = ui (titled w) ++ stop_report tesseract_installed bengali_support
    /\ calls w' = calls w
    /\ files w' = files w.
Proof.
  intros Hchecks. unfold app.main, stop_report. run_monad. cbn beta iota.
  destruct tesseract_installed; cbn [negb].
  - destruct bengali_support; cbn [negb].
    + destruct pdf_exists; [discriminate|]. cbn [negb]. eexists. split; [reflexivity|].
      cbn [ui calls files titled]. rewrite <- !app_assoc. repeat split; reflexivity.
    + eexists. split; [reflexivity|].
      cbn [ui calls files titled]. rewrite <- !app_assoc. repeat split; reflexivity.
  - eexists. split; [reflexivity|].
    cbn [ui calls files titled]. rewrite <- !app_assoc. repeat split; reflexivity.
Qed.

(** X10. With the checks passed, [main()] first gets the pair from
    [process_pdf], with the sidebar key stored in the environment.  When
    that raises, [main()] ends there with the same exception and the
    question is never embedded, searched or answered.  When it returns and
    a question is asked, the completion call is made with the sidebar key,
    and the page shows the stripped reply with the context used, then the
    footer. *)
Theorem main_answers_from_the_processed_document openai_api_key question w res w1 :
  app.process_pdf app.PDF_PATH (with_key openai_api_key (titled w)) = (res, w1) ->
  (forall e, res = Raise e ->
     app.main true true true openai_api_key question w = (Raise e, w1))
  /\ (forall chunks index context c,
        res = Ok (chunks, index) ->
        question <> [] -> openai_api_key <> [] ->
        retrieved chunks index question = Ok context ->
        create (Some openai_api_key) (completion_request (prompt_bn context question))
          = Ok (Some c) ->
        py.strip c <> [] ->
        exists w',
          app.main true true true openai_api_key question w = (Ok tt, w')
          /\ ui w' = ui w1
                     ++ [st_subheader (py.of_string "Ask questions about the document")]
                     ++ answer_shown (py.strip c) context
                     ++ footer
          /\ calls w' = calls w1
                        ++ [ call_encode [question]; call_search 3;
                             call_create (completion_request (prompt_bn context question)) ]
          /\ files w' = files w1).
Proof.
  intros Hrun.
  assert (Hmain : forall k : entry -> M unit,
            app.main true true true openai_api_key question w
            = (app.process_pdf app.PDF_PATH ≫= fun ci =>
                 st (st_subheader (py.of_string "Ask questions about the document"));;
                 question_path prompt_bn ci.1 ci.2 question openai_api_key;;
                 st (st_markdown rule);;
                 st (st_caption (py.of_string "Note: First run will take time for OCR processing. Subsequent runs will use cached embeddings.")))
                (with_key openai_api_key (titled w))) by reflexivity.
  specialize (Hmain (fun _ => mret tt)). split.
  - intros e ->. rewrite Hmain. unfold mbind at 1, M_bind at 1. now rewrite Hrun.
  - intros chunks index context c -> Hq Hk Hctx Hcreate Hstrip.
    rewrite Hmain. clear Hmain. rewrite (bind_run _ _ _ _ _ Hrun). cbn [fst snd].
    set (w2 := (st (st_subheader (py.of_string "Ask questions about the document")) w1).2).
    rewrite (bind_run _ _ w1 tt w2) by reflexivity.
    assert (Hkey : OPENAI_API_KEY w2 = Some openai_api_key).
    { pose proof (app_process_pdf_keeps_key app.PDF_PATH (with_key openai_api_key (titled w)))
        as Hkeep.
      rewrite Hrun in Hkeep. cbn [snd] in Hkeep. cbn [w2 st snd OPENAI_API_KEY]. rewrite Hkeep.
      cbn [with_key OPENAI_API_KEY]. destruct openai_api_key; [congruence|reflexivity]. }
    destruct (question_path_replied prompt_bn chunks index question openai_api_key
                context c w2 Hq Hk Hctx) as (w3 & Hpath & Hcalls & Hfiles & Hui).
    { now rewrite Hkey. }
    rewrite (bind_run _ _ _ _ _ Hpath). run_monad. cbn beta iota.
    eexists. split; [reflexivity|]. cbn [ui calls files]. rewrite Hui, Hcalls, Hfiles.
    destruct (py.strip c) as [|a0 a]; [congruence|]. cbn [langchain.nonempty w2 st snd ui calls files].
    unfold footer. rewrite <- !app_assoc. repeat split; reflexivity.
Qed.

End main_runs.

Lemma main_stops_before_processing_witness :
  let S := mock (mock_pdf two_pages) (Ok None) in
  exists w',
    @app.main S true false true (py.of_string "sk-test") (py.of_string "question?") empty_world
    = (Raise StopException, w')
    /\ calls w' = [] /\ files w' = files empty_world.
Proof.
  intros S.
  destruct (@main_stops_before_processing S true false true (py.of_string "sk-test")
              (py.of_string "question?") empty_world eq_refl)
    as (w' & Hrun & _ & Hcalls & Hfiles).
  exists w'. split; [exact Hrun|]. split; [exact Hcalls|exact Hfiles].
Defined.

(** The end-to-end scenario: two pages, one chunk, the mocked reply shown
    as the answer. *)
Lemma main_answers_from_the_processed_document_witness :
  let reply := [2470; 2509; 2476; 2495; 2468; 2496; 2479; 2492; 32; 2474; 2499; 2487; 2509;
                2464; 2494; 2404]%N in
  let S := mock (mock_pdf two_pages) (Ok (Some reply)) in
  exists w',
    @app.main S true true true (py.of_string "sk-test") (py.of_string "question?") empty_world
    = (Ok tt, w')
    /\ In (st_success reply) (ui w')
    /\ length (calls w') = 8%nat.
Proof.
  intros reply S.
  destruct (@app.process_pdf S app.PDF_PATH
              (with_key (py.of_string "sk-test") (titled empty_world)))
    as [[[chunks index]|e] w1] eqn:Hrun; [|vm_compute in Hrun; discriminate].
  destruct (@main_answers_from_the_processed_document S (py.of_string "sk-test")
              (py.of_string "question?") empty_world _ w1 Hrun) as [_ Hok].
  vm_compute in Hrun. injection Hrun as <- <- <-.
  edestruct Hok as (w' & Hmain & Hui & Hcalls & _).
  - reflexivity.
  - discriminate.
  - discriminate.
  - lazy. reflexivity.
  - reflexivity.
  - vm_compute. discriminate.
  - exists w'. split; [exact Hmain|]. split.
    + rewrite Hui. rewrite !in_app_iff. right. right. left. unfold answer_shown.
      simpl. right. right. left. reflexivity.
    + rewrite Hcalls. reflexivity.
Defined.

(** ** Retrieval from a document of three chunks or more *)

Section three_nearest.
Import faiss.
Context `{Services}.

Lemma well_formed_row chunks index i v :
  well_formed (chunks, index) -> xb index !! i = Some v ->
  exists c, chunks !! i = Some c /\ v = embed c.
Proof.
  intros [_ Hidx] Hv. simpl in Hidx. rewrite Hidx in Hv. cbn [xb build_index] in Hv.
  change (map embed chunks) with (embed <$> chunks) in Hv.
  apply list_lookup_fmap_Some in Hv as (c & -> & Hc). eauto.
Qed.

(** X11. For a pair returned by [process_pdf] with at least three chunks,
    the context of a question is three different chunks joined by blank
    lines, in non-decreasing order of the squared distance between their
    embeddings and the question's, and no chunk left out is nearer than
    the third. *)
Theorem context_is_three_nearest_chunks config ex pdf_path w chunks index w1 question :
  extractor config ex ->
  fixed_width ->
  cache_well_formed (files w) ->
  process_pdf_with ex pdf_path w = (Ok (chunks, index), w1) ->
  (3 <= length chunks)%nat ->
  exists i1 i2 i3 c1 c2 c3,
    NoDup [i1; i2; i3]
    /\ chunks !! i1 = Some c1 /\ chunks !! i2 = Some c2 /\ chunks !! i3 = Some c3
    /\ retrieve chunks index question w1
       = (Ok (py.join [10; 10]%N [c1; c2; c3]), asked w1 question)
    /\ L2sqr (embed question) (embed c1) <= L2sqr (embed question) (embed c2)
    /\ L2sqr (embed question) (embed c2) <= L2sqr (embed question) (embed c3)
    /\ (forall j c, chunks !! j = Some c -> j ∉ [i1; i2; i3] ->
          L2sqr (embed question) (embed c3) <= L2sqr (embed question) (embed c)).
Proof.
  intros Hex Hw Hcache Hrun Hthree.
  destruct (process_pdf_well_formed _ _ _ _ _ _ Hex Hcache Hrun) as [Hwf _].
  pose proof (well_formed_length _ _ Hwf) as Hlen.
  pose proof (well_formed_width _ _ question Hw Hwf) as Hd.
  set (q := embed question) in *.
  assert (Hk : (3 <= length (xb index))%nat) by lia.
  destruct (top_spec index q 3 Hk) as (Hlen3 & Hdup & Hsorted & Helem & Hnear).
  set (top := take 3 (ranked index q)) in *.
  destruct top as [|x1 [|x2 [|x3 [|? ?]]]] eqn:Htop; try discriminate. clear Hlen3.
  destruct (Helem x1) as (i1 & v1 & Hv1 & ->); [set_solver|].
  destruct (Helem x2) as (i2 & v2 & Hv2 & ->); [set_solver|].
  destruct (Helem x3) as (i3 & v3 & Hv3 & ->); [set_solver|].
  destruct (well_formed_row _ _ _ _ Hwf Hv1) as (c1 & Hc1 & ->).
  destruct (well_formed_row _ _ _ _ Hwf Hv2) as (c2 & Hc2 & ->).
  destruct (well_formed_row _ _ _ _ Hwf Hv3) as (c3 & Hc3 & ->).
  exists i1, i2, i3, c1, c2, c3.
  split.
  { apply (NoDup_fmap_1 Z.of_nat). exact Hdup. }
  split; [exact Hc1|]. split; [exact Hc2|]. split; [exact Hc3|].
  split.
  { rewrite retrieve_run. f_equal. unfold retrieved. cbn [map]. fold q.
    rewrite (search_one _ _ _ (well_formed_nonempty _ _ Hwf)). change (Z.to_nat 3) with 3%nat.
    rewrite (knn_enough _ _ 3 Hk). fold top. rewrite Htop.
    cbn [map fst snd]. rewrite index_or_raise_0. cbn [mapM].
    unfold index_or_raise.
    rewrite !getitem_nat by (eapply lookup_lt_Some; eassumption).
    now rewrite Hc1, Hc2, Hc3. }
  split.
  { assert (H12 : (0 < 1)%nat) by lia.
    exact (StronglySorted_lookup_le _ _ Hsorted 0%nat 1%nat _ _ H12 eq_refl eq_refl). }
  split.
  { assert (H23 : (1 < 2)%nat) by lia.
    exact (StronglySorted_lookup_le _ _ Hsorted 1%nat 2%nat _ _ H23 eq_refl eq_refl). }
  intros j c Hc Hj.
  pose proof (well_formed_lookup _ _ _ _ Hwf Hc) as Hv.
  apply (Hnear j (embed c) Hv) with (x := (L2sqr q (embed c3), Z.of_nat i3)); [|set_solver].
  intros Hin. apply Hj.
  assert (Hin' : Z.of_nat j ∈ Z.of_nat <$> [i1; i2; i3]) by exact Hin.
  now apply (list_elem_of_fmap_inj Z.of_nat) in Hin'.
Qed.

End three_nearest.

Lemma context_is_three_nearest_chunks_witness :
  let S := mock (mock_pdf [Ok (repeat 97%N 700 ++ repeat 98%N 700)]) (Ok None) in
  exists chunks index w1 c1 c2 c3,
    @app.process_pdf S app.PDF_PATH empty_world = (Ok (chunks, index), w1)
    /\ length chunks = 4%nat
    /\ @retrieve S chunks index (repeat 98%N 300) w1
       = (Ok (py.join [10; 10]%N [c1; c2; c3]), asked w1 (repeat 98%N 300))
    /\ c1 ∈ chunks /\ c2 ∈ chunks /\ c3 ∈ chunks.
Proof.
  intros S.
  destruct (@app.process_pdf S app.PDF_PATH empty_world) as [[[chunks index]|e] w1] eqn:Hrun;
    [|vm_compute in Hrun; discriminate].
  assert (Hfour : length chunks = 4%nat) by (vm_compute in Hrun; now injection Hrun as <- _ _).
  destruct (@context_is_three_nearest_chunks S _ _ app.PDF_PATH empty_world chunks index w1
              (repeat 98%N 300)
              (@extractor_app S) (mock_fixed_width _ _) (@empty_cache_well_formed S) Hrun)
    as (i1 & i2 & i3 & c1 & c2 & c3 & _ & Hc1 & Hc2 & Hc3 & Hret & _).
  - rewrite Hfour. lia.
  - exists chunks, index, w1, c1, c2, c3. split; [reflexivity|]. split; [exact Hfour|].
    split; [exact Hret|]. repeat split; apply list_elem_of_lookup; eauto.
Defined.

(** ** The chunker: splitting loses nothing *)

Section split_round_trip.
Import py langchain.

Lemma split_from_not_nil sep s : forall skip cur, split_from sep s skip cur <> [].
Proof.
  induction s as [|c r IH]; intros skip cur; cbn [split_from]; [discriminate|].
  destruct skip; [|apply IH]. destruct (startswith (c :: r) sep); [discriminate|apply IH].
Qed.

Lemma join_cons sep p l : l <> [] -> join sep (p :: l) = p ++ sep ++ join sep l.
Proof. destruct l; [congruence|reflexivity]. Qed.

Lemma startswith_app s : forall p, startswith s p = true -> s = p ++ drop (length p) s.
Proof.
  induction s as [|c s IH]; intros [|x p] Hp; try reflexivity; [discriminate|].
  cbn [startswith] in Hp. apply andb_true_iff in Hp as [Hx Hp].
  apply N.eqb_eq in Hx. subst x. cbn [length drop app]. f_equal. now apply IH.
Qed.

(** Joining the fields of [split] with the separator gives the text back. *)
Lemma split_from_join sep s : forall skip cur,
  sep <> [] ->
  (skip <= length s)%nat ->
  join sep (split_from sep s skip cur) = rev cur ++ drop skip s.
Proof.
  induction s as [|c r IH]; intros skip cur Hsep Hskip.
  - cbn [split_from join]. now rewrite drop_nil, app_nil_r.
  - cbn [split_from]. destruct skip as [|k].
    + destruct (startswith (c :: r) sep) eqn:Hstart.
      * rewrite join_cons by apply split_from_not_nil.
        pose proof (startswith_app _ _ Hstart) as Heq.
        destruct sep as [|x sep]; [congruence|].
        cbn [length] in *. cbn [app drop] in Heq. injection Heq as <- Heq.
        rewrite IH.
        { cbn [rev app]. replace (S (length sep) - 1)%nat with (length sep) by lia.
          cbn [drop]. now rewrite <- Heq. }
        { discriminate. }
        apply (f_equal (@length N)) in Heq. rewrite length_app, length_drop in Heq. lia.
      * rewrite IH by (try exact Hsep; lia). cbn [rev drop]. now rewrite <- app_assoc.
    + rewrite IH by (try exact Hsep; simpl in Hskip; lia). reflexivity.
Qed.

Lemma split_join s sep : sep <> [] -> join sep (split s sep) = s.
Proof. intros Hsep. unfold split. rewrite split_from_join by (try exact Hsep; lia). reflexivity. Qed.

Lemma capture_length_odd (sep : str) (rest : list str) :
  (Z.of_nat (S (length (flat_map (fun t => [sep; t]) rest))) mod 2 =? 0) = false.
Proof.
  assert (Hlen : length (flat_map (fun t : list N => [sep; t]) rest) = (2 * length rest)%nat).
  { induction rest as [|t rest IH]; [reflexivity|]. simpl in *. lia. }
  rewrite Hlen. apply Z.eqb_neq.
  replace (Z.of_nat (S (2 * length rest))) with (1 + Z.of_nat (length rest) * 2) by lia.
  rewrite Z.mod_add by lia. discriminate.
Qed.

Lemma capture_concat (sep : str) (rest : list str) : forall t0,
  concat (t0 :: flat_map (fun t => [sep; t]) rest) = join sep (t0 :: rest).
Proof.
  induction rest as [|t rest IH]; intros t0.
  - simpl. now rewrite app_nil_r.
  - rewrite join_cons by discriminate. rewrite <- IH. reflexivity.
Qed.

Lemma pair_up_capture (sep : str) (rest : list str) :
  pair_up (flat_map (fun t => [sep; t]) rest) = map (fun t => sep ++ t) rest.
Proof. induction rest as [|t rest IH]; [reflexivity|]. simpl. now rewrite IH. Qed.

Lemma concat_map_app (sep : str) (rest : list str) :
  concat (map (fun t => sep ++ t) rest) = concat (flat_map (fun t => [sep; t]) rest).
Proof.
  induction rest as [|t rest IH]; [reflexivity|]. simpl. now rewrite IH, <- app_assoc.
Qed.

Lemma concat_filter_nonempty (l : list str) : concat (List.filter nonempty l) = concat l.
Proof.
  induction l as [|p l IH]; [reflexivity|]. simpl. destruct p; simpl; now rewrite IH.
Qed.

(** The pieces of [_split_text_with_regex], separators kept, concatenate
    to the text. *)
Lemma split_pieces_concat text separator :
  concat (_split_text_with_regex text separator true) = text.
Proof.
  unfold _split_text_with_regex. rewrite concat_filter_nonempty.
  destruct (nonempty separator) eqn:Hne.
  - assert (Hsep : separator <> []) by (intros ->; discriminate).
    unfold re_split_capture.
    pose proof (split_join text separator Hsep) as Hjoin.
    destruct (split text separator) as [|t0 rest] eqn:Hsplit.
    { exfalso. revert Hsplit. apply split_from_not_nil. }
    cbn [tail length]. rewrite capture_length_odd.
    rewrite pair_up_capture. change (take 1 (t0 :: ?l)) with [t0].
    rewrite <- Hjoin, <- capture_concat. cbn [app concat]. now rewrite concat_map_app.
  - apply concat_single.
Qed.

End split_round_trip.

(** ** The chunker: what every chunk is made of *)

Section chunks_from_pieces.
Import py langchain.

Variable T : RecursiveCharacterTextSplitter.
Variables W P : str -> Prop.
Hypothesis keeps : keep_separator T = true.
Hypothesis size_two : 1 < chunk_size T.
Hypothesis W_pieces : forall text separator,
  W text -> Forall W (_split_text_with_regex text separator true).
Hypothesis P_join : forall parts doc,
  Forall W parts -> _join_docs T parts [] = Some doc -> P doc.

Lemma pop_front_Forall sl _len cur : forall tot,
  Forall W cur -> Forall W (pop_front T sl _len cur tot).1.
Proof.
  induction cur as [|d0 rest IH]; intros tot Hcur; cbn [pop_front]; [constructor|].
  destruct (_ || _); [|exact Hcur]. apply IH. now apply Forall_cons in Hcur as [_ Hcur].
Qed.

Lemma merge_step_pieces st d :
  Forall W (current_doc st) -> Forall P (docs st) -> W d ->
  Forall W (current_doc (merge_step T [] st d)) /\ Forall P (docs (merge_step T [] st d)).
Proof.
  intros Hcur Hdocs Hd. unfold merge_step.
  destruct (_ >? chunk_size T); [|cbn [docs current_doc]; split;
    [apply Forall_app; split; [exact Hcur|constructor; [exact Hd|constructor]]|exact Hdocs]].
  destruct (0 <? len (current_doc st)); [|cbn [docs current_doc]; split;
    [apply Forall_app; split; [exact Hcur|constructor; [exact Hd|constructor]]|exact Hdocs]].
  pose proof (pop_front_Forall (len (@nil N)) (len d) (current_doc st) (total st) Hcur) as Hpop.
  destruct (pop_front T (len []) (len d) (current_doc st) (total st)) as [cur tot].
  cbn [docs current_doc fst] in *. split.
  - apply Forall_app. split; [exact Hpop|constructor; [exact Hd|constructor]].
  - destruct (_join_docs T (current_doc st) []) as [doc|] eqn:Hdoc; cbn [push_doc];
      [|exact Hdocs].
    apply Forall_app. split; [exact Hdocs|]. constructor; [|constructor].
    now apply (P_join (current_doc st)).
Qed.

Lemma merge_fold_pieces splits : forall st,
  Forall W (current_doc st) -> Forall P (docs st) -> Forall W splits ->
  Forall W (current_doc (fold_left (merge_step T []) splits st))
  /\ Forall P (docs (fold_left (merge_step T []) splits st)).
Proof.
  induction splits as [|d splits IH]; intros st Hcur Hdocs Hsplits; [now split|].
  apply Forall_cons in Hsplits as [Hd Hsplits]. cbn [fold_left].
  destruct (merge_step_pieces st d Hcur Hdocs Hd) as [Hcur' Hdocs']. now apply IH.
Qed.

Lemma merge_splits_pieces splits :
  Forall W splits -> Forall P (_merge_splits T splits []).
Proof.
  intros Hsplits. unfold _merge_splits.
  destruct (merge_fold_pieces splits {| docs := []; current_doc := []; total := 0 |})
    as [Hcur Hdocs]; [constructor|constructor|exact Hsplits|].
  destruct (_join_docs T _ []) as [doc|] eqn:Hdoc; cbn [push_doc]; [|exact Hdocs].
  apply Forall_app. split; [exact Hdocs|]. constructor; [|constructor].
  eapply P_join; [exact Hcur|exact Hdoc].
Qed.

Lemma split_fold_pieces recurse splits : forall final good,
  Forall P final -> Forall W good -> Forall W splits ->
  Forall (fun s => len s < chunk_size T \/
                   match recurse with
                   | Some f => Forall P (f s)
                   | None => False
                   end) splits ->
  let r := fold_left (split_step T [] recurse) splits (final, good) in
  Forall P r.1 /\ Forall W r.2.
Proof.
  induction splits as [|s splits IH]; intros final good Hfinal Hgood HW Hsplits; [now split|].
  apply Forall_cons in Hsplits as [Hs Hsplits]. apply Forall_cons in HW as [Hws HW].
  cbn [fold_left].
  assert (Hstep : Forall P (split_step T [] recurse (final, good) s).1
                  /\ Forall W (split_step T [] recurse (final, good) s).2).
  { unfold split_step. destruct (len s <? chunk_size T) eqn:Hlt.
    - split; [exact Hfinal|]. apply Forall_app. split; [exact Hgood|].
      constructor; [exact Hws|constructor].
    - destruct Hs as [Hs|Hs]; [apply Z.ltb_ge in Hlt; lia|].
      assert (Hfinal' : Forall P match good with
                                 | [] => final
                                 | _ :: _ => final ++ _merge_splits T good []
                                 end).
      { destruct good; [exact Hfinal|]. apply Forall_app. split; [exact Hfinal|].
        now apply merge_splits_pieces. }
      destruct recurse as [f|]; [|contradiction].
      split; [|constructor]. apply Forall_app. now split. }
  destruct (split_step T [] recurse (final, good) s) as [final' good'].
  destruct Hstep as [Hf Hg]. now apply IH.
Qed.

Lemma split_with_pieces separator recurse text :
  W text ->
  Forall (fun s => len s < chunk_size T \/
                   match recurse with
                   | Some f => Forall P (f s)
                   | None => False
                   end) (_split_text_with_regex text separator true) ->
  Forall P (split_with T separator recurse text).
Proof.
  intros Htext Hsplits. unfold split_with. rewrite keeps.
  pose proof (split_fold_pieces recurse _ [] [] (Forall_nil_2 _) (Forall_nil_2 _)
                (W_pieces text separator Htext) Hsplits) as Hfold.
  destruct (fold_left _ _ _) as [final good]. simpl in Hfold. destruct Hfold as [Hfinal Hgood].
  destruct good; [exact Hfinal|]. apply Forall_app. split; [exact Hfinal|].
  now apply merge_splits_pieces.
Qed.

Lemma split_text_rec_pieces seps : forall text,
  In [] seps -> W text -> Forall P (_split_text T seps text).
Proof.
  induction seps as [|_s rest IH]; intros text Hin Htext; [constructor|].
  cbn [_split_text]. destruct _s as [|c _s]; cbn [nonempty negb].
  - apply split_with_pieces; [exact Htext|]. unfold _split_text_with_regex. cbn [nonempty].
    apply Forall_forall. intros s Hs. left.
    apply list_elem_of_In, filter_In in Hs as [Hs _].
    apply in_map_iff in Hs as (x & <- & _). unfold len. simpl. lia.
  - destruct Hin as [Hin|Hin]; [discriminate|].
    destruct rest as [|s' rest']; [destruct Hin|].
    destruct (contains (c :: _s) text).
    + apply split_with_pieces; [exact Htext|].
      pose proof (W_pieces text (c :: _s) Htext) as Hpieces.
      rewrite Forall_forall in Hpieces. apply Forall_forall. intros s Hs. right.
      apply IH; [exact Hin|auto].
    + now apply IH.
Qed.

End chunks_from_pieces.

Section chunk_shape.
Import py langchain.

Lemma lstrip_blank s : blank s -> lstrip s = [].
Proof.
  induction 1 as [|c s Hc _ IH]; [reflexivity|]. cbn [lstrip]. now rewrite Hc.
Qed.

Lemma strip_blank s : blank s -> strip s = [].
Proof. intros Hs. unfold strip, rstrip. now rewrite (lstrip_blank s Hs). Qed.

Lemma blank_concat parts : Forall blank parts -> blank (concat parts).
Proof.
  induction 1 as [|p parts Hp _ IH]; [constructor|]. simpl. apply Forall_app. now split.
Qed.

Lemma blank_pieces text separator :
  blank text -> Forall blank (_split_text_with_regex text separator true).
Proof.
  intros Htext. pose proof (split_pieces_concat text separator) as Hconcat.
  rewrite <- Hconcat in Htext. clear Hconcat.
  induction (_split_text_with_regex text separator true) as [|p l IH]; [constructor|].
  simpl in Htext. apply Forall_app in Htext as [Hp Hl]. constructor; [exact Hp|now apply IH].
Qed.

Lemma lstrip_head s c r : lstrip s = c :: r -> isspace c = false.
Proof.
  induction s as [|x s IH]; [discriminate|]. cbn [lstrip].
  destruct (isspace x) eqn:Hx; [exact IH|]. intros Heq. injection Heq as <- _. exact Hx.
Qed.

Lemma lstrip_suffix s : exists pre, s = pre ++ lstrip s.
Proof.
  induction s as [|x s [pre IH]]; [now exists []|]. cbn [lstrip].
  destruct (isspace x); [|now exists []]. exists (x :: pre). simpl. now f_equal.
Qed.

Lemma strip_trimmed s : strip s <> [] -> trimmed (strip s).
Proof.
  unfold strip, rstrip. set (x := lstrip s). set (y := lstrip (rev x)). intros Hne.
  assert (Hy : y <> []) by (intros Hy; apply Hne; now rewrite Hy).
  destruct (lstrip_suffix (rev x)) as [pre Hpre]. fold y in Hpre.
  split.
  - destruct (rev y) as [|c r] eqn:Hrev; [congruence|]. exists c, r. split; [reflexivity|].
    assert (Hlast : last y = Some c).
    { rewrite <- (rev_involutive y), Hrev. cbn [rev]. apply last_snoc. }
    assert (Hlastx : last (rev x) = Some c).
    { rewrite Hpre. destruct y as [|y0 y']; [congruence|].
      rewrite last_app. now rewrite Hlast. }
    destruct x as [|x0 x'] eqn:Hx; [discriminate|].
    cbn [rev] in Hlastx. rewrite last_snoc in Hlastx. injection Hlastx as <-.
    apply (lstrip_head s x0 x'). exact Hx.
  - intros c Hc. destruct y as [|y0 y'] eqn:Hyeq; [congruence|].
    cbn [rev] in Hc. rewrite last_snoc in Hc. injection Hc as <-.
    apply (lstrip_head (rev x) y0 y'). exact Hyeq.
Qed.

(** X12. Every chunk the splitter of [process_pdf] returns is non-empty
    and neither starts nor ends with whitespace. *)
Theorem chunks_are_trimmed text :
  Forall trimmed (split_text text_splitter text).
Proof.
  apply (split_text_rec_pieces text_splitter (fun _ => True) trimmed);
    try reflexivity; try exact I.
  - intros t sep _. apply Forall_forall. auto.
  - intros parts doc _ Hdoc. unfold _join_docs in Hdoc.
    cbn [strip_whitespace text_splitter] in Hdoc.
    destruct (nonempty (strip (join [] parts))) eqn:Hne; [|discriminate].
    injection Hdoc as <-. apply strip_trimmed. intros Heq. rewrite Heq in Hne. discriminate.
  - simpl. tauto.
Qed.

Lemma blank_text_no_chunks text :
  blank text -> split_text text_splitter text = [].
Proof.
  intros Hblank.
  assert (Hnone : Forall (fun _ => False) (split_text text_splitter text)).
  { apply (split_text_rec_pieces text_splitter blank (fun _ => False)); try reflexivity.
    - intros t sep. apply blank_pieces.
    - intros parts doc Hparts Hdoc. unfold _join_docs in Hdoc.
      cbn [strip_whitespace text_splitter] in Hdoc. rewrite join_nil in Hdoc.
      rewrite (strip_blank _ (blank_concat _ Hparts)) in Hdoc. discriminate.
    - simpl. tauto.
    - exact Hblank. }
  destruct (split_text text_splitter text); [reflexivity|].
  apply Forall_cons in Hnone as [[] _].
Qed.

End chunk_shape.

(** ** The chunker on a text below the chunk size *)

Section short_text.
Import py langchain.

Variable T : RecursiveCharacterTextSplitter.
Hypothesis keeps : keep_separator T = true.

Lemma len_concat_app (pre : list str) d rest :
  len (concat (pre ++ d :: rest)) = len (concat (pre ++ [d])) + len (concat rest).
Proof.
  unfold len. change (d :: rest) with ([d] ++ rest).
  rewrite app_assoc, (concat_app (pre ++ [d])), length_app. lia.
Qed.

Lemma merge_fold_no_cut rest : forall pre,
  len (concat (pre ++ rest)) <= chunk_size T ->
  fold_left (merge_step T []) rest
    {| docs := []; current_doc := pre; total := len (concat pre) |}
  = {| docs := []; current_doc := pre ++ rest; total := len (concat (pre ++ rest)) |}.
Proof.
  induction rest as [|d rest IH]; intros pre Hfit; [now rewrite app_nil_r|].
  cbn [fold_left]. unfold merge_step. cbn [docs current_doc total].
  change (len (@nil N)) with 0. rewrite !sep_if_zero.
  assert (Hd : len (concat pre) + len d = len (concat (pre ++ [d]))).
  { unfold len. rewrite concat_app, length_app. simpl. rewrite app_nil_r. lia. }
  pose proof (len_concat_app pre d rest) as Hsplit.
  assert (0 <= len (concat rest)) by (unfold len; lia).
  replace (len (concat pre) + len d + 0 >? chunk_size T) with false
    by (symmetry; rewrite Z.gtb_ltb; apply Z.ltb_ge; lia).
  cbn [docs current_doc total]. rewrite Z.add_0_r, Hd.
  change (d :: rest) with ([d] ++ rest) in *. rewrite app_assoc in *.
  now apply IH.
Qed.

Lemma merge_splits_no_cut splits :
  len (concat splits) <= chunk_size T ->
  _merge_splits T splits [] = push_doc [] (_join_docs T splits []).
Proof.
  intros Hfit. unfold _merge_splits.
  change {| docs := []; current_doc := []; total := 0 |}
    with {| docs := []; current_doc := []; total := len (concat (@nil str)) |}.
  rewrite (merge_fold_no_cut splits []) by exact Hfit. reflexivity.
Qed.

Lemma split_fold_small separator recurse splits : forall final good,
  Forall (fun s => len s < chunk_size T) splits ->
  fold_left (split_step T separator recurse) splits (final, good) = (final, good ++ splits).
Proof.
  induction splits as [|s splits IH]; intros final good Hsmall; [now rewrite app_nil_r|].
  apply Forall_cons in Hsmall as [Hs Hsmall]. cbn [fold_left]. unfold split_step at 2.
  apply Z.ltb_lt in Hs. rewrite Hs. rewrite IH by exact Hsmall.
  now rewrite <- app_assoc.
Qed.

Lemma len_piece_le (pieces : list str) p :
  In p pieces -> len p <= len (concat pieces).
Proof.
  induction pieces as [|q pieces IH]; [intros []|]. unfold len in *. simpl.
  rewrite length_app. intros [->|Hin]; [lia|]. specialize (IH Hin). lia.
Qed.

Lemma split_with_short separator recurse text :
  len text < chunk_size T ->
  split_with T separator recurse text = push_doc [] (_join_docs T [text] []).
Proof.
  intros Hshort. unfold split_with. rewrite keeps.
  pose proof (split_pieces_concat text separator) as Hconcat.
  rewrite split_fold_small.
  - cbn [app].
    destruct (_split_text_with_regex text separator true) as [|p pieces] eqn:Hpieces.
    + simpl in Hconcat. subst text. unfold _join_docs. cbn [join].
      now destruct (strip_whitespace T).
    + cbn [app]. rewrite merge_splits_no_cut by (rewrite Hconcat; lia).
      unfold _join_docs. rewrite join_nil, Hconcat. reflexivity.
  - apply Forall_forall. intros p Hp. apply list_elem_of_In, len_piece_le in Hp.
    rewrite Hconcat in Hp. lia.
Qed.

Lemma split_text_rec_short seps : forall text,
  seps <> [] -> len text < chunk_size T ->
  _split_text T seps text = push_doc [] (_join_docs T [text] []).
Proof.
  induction seps as [|_s rest IH]; intros text Hne Hshort; [congruence|].
  cbn [_split_text]. destruct (negb (nonempty _s)); [now apply split_with_short|].
  destruct (contains _s text); [now apply split_with_short|].
  destruct rest as [|s' rest']; [now apply split_with_short|].
  apply IH; [discriminate|exact Hshort].
Qed.

End short_text.

(** X13. A text of fewer than 500 characters is never cut: the splitter
    returns it as one chunk with the whitespace at its two ends removed,
    and returns no chunk when nothing is left of it. *)
Theorem short_text_is_one_chunk text :
  py.len text < 500 ->
  langchain.split_text text_splitter text
  = if langchain.nonempty (py.strip text) then [py.strip text] else [].
Proof.
  intros Hshort. unfold langchain.split_text.
  rewrite (split_text_rec_short text_splitter eq_refl) by (try discriminate; exact Hshort).
  unfold langchain._join_docs. cbn [langchain.strip_whitespace text_splitter py.join].
  now destruct (langchain.nonempty (py.strip text)).
Qed.

Lemma short_text_is_one_chunk_witness :
  langchain.split_text text_splitter
    (py.of_string "  one line
and a second one
")
  = [py.of_string "one line
and a second one"].
Proof.
  rewrite short_text_is_one_chunk; [reflexivity|vm_compute; reflexivity].
Defined.

(** ** Documents that read as nothing *)

Section blank_documents.
Context `{Services}.

Lemma blank_pages_text texts : Forall blank texts -> blank (pages_text texts).
Proof.
  induction 1 as [|t texts Ht _ IH]; [constructor|].
  unfold pages_text. cbn [map concat]. apply Forall_app. split; [|exact IH].
  apply Forall_app. split; [exact Ht|]. repeat constructor.
Qed.

Lemma blank_pages_read config (images : list image) :
  Forall (fun img => exists t, reads config img t /\ blank t) images ->
  exists texts, Forall2 (reads config) images texts /\ Forall blank texts.
Proof.
  induction 1 as [|img images (t & Hread & Ht) _ (texts & Hreads & Hblank)].
  - exists []. split; constructor.
  - exists (t :: texts). split; constructor; assumption.
Qed.

Lemma extraction_text config ex pdf_path images texts w :
  extractor config ex ->
  convert_from_path pdf_path = Ok images ->
  Forall2 (reads config) images texts ->
  exists w', ex pdf_path w = (Ok (pages_text texts), w').
Proof.
  intros Hex Hconv Hread. destruct Hex as [|config].
  - unfold app.extract_text_from_pdf. run_monad. cbn beta iota. rewrite Hconv. cbn beta iota.
    edestruct (app_ocr_pages_ok images texts Hread) as (w' & -> & _).
    cbn beta iota. eexists. reflexivity.
  - unfold app_deploy.extract_text_from_pdf. run_monad. cbn beta iota. rewrite Hconv.
    cbn beta iota.
    edestruct (deploy_ocr_pages_ok config images texts Hread) as (w' & -> & _).
    cbn beta iota. eexists. reflexivity.
Qed.

(** X14. A PDF that has no page, or whose pages all read as whitespace,
    cannot be processed: on a cache miss [process_pdf] of either file
    raises [IndexError] after the embedder was called with no chunk, and
    the cache files are left as they were, so every later run does the
    OCR again and fails the same way. *)
Theorem blank_document_is_never_cached config ex pdf_path images w :
  extractor config ex ->
  files w !! cache_path_of pdf_path = None ->
  convert_from_path pdf_path = Ok images ->
  Forall (fun img => exists t, reads config img t /\ blank t) images ->
  exists w1,
    process_pdf_with ex pdf_path w
      = (Raise (Exc IndexError (py.of_string "index out of range")), w1)
    /\ last (calls w1) = Some (call_encode [])
    /\ files w1 = files w.
Proof.
  intros Hex Hmiss Hconv Hpages.
  destruct (blank_pages_read config images Hpages) as (texts & Hread & Hblank).
  destruct (extraction_text config ex pdf_path images texts w Hex Hconv Hread) as (w0 & Hrun).
  pose proof (extractor_keeps _ _ pdf_path Hex w) as Hfiles. rewrite Hrun in Hfiles.
  rewrite (process_pdf_miss _ _ _ Hmiss), Hrun.
  pose proof (blank_text_no_chunks _ (blank_pages_text texts Hblank)) as Hnone.
  rewrite Hnone. eexists. split; [reflexivity|]. split; [|exact Hfiles].
  cbn [embedded calls]. rewrite Hnone. apply last_snoc.
Qed.

End blank_documents.

Lemma blank_document_is_never_cached_witness :
  let S := mock (mock_pdf [Ok [32; 10]%N; Ok []]) (Ok None) in
  exists w1,
    @app_deploy.process_pdf S "--oem 3 --psm 6 -l eng" app.PDF_PATH empty_world
      = (Raise (Exc IndexError (py.of_string "index out of range")), w1)
    /\ last (calls w1) = Some (call_encode [])
    /\ files w1 = files empty_world.
Proof.
  intros S.
  apply (@blank_document_is_never_cached S _ _ app.PDF_PATH [Ok [32; 10]%N; Ok []] empty_world
           (@extractor_deploy S "--oem 3 --psm 6 -l eng")).
  - reflexivity.
  - reflexivity.
  - repeat constructor.
    + exists [32; 10]%N. split; [reflexivity|repeat constructor].
    + exists []. split; [reflexivity|constructor].
Defined.

(** ** The page of src/app_deploy.py and its cache *)

Lemma question_path_services (S1 S2 : Services) build_prompt chunks index question key :
  @embed S1 = @embed S2 -> @create S1 = @create S2 ->
  @question_path S1 build_prompt chunks index question key
  = @question_path S2 build_prompt chunks index question key.
Proof.
  destruct S1, S2. cbn [embed create]. intros <- <-. reflexivity.
Qed.

Lemma reads_no_pdf_ret {A} (a : A) : reads_no_pdf (mret a).
Proof. intros w. exists []. split; [now rewrite app_nil_r|constructor]. Qed.

Lemma reads_no_pdf_raise {A} (e : exn) : reads_no_pdf (@raise A e).
Proof. intros w. exists []. split; [now rewrite app_nil_r|constructor]. Qed.

Lemma reads_no_pdf_lift {A} (r : result A) : reads_no_pdf (lift r).
Proof. intros w. exists []. split; [now rewrite app_nil_r|constructor]. Qed.

Lemma reads_no_pdf_st (c : st_call) : reads_no_pdf (st c).
Proof. intros w. exists []. split; [now rewrite app_nil_r|constructor]. Qed.

Lemma reads_no_pdf_getenv : reads_no_pdf getenv_OPENAI_API_KEY.
Proof. intros w. exists []. split; [now rewrite app_nil_r|constructor]. Qed.

Lemma reads_no_pdf_called (c : call) : extraction_call c = false -> reads_no_pdf (called c).
Proof. intros Hc w. exists [c]. split; [reflexivity|now constructor]. Qed.

Lemma reads_no_pdf_bind {A B} (m : M A) (f : A -> M B) :
  reads_no_pdf m -> (forall a, reads_no_pdf (f a)) -> reads_no_pdf (m ≫= f).
Proof.
  intros Hm Hf w. unfold mbind, M_bind. destruct (Hm w) as (new & Hcalls & Hnew).
  destruct (m w) as [[a|e] w']; simpl in *.
  - destruct (Hf a w') as (new' & Hcalls' & Hnew'). exists (new ++ new').
    rewrite Hcalls', Hcalls, app_assoc. split; [reflexivity|]. apply Forall_app. now split.
  - now exists new.
Qed.

Lemma reads_no_pdf_try_except_Exception {A} (body : M A) (handler : exn -> M A) :
  reads_no_pdf body -> (forall e, reads_no_pdf (handler e)) ->
  reads_no_pdf (try_except_Exception body handler).
Proof.
  intros Hm Hf w. unfold try_except_Exception. destruct (Hm w) as (new & Hcalls & Hnew).
  destruct (body w) as [[a|e] w']; simpl in *; [now exists new|].
  destruct (is_Exception e); [|now exists new].
  destruct (Hf e w') as (new' & Hcalls' & Hnew'). exists (new ++ new').
  rewrite Hcalls', Hcalls, app_assoc. split; [reflexivity|]. apply Forall_app. now split.
Qed.

Ltac reads_no_pdf :=
  repeat (first [ progress intros
                | apply reads_no_pdf_bind | apply reads_no_pdf_try_except_Exception
                | apply reads_no_pdf_st | apply reads_no_pdf_getenv
                | apply reads_no_pdf_called; reflexivity | apply reads_no_pdf_lift
                | apply reads_no_pdf_ret | apply reads_no_pdf_raise
                | match goal with
                  | |- reads_no_pdf (if ?b then _ else _) => destruct b
                  | |- reads_no_pdf (match ?x with _ => _ end) => destruct x
                  end ]).

Lemma reads_no_pdf_elem {A} (m : M A) w c :
  reads_no_pdf m -> c ∈ calls (m w).2 -> c ∈ calls w \/ extraction_call c = false.
Proof.
  intros Hm Hc. destruct (Hm w) as (new & Hcalls & Hnew). rewrite Hcalls in Hc.
  apply elem_of_app in Hc as [Hc|Hc]; [now left|right].
  rewrite Forall_forall in Hnew. auto.
Qed.

Lemma question_path_calls `{Services} build_prompt chunks index question key :
  reads_no_pdf (question_path build_prompt chunks index question key).
Proof. unfold question_path, retrieve, query_openai. reads_no_pdf. Qed.

(** X15. Once an entry is cached under the fixed name of the PDF, the page
    of src/app_deploy.py no longer depends on the document: with the same
    embedder and completion service, it runs the same whatever the PDF
    (a newly uploaded one included) converts to and whatever OCR reads,
    and it makes no conversion, OCR or chunking call. *)
Theorem uploaded_pdf_is_answered_from_the_cache (S1 S2 : Services) TESSERACT_CONFIG
    uploaded_file pdf_exists openai_api_key question w e :
  @embed S1 = @embed S2 -> @create S1 = @create S2 ->
  files w !! cache_path_of app.PDF_PATH = Some (pickled e) ->
  @app_deploy_page S1 TESSERACT_CONFIG uploaded_file pdf_exists openai_api_key question w
  = @app_deploy_page S2 TESSERACT_CONFIG uploaded_file pdf_exists openai_api_key question w
  /\ forall c,
       c ∈ calls (@app_deploy_page S1 TESSERACT_CONFIG uploaded_file pdf_exists
                    openai_api_key question w).2 ->
       c ∈ calls w \/ extraction_call c = false.
Proof.
  intros Hembed Hcreate Hhit.
  set (w1 := with_key openai_api_key (titled w)).
  assert (Hhit1 : files w1 !! cache_path_of app.PDF_PATH = Some (pickled e)) by exact Hhit.
  assert (Hrun : forall S : Services,
    @app_deploy_page S TESSERACT_CONFIG uploaded_file pdf_exists openai_api_key question w
    = if negb (uploaded_file || pdf_exists)
      then (st (st_warning (py.of_string "No PDF document found!"));;
            st (st_info (py.of_string "Please upload a PDF document using the sidebar."));;
            st_stop) w1
      else (st (st_subheader (py.of_string "Ask questions about the document"));;
            @question_path S (app_deploy.build_prompt TESSERACT_CONFIG) e.1 e.2 question
              openai_api_key;;
            st (st_markdown rule);;
            st (st_caption (py.of_string "Note: First run will take time for OCR processing. Subsequent runs will use cached embeddings."))) w1).
  { intros S. unfold app_deploy_page.
    change ((st (st_title ([128196]%N ++ py.of_string " Bangla PDF Question Answering System"));;
             (fun w => (Ok tt, with_key openai_api_key w));; ?k) w) with (k w1).
    cbn zeta. destruct (negb (uploaded_file || pdf_exists)); [reflexivity|].
    unfold app_deploy.process_pdf, mbind at 1, M_bind at 1.
    now rewrite (process_pdf_hit _ _ _ _ Hhit1). }
  split.
  - rewrite !Hrun. destruct (negb (uploaded_file || pdf_exists)); [reflexivity|].
    now rewrite (question_path_services S1 S2 _ _ _ _ _ Hembed Hcreate).
  - intros c. rewrite Hrun. change (calls w) with (calls w1).
    destruct (negb (uploaded_file || pdf_exists)); apply reads_no_pdf_elem; unfold st_stop;
      repeat first [ progress intros | apply reads_no_pdf_bind
                   | apply (@question_path_calls S1) | apply reads_no_pdf_st
                   | apply reads_no_pdf_raise ].
Qed.

Lemma uploaded_pdf_is_answered_from_the_cache_witness :
  let S1 := mock (mock_pdf two_pages) (Ok (Some (py.of_string "answer"))) in
  let S2 := mock (fun _ => Raise (Exc OtherError (py.of_string "not a PDF")))
                 (Ok (Some (py.of_string "answer"))) in
  let key := py.of_string "sk" in
  let question := py.of_string "what?" in
  exists e w,
    @app_deploy.process_pdf S1 "--oem 3 --psm 6 -l ben" app.PDF_PATH empty_world = (Ok e, w)
    /\ @app_deploy_page S2 "--oem 3 --psm 6 -l ben" true true key question w
       = @app_deploy_page S1 "--oem 3 --psm 6 -l ben" true true key question w
    /\ length (calls (@app_deploy_page S2 "--oem 3 --psm 6 -l ben" true true key question w).2)
       = (length (calls w) + 3)%nat.
Proof.
  intros S1 S2 key question.
  destruct (@app_deploy.process_pdf S1 "--oem 3 --psm 6 -l ben" app.PDF_PATH empty_world)
    as [[e|ex] w] eqn:Hrun; [|vm_compute in Hrun; discriminate].
  exists e, w. split; [reflexivity|].
  assert (Hhit : files w !! cache_path_of app.PDF_PATH = Some (pickled e)).
  { vm_compute in Hrun. injection Hrun as <- <-. vm_compute. reflexivity. }
  destruct (uploaded_pdf_is_answered_from_the_cache S2 S1 "--oem 3 --psm 6 -l ben" true true
              key question w e eq_refl eq_refl Hhit) as [Hsame _].
  split; [exact Hsame|].
  vm_compute in Hrun. injection Hrun as <- <-. vm_compute. reflexivity.
Defined.

(** ** The installation checks *)

Ltac run_host :=
  unfold mbind, host.H_bind, mret, host.H_ret, host.try_except, host.get_os_name,
    host.get_tesseract_cmd, host.set_tesseract_cmd, host.os_path_exists, host.subprocess_run,
    host.urlretrieve, host.show, host.stop.

Section host_runs.
Import host.
Context `{Machine}.

Lemma first_existing_run paths : forall h,
  exists b h' evs,
    first_existing paths h = (Returns b, h')
    /\ os_name h' = os_name h /\ page h' = page h
    /\ events h' = events h ++ evs /\ Forall is_probe evs /\ (paths <> [] -> evs <> [])
    /\ if b then tesseract_cmd h' ∈ paths
                 /\ last (events h') = Some (probed (tesseract_cmd h') true)
       else tesseract_cmd h' = tesseract_cmd h.
Proof.
  induction paths as [|path rest IH]; intros h.
  - exists false, h, []. rewrite app_nil_r. repeat split; auto.
  - cbn [first_existing]. run_host. cbn beta iota zeta.
    destruct (os_path_exists_after (events h) path) eqn:Hfound.
    + eexists true, _, [probed path true]. split; [reflexivity|].
      cbn [os_name page events tesseract_cmd logged]. repeat split; auto.
      * repeat constructor.
      * apply list_elem_of_here.
      * apply last_snoc.
    + destruct (IH (logged (probed path false) h))
        as (b & h' & evs & -> & Hname & Hpage & Hevents & Hprobes & _ & Hb).
      exists b, h', (probed path false :: evs). split; [reflexivity|].
      cbn [logged os_name page events tesseract_cmd] in *. rewrite <- app_assoc in Hevents.
      repeat split; auto.
      * constructor; [exact I|exact Hprobes].
      * destruct b; [|exact Hb]. destruct Hb as [Hin Hlast]. split; [|exact Hlast].
        now apply list_elem_of_further.
Qed.

Lemma app_check_bengali_run h :
  let cmd := [if String.eqb (os_name h) "nt" then tesseract_cmd h else "tesseract"%string;
              "--list-langs"%string] in
  let answer := subprocess_run_after (events h) cmd in
  app_host.check_bengali_support h = (Returns (lists_ben answer), logged (ran cmd answer) h).
Proof.
  unfold app_host.check_bengali_support. run_host. cbn beta iota zeta.
  destruct (String.eqb (os_name h) "nt"); cbn beta iota zeta;
    match goal with
    | |- context [subprocess_run_after ?evs ?cmd] =>
        destruct (subprocess_run_after evs cmd) as [returncode stdout|e]
    end; cbn [lists_ben fst snd is_Exception]; try reflexivity;
    destruct (returncode =? 0); reflexivity.
Qed.

Lemma deploy_check_bengali_run h :
  let cmd := ["tesseract"; "--list-langs"]%string in
  let answer := subprocess_run_after (events h) cmd in
  app_deploy_host.check_bengali_support h
  = (Returns (lists_ben answer), logged (ran cmd answer) h).
Proof.
  unfold app_deploy_host.check_bengali_support. run_host. cbn beta iota zeta.
  destruct (subprocess_run_after (events h) ["tesseract"; "--list-langs"]%string)
    as [returncode stdout|e]; cbn [lists_ben fst snd is_Exception]; try reflexivity.
  destruct (returncode =? 0); reflexivity.
Qed.

Lemma deploy_check_tesseract_run h :
  let cmd := ["tesseract"; "--version"]%string in
  let answer := subprocess_run_after (events h) cmd in
  app_deploy_host.check_tesseract_installation h
  = (Returns (exited_zero answer), logged (ran cmd answer) h).
Proof.
  unfold app_deploy_host.check_tesseract_installation. run_host. cbn beta iota zeta.
  destruct (subprocess_run_after (events h) ["tesseract"; "--version"]%string)
    as [returncode stdout|e]; reflexivity.
Qed.

Lemma setup_tesseract_run h :
  exists b h' evs,
    app_deploy_host.setup_tesseract h = (Returns b, h')
    /\ os_name h' = os_name h
    /\ events h' = events h ++ evs /\ evs <> []
    /\ Forall (fun ev => forall cmd answer, ev <> ran cmd answer) evs.
Proof.
  unfold app_deploy_host.setup_tesseract. run_host. cbn beta iota zeta.
  destruct (String.eqb (os_name h) "posix").
  - set (h1 := logged _ h). 
    set (ben_path := ((if os_path_exists_after (events h) _ then _ else _) ++ _)%string).
    destruct (os_path_exists_after (events h1) ben_path) eqn:Hben; cbn [negb].
    + eexists true, _, [_; _]. split; [reflexivity|].
      cbn [os_name events logged h1]. rewrite <- app_assoc.
      repeat split; try discriminate. repeat constructor; discriminate.
    + cbn [page events os_name tesseract_cmd logged].
      destruct (urlretrieve_after _ app_deploy_host.ben_url ben_path) as [e|] eqn:Hget; cbn [is_Exception].
      * eexists false, _, [_; _; _]. split; [reflexivity|].
        cbn [os_name events logged h1]. rewrite <- !app_assoc.
        repeat split; try discriminate. repeat constructor; discriminate.
      * eexists true, _, [_; _; _]. split; [reflexivity|].
        cbn [os_name events logged h1]. rewrite <- !app_assoc.
        repeat split; try discriminate. repeat constructor; discriminate.
  - destruct (first_existing_run tesseract_paths h)
      as (b & h' & evs & Hrun & Hname & _ & Hevents & Hprobes & Hne & _).
    exists b, h', evs. split; [exact Hrun|]. split; [exact Hname|]. split; [exact Hevents|].
    split; [apply Hne; discriminate|].
    eapply Forall_impl; [exact Hprobes|]. intros [] Hprobe; try destruct Hprobe. discriminate.
Qed.

Lemma version_check_run (decide : Z * py.str -> H bool) h :
  (forall result h0, decide result h0 = (Returns (result.1 =? 0), h0)) ->
  let cmd := ["tesseract"; "--version"]%string in
  let answer := subprocess_run_after (events h) cmd in
  try_except is_FileNotFoundError (result ← subprocess_run cmd; decide result)
    (fun _ => mret false) h
  = (match answer with
     | RunRaises (OtherException message) => Raises (OtherException message)
     | _ => Returns (exited_zero answer)
     end, logged (ran cmd answer) h).
Proof.
  intros Hdecide. run_host. cbn beta iota zeta.
  destruct (subprocess_run_after (events h) ["tesseract"; "--version"]%string)
    as [returncode stdout|[message|message]]; try reflexivity.
  now rewrite Hdecide.
Qed.

Lemma app_check_tesseract_run h :
  app_host.check_tesseract_installation h
  = if String.eqb (os_name h) "nt" then
      match first_existing tesseract_paths h with
      | (Returns false, h1) =>
          let answer := subprocess_run_after (events h1) ["tesseract"; "--version"]%string in
          (match answer with
           | RunRaises (OtherException message) => Raises (OtherException message)
           | _ => Returns (exited_zero answer)
           end, logged (ran ["tesseract"; "--version"]%string answer) h1)
      | r => r
      end
    else
      let answer := subprocess_run_after (events h) ["tesseract"; "--version"]%string in
      (match answer with
       | RunRaises (OtherException message) => Raises (OtherException message)
       | _ => Returns (exited_zero answer)
       end, logged (ran ["tesseract"; "--version"]%string answer) h).
Proof.
  unfold app_host.check_tesseract_installation.
  unfold mbind at 1, H_bind at 1, get_os_name.
  destruct (String.eqb (os_name h) "nt").
  - unfold mbind at 1, H_bind at 1.
    destruct (first_existing tesseract_paths h) as [[[|]|e|] h1]; try reflexivity.
    apply version_check_run. intros result h0. unfold mret, H_ret.
    now destruct (result.1 =? 0).
  - apply version_check_run. reflexivity.
Qed.

(** X16. [check_tesseract_installation] of src/app.py shows nothing and
    never stops the script.  It raises only what [tesseract --version]
    raised, which is never a [FileNotFoundError].  It changes
    [tesseract_cmd] only on Windows, to one of the two standard paths,
    which it has just found to exist; it returns [True] only then, or
    when [tesseract --version] exited with 0. *)
Theorem installation_check_outcome h :
  exists r h',
    app_host.check_tesseract_installation h = (r, h')
    /\ page h' = page h /\ os_name h' = os_name h
    /\ match r with
       | Stops => False
       | Raises e =>
           is_FileNotFoundError e = false /\ tesseract_cmd h' = tesseract_cmd h
           /\ last (events h') = Some (ran ["tesseract"; "--version"]%string (RunRaises e))
       | Returns true =>
           (os_name h = "nt"%string /\ tesseract_cmd h' ∈ tesseract_paths
            /\ last (events h') = Some (probed (tesseract_cmd h') true))
           \/ (tesseract_cmd h' = tesseract_cmd h
               /\ exists answer,
                    last (events h') = Some (ran ["tesseract"; "--version"]%string answer)
                    /\ exited_zero answer = true)
       | Returns false =>
           tesseract_cmd h' = tesseract_cmd h
           /\ exists answer,
                last (events h') = Some (ran ["tesseract"; "--version"]%string answer)
                /\ exited_zero answer = false
       end.
Proof.
  rewrite app_check_tesseract_run.
  assert (Hversion : forall h1, page h1 = page h -> os_name h1 = os_name h ->
            tesseract_cmd h1 = tesseract_cmd h ->
            let answer := subprocess_run_after (events h1) ["tesseract"; "--version"]%string in
            exists r h',
              (match answer with
               | RunRaises (OtherException message) => Raises (OtherException message)
               | _ => Returns (exited_zero answer)
               end, logged (ran ["tesseract"; "--version"]%string answer) h1) = (r, h')
              /\ page h' = page h /\ os_name h' = os_name h
              /\ match r with
                 | Stops => False
                 | Raises e =>
                     is_FileNotFoundError e = false /\ tesseract_cmd h' = tesseract_cmd h
                     /\ last (events h')
                        = Some (ran ["tesseract"; "--version"]%string (RunRaises e))
                 | Returns true =>
                     (os_name h = "nt"%string /\ tesseract_cmd h' ∈ tesseract_paths
                      /\ last (events h') = Some (probed (tesseract_cmd h') true))
                     \/ (tesseract_cmd h' = tesseract_cmd h
                         /\ exists answer,
                              last (events h')
                              = Some (ran ["tesseract"; "--version"]%string answer)
                              /\ exited_zero answer = true)
                 | Returns false =>
                     tesseract_cmd h' = tesseract_cmd h
                     /\ exists answer,
                          last (events h')
                          = Some (ran ["tesseract"; "--version"]%string answer)
                          /\ exited_zero answer = false
                 end).
  { intros h1 Hpage Hname Hcmd answer. subst answer.
    destruct (subprocess_run_after (events h1) ["tesseract"; "--version"]%string)
      as [returncode stdout|[message|message]] eqn:Hanswer;
      eexists _, _; (split; [reflexivity|]); cbn [page os_name tesseract_cmd events logged];
      (split; [exact Hpage|]); (split; [exact Hname|]).
    - cbn [exited_zero]. destruct (returncode =? 0) eqn:Hcode.
      + right. split; [exact Hcmd|]. eexists. split; [apply last_snoc|exact Hcode].
      + split; [exact Hcmd|]. eexists. split; [apply last_snoc|exact Hcode].
    - cbn [exited_zero]. split; [exact Hcmd|]. eexists. split; [apply last_snoc|reflexivity].
    - split; [reflexivity|]. split; [exact Hcmd|]. apply last_snoc. }
  destruct (String.eqb (os_name h) "nt") eqn:Hnt; [|now apply Hversion].
  apply String.eqb_eq in Hnt.
  destruct (first_existing_run tesseract_paths h)
    as (b & h1 & evs & -> & Hname & Hpage & _ & _ & _ & Hb).
  destruct b; [|now apply Hversion].
  exists (Returns true), h1. split; [reflexivity|]. split; [exact Hpage|].
  split; [exact Hname|]. left. split; [exact Hnt|exact Hb].
Qed.

Lemma app_check_tesseract_keeps h r h' :
  app_host.check_tesseract_installation h = (r, h') ->
  os_name h' = os_name h
  /\ (tesseract_cmd h' = tesseract_cmd h \/ probed (tesseract_cmd h') true ∈ events h').
Proof.
  rewrite app_check_tesseract_run. intros Hrun.
  assert (Hversion : forall (h1 : state) (o : outcome bool) (ev : event),
            (o, logged ev h1) = (r, h') ->
            os_name h' = os_name h1 /\ tesseract_cmd h' = tesseract_cmd h1
            /\ events h' = events h1 ++ [ev]).
  { intros h1 o ev Heq. injection Heq as _ <-. now repeat split. }
  destruct (String.eqb (os_name h) "nt").
  - destruct (first_existing_run tesseract_paths h)
      as (b & h1 & evs & Hfirst & Hname & _ & _ & _ & _ & Hb).
    rewrite Hfirst in Hrun. destruct b.
    + injection Hrun as _ <-. split; [exact Hname|]. right. destruct Hb as [_ Hlast].
      apply last_Some in Hlast as [l ->]. apply elem_of_app. right. apply list_elem_of_here.
    + apply Hversion in Hrun as (Hname' & Hcmd & _). split; [congruence|left; congruence].
  - apply Hversion in Hrun as (Hname' & Hcmd & _). split; [congruence|left; congruence].
Qed.

(** X17. When the two checks of [main()] of src/app.py both return
    [True], the language check has asked, as the last request to the
    host, for the languages of the program that the installation check
    selected: on Windows [tesseract_cmd], which is either what it was
    before or a path just found to exist, elsewhere [tesseract]; that run
    exited with 0 and its output contains ['ben']. *)
Theorem language_check_asks_the_selected_binary h t b h' :
  app_host.checks h = (Returns (t, b), h') ->
  b = true ->
  t = true
  /\ exists stdout,
       last (events h')
       = Some (ran [if String.eqb (os_name h) "nt" then tesseract_cmd h' else "tesseract"%string;
                    "--list-langs"%string] (CompletedProcess 0 stdout))
       /\ py.contains (py.of_string "ben") stdout = true
       /\ (tesseract_cmd h' = tesseract_cmd h \/ probed (tesseract_cmd h') true ∈ events h').
Proof.
  unfold app_host.checks. unfold mbind at 1, H_bind at 1.
  destruct (app_host.check_tesseract_installation h) as [[[|]|e|] h1] eqn:Hcheck;
    cbn [negb]; try discriminate.
  - destruct (app_check_tesseract_keeps _ _ _ Hcheck) as [Hname Hcmd].
    unfold mbind, H_bind. rewrite app_check_bengali_run. unfold mret, H_ret.
    intros Heq Hb. injection Heq as <- <- <-. split; [reflexivity|]. rewrite <- Hname.
    cbn [events logged tesseract_cmd].
    destruct (subprocess_run_after _ _) as [returncode stdout|e] eqn:Hanswer;
      cbn [lists_ben] in Hb; [|discriminate].
    apply andb_prop in Hb as [Hcode Hben]. apply Z.eqb_eq in Hcode. subst returncode.
    exists stdout. split; [apply last_snoc|]. split; [exact Hben|].
    destruct Hcmd as [Hcmd|Hcmd]; [now left|right].
    apply elem_of_app. now left.
  - unfold mret, H_ret. intros Heq Hb. injection Heq as _ <- _. discriminate.
Qed.

Lemma host_bind_returns {A B} (m : H A) (f : A -> H B) h a h1 :
  m h = (Returns a, h1) -> (m ≫= f) h = f a h1.
Proof. intros Hm. unfold mbind, H_bind. now rewrite Hm. Qed.

Lemma host_bind_show {B} (n : notice) (k : H B) h :
  (show n;; k) h
  = k {| os_name := os_name h; tesseract_cmd := tesseract_cmd h;
         events := events h; page := page h ++ [n] |}.
Proof. reflexivity. Qed.

Lemma last_of_new {A} (P : A -> Prop) (old new : list A) :
  new <> [] -> Forall P new -> exists x, last (old ++ new) = Some x /\ P x.
Proof.
  intros Hne Hnew. destruct (rev new) as [|x r] eqn:Hrev.
  - apply (f_equal (@rev A)) in Hrev. rewrite rev_involutive in Hrev. contradiction.
  - apply (f_equal (@rev A)) in Hrev. rewrite rev_involutive in Hrev. cbn [rev] in Hrev.
    subst new. exists x. rewrite app_assoc, last_snoc. split; [reflexivity|].
    apply Forall_app in Hnew as [_ Hx]. now apply Forall_cons in Hx as [Hx _].
Qed.

(** X18. Loading src/app_deploy.py never raises: it stops the script
    behind an error, or it sets the configuration.  It gets past the
    checks only after a run of [tesseract --version] exited with 0.
    [TESSERACT_CONFIG] is the Bengali one exactly when the last request
    to the host was a listing of languages that exited with 0 and has
    ['ben'] in it, and the English one otherwise, announced as a
    fallback; the prompt of the page follows that choice. *)
Theorem init_outcome h :
  exists r h',
    app_deploy_host.init h = (r, h')
    /\ match r with
       | Returns (TESSERACT_AVAILABLE, BENGALI_AVAILABLE, TESSERACT_CONFIG) =>
           TESSERACT_AVAILABLE = true
           /\ TESSERACT_CONFIG = app_deploy.TESSERACT_CONFIG BENGALI_AVAILABLE
           /\ (forall context question,
                 app_deploy.build_prompt TESSERACT_CONFIG context question
                 = (if BENGALI_AVAILABLE then prompt_bn else prompt_en) context question)
           /\ (BENGALI_AVAILABLE = true <->
               exists answer,
                 last (events h') = Some (ran ["tesseract"; "--list-langs"]%string answer)
                 /\ lists_ben answer = true)
           /\ (exists answer,
                 ran ["tesseract"; "--version"]%string answer ∈ events h'
                 /\ exited_zero answer = true)
           /\ (BENGALI_AVAILABLE = false ->
               last (page h')
               = Some (st_info ([128260]%N ++ py.of_string " Falling back to English OCR...")))
       | Raises _ => False
       | Stops =>
           last (page h')
           = Some (st_error (warning_sign ++ py.of_string " Could not setup Tesseract OCR!"))
           \/ (last (page h') = Some (st_markdown tesseract_not_available_note)
               /\ exists answer,
                    last (events h') = Some (ran ["tesseract"; "--version"]%string answer)
                    /\ exited_zero answer = false)
       end.
Proof.
  unfold app_deploy_host.init.
  destruct (setup_tesseract_run h) as (ok & h1 & evs1 & Hsetup & _ & Hevents1 & _ & _).
  rewrite (host_bind_returns _ _ _ _ _ Hsetup).
  destruct ok; cbn [negb].
  2:{ eexists Stops, _. split; [reflexivity|]. left. apply last_snoc. }
  rewrite (host_bind_returns _ _ h1 tt h1 eq_refl).
  rewrite (host_bind_returns _ _ _ _ _ (deploy_check_tesseract_run h1)).
  set (version := subprocess_run_after (events h1) ["tesseract"; "--version"]%string).
  set (h2 := logged (ran ["tesseract"; "--version"]%string version) h1).
  destruct (exited_zero version) eqn:Hversion; cbn [negb].
  2:{ eexists Stops, _. split; [reflexivity|]. right. split.
      - cbn [page]. apply last_snoc.
      - exists version. split; [apply last_snoc|exact Hversion]. }
  rewrite (host_bind_returns _ _ h2 tt h2 eq_refl).
  rewrite (host_bind_returns _ _ _ _ _ (deploy_check_bengali_run h2)).
  set (langs := subprocess_run_after (events h2) ["tesseract"; "--list-langs"]%string).
  set (h3 := logged (ran ["tesseract"; "--list-langs"]%string langs) h2).
  assert (Hran : forall h', (exists l, events h' = events h2 ++ l) ->
            exists answer, ran ["tesseract"; "--version"]%string answer ∈ events h'
                           /\ exited_zero answer = true).
  { intros h' [l ->]. exists version. split; [|exact Hversion].
    apply elem_of_app. left. apply elem_of_app. right. apply list_elem_of_here. }
  destruct (lists_ben langs) eqn:Hlangs; cbn [negb].
  { eexists (Returns (true, true, _)), _. split; [reflexivity|].
    split; [reflexivity|]. split; [reflexivity|]. split; [reflexivity|].
    split; [|split; [|discriminate]].
    - split; [|reflexivity]. intros _. exists langs. split; [apply last_snoc|exact Hlangs].
    - apply Hran. now exists [ran ["tesseract"; "--list-langs"]%string langs]. }
  rewrite host_bind_show.
  set (h4 := {| os_name := os_name h3; tesseract_cmd := tesseract_cmd h3;
                events := events h3; page := page h3 ++ [_] |}).
  destruct (setup_tesseract_run h4) as (ok & h5 & evs5 & Hsetup5 & _ & Hevents5 & Hne5 & Hnot5).
  rewrite (host_bind_returns _ _ _ _ _ Hsetup5).
  assert (Hfallback : forall h6, (exists l, events h6 = events h2 ++ l) ->
            ~ (exists answer,
                 last (events h6) = Some (ran ["tesseract"; "--list-langs"]%string answer)
                 /\ lists_ben answer = true) ->
            exists r h',
              (show (st_error (warning_sign
                               ++ py.of_string " Could not enable Bengali OCR support!"));;
               show (st_markdown english_ocr_note);;
               show (st_info ([128260]%N ++ py.of_string " Falling back to English OCR..."));;
               mret (true, false, "--oem 3 --psm 6 -l eng"%string)) h6 = (r, h')
              /\ match r with
                 | Returns (TESSERACT_AVAILABLE, BENGALI_AVAILABLE, TESSERACT_CONFIG) =>
                     TESSERACT_AVAILABLE = true
                     /\ TESSERACT_CONFIG = app_deploy.TESSERACT_CONFIG BENGALI_AVAILABLE
                     /\ (forall context question,
                           app_deploy.build_prompt TESSERACT_CONFIG context question
                           = (if BENGALI_AVAILABLE then prompt_bn else prompt_en)
                               context question)
                     /\ (BENGALI_AVAILABLE = true <->
                         exists answer,
                           last (events h')
                           = Some (ran ["tesseract"; "--list-langs"]%string answer)
                           /\ lists_ben answer = true)
                     /\ (exists answer,
                           ran ["tesseract"; "--version"]%string answer ∈ events h'
                           /\ exited_zero answer = true)
                     /\ (BENGALI_AVAILABLE = false ->
                         last (page h')
                         = Some (st_info ([128260]%N
                                          ++ py.of_string " Falling back to English OCR...")))
                 | Raises _ => False
                 | Stops =>
                     last (page h')
                     = Some (st_error (warning_sign
                                       ++ py.of_string " Could not setup Tesseract OCR!"))
                     \/ (last (page h') = Some (st_markdown tesseract_not_available_note)
                         /\ exists answer,
                              last (events h')
                              = Some (ran ["tesseract"; "--version"]%string answer)
                              /\ exited_zero answer = false)
                 end).
  { intros h6 Hext Hnone. eexists (Returns (true, false, _)), _. split; [reflexivity|].
    split; [reflexivity|]. split; [reflexivity|]. split; [reflexivity|].
    split; [|split].
    - split; [discriminate|]. intros Hsome. now destruct Hnone.
    - now apply Hran.
    - intros _. cbn [page]. apply last_snoc. }
  destruct ok.
  - rewrite (host_bind_returns _ _ _ _ _ (deploy_check_bengali_run h5)).
    set (langs' := subprocess_run_after (events h5) ["tesseract"; "--list-langs"]%string).
    destruct (lists_ben langs') eqn:Hlangs'; cbn [negb].
    + eexists (Returns (true, true, _)), _. split; [reflexivity|].
      split; [reflexivity|]. split; [reflexivity|]. split; [reflexivity|].
      split; [|split; [|discriminate]].
      * split; [|reflexivity]. intros _. exists langs'. split; [apply last_snoc|exact Hlangs'].
      * apply Hran. cbn [events logged]. rewrite Hevents5. cbn [events h4 h3 logged].
        rewrite <- !app_assoc. eauto.
    + apply Hfallback.
      * cbn [events logged]. rewrite Hevents5. cbn [events h4 h3 logged].
        rewrite <- !app_assoc. eauto.
      * intros (answer & Hlast & Hben). cbn [events logged] in Hlast.
        rewrite last_snoc in Hlast. injection Hlast as <-. congruence.
  - rewrite (host_bind_returns _ _ h5 false h5 eq_refl). cbn [negb]. apply Hfallback.
    + rewrite Hevents5. cbn [events h4 h3 logged]. rewrite <- !app_assoc. eauto.
    + intros (answer & Hlast & _). rewrite Hevents5 in Hlast.
      destruct (last_of_new _ (events h4) evs5 Hne5 Hnot5) as (ev & Hev & Hnot).
      rewrite Hev in Hlast. injection Hlast as ->. now apply (Hnot _ _ eq_refl).
Qed.

End host_runs.

Lemma language_check_asks_the_selected_binary_witness :
  let exe := "C:\Program Files (x86)\Tesseract-OCR\tesseract.exe"%string in
  let M := mock_machine [exe] false (py.of_string "List of available languages (2):
ben
eng
") in
  exists h' stdout,
    @app_host.checks M (boot "nt") = (host.Returns (true, true), h')
    /\ host.tesseract_cmd h' = exe
    /\ last (host.events h')
       = Some (host.ran [exe; "--list-langs"%string] (host.CompletedProcess 0 stdout))
    /\ py.contains (py.of_string "ben") stdout = true.
Proof.
  intros exe M.
  assert (Hrun : @app_host.checks M (boot "nt")
                 = (host.Returns (true, true), (@app_host.checks M (boot "nt")).2))
    by (vm_compute; reflexivity).
  destruct (@language_check_asks_the_selected_binary M (boot "nt") true true _ Hrun eq_refl)
    as (_ & stdout & Hlast & Hben & _).
  exists (@app_host.checks M (boot "nt")).2, stdout.
  split; [exact Hrun|]. split; [vm_compute; reflexivity|]. split; [exact Hlast|exact Hben].
Defined.

Lemma installation_check_outcome_witness :
  let M := mock_machine [] false [] in
  exists h',
    @app_host.check_tesseract_installation M (boot "posix") = (host.Returns false, h')
    /\ host.tesseract_cmd h' = "tesseract"%string
    /\ exists answer,
         last (host.events h')
         = Some (host.ran ["tesseract"; "--version"]%string answer)
         /\ exited_zero answer = false.
Proof.
  intros M.
  destruct (@installation_check_outcome M (boot "posix")) as (r & h' & Hrun & _ & _ & Hr).
  assert (Heq : r = host.Returns false).
  { assert (Hfst : (@app_host.check_tesseract_installation M (boot "posix")).1
                   = host.Returns false) by (vm_compute; reflexivity).
    now rewrite Hrun in Hfst. }
  subst r. exists h'. split; [exact Hrun|]. exact Hr.
Defined.

Lemma init_outcome_witness :
  let M := mock_machine [ "/usr/share/tesseract-ocr/tessdata/ben.traineddata"%string ] true
             (py.of_string "List of available languages (2):
ben
eng
") in
  exists h',
    @app_deploy_host.init M (boot "posix")
    = (host.Returns (true, true, "--oem 3 --psm 6 -l ben"%string), h')
    /\ exists answer,
         last (host.events h') = Some (host.ran ["tesseract"; "--list-langs"]%string answer)
         /\ lists_ben answer = true.
Proof.
  intros M.
  destruct (@init_outcome M (boot "posix")) as (r & h' & Hrun & Hr).
  assert (Heq : r = host.Returns (true, true, "--oem 3 --psm 6 -l ben"%string)).
  { assert (Hfst : (@app_deploy_host.init M (boot "posix")).1
                   = host.Returns (true, true, "--oem 3 --psm 6 -l ben"%string))
      by (vm_compute; reflexivity).
    now rewrite Hrun in Hfst. }
  subst r. exists h'. split; [exact Hrun|].
  destruct Hr as (_ & _ & _ & Hben & _). now apply Hben.
Defined.

(** ** The chunker: where the chunks lie in the text *)

Section merge_layout.
Import py langchain.

Variable T : RecursiveCharacterTextSplitter.
Variables size lap : nat.
Hypothesis size_is : chunk_size T = Z.of_nat size.
Hypothesis overlap_is : chunk_overlap T = Z.of_nat lap.

Lemma overlap_nonneg_of : 0 <= chunk_overlap T.
Proof. rewrite overlap_is. lia. Qed.

Lemma length_concat_app (l1 l2 : list str) :
  length (concat (l1 ++ l2)) = (length (concat l1) + length (concat l2))%nat.
Proof. now rewrite concat_app, length_app. Qed.

Lemma length_concat_snoc (l : list str) d :
  length (concat (l ++ [d])) = (length (concat l) + length d)%nat.
Proof. rewrite length_concat_app. simpl. now rewrite app_nil_r. Qed.

Lemma pop_front_suffix _len cur : forall tot,
  exists gone, cur = gone ++ (pop_front T 0 _len cur tot).1.
Proof.
  induction cur as [|d0 rest IH]; intros tot; cbn [pop_front]; [now exists []|].
  destruct (_ || _); [|now exists []].
  destruct (IH (tot - (len d0 + sep_if (1 <? len (d0 :: rest)) 0))) as [gone Hgone].
  exists (d0 :: gone). cbn [app]. now rewrite <- Hgone.
Qed.

Lemma chained_snoc (segs : list (nat * nat)) x :
  chained lap segs ->
  (forall a, last segs = Some a -> (a.1 <= x.1 /\ a.2 <= x.2 /\ a.2 <= x.1 + lap)%nat) ->
  chained lap (segs ++ [x]).
Proof.
  intros Hchain Hlast i a b Ha Hb.
  destruct (decide (S i < length segs)%nat) as [Hlt|Hge].
  - rewrite lookup_app_l in Ha by lia. rewrite lookup_app_l in Hb by lia.
    now apply (Hchain i).
  - assert (Hi : S i = length segs).
    { apply lookup_lt_Some in Hb. rewrite length_app in Hb. simpl in Hb. lia. }
    rewrite lookup_app_l in Ha by lia.
    rewrite lookup_app_r in Hb by lia. rewrite Hi, Nat.sub_diag in Hb. injection Hb as <-.
    apply Hlast. rewrite last_lookup. rewrite <- Hi. exact Ha.
Qed.

Lemma merge_step_windows all done d todo st :
  all = done ++ d :: todo ->
  merge_inv T st -> fits T d ->
  merge_windows T lap all done st ->
  merge_windows T lap all (done ++ [d]) (merge_step T [] st d).
Proof.
  intros Hall (Htot & Hle & _) Hd (dropped & ws & Hdone & Hdocs & Hchain & Hlast).
  unfold merge_step. change (len (@nil N)) with 0. rewrite !sep_if_zero, !Z.add_0_r.
  assert (Hkeep : forall dropped' : list str,
            (length (concat dropped) <= length (concat dropped'))%nat ->
            forall a, last ws = Some a ->
              ((span a).1 <= length (concat dropped')
               /\ (span a).2 <= length (concat (done ++ [d]))
               /\ (span a).2 <= length (concat dropped') + lap)%nat).
  { intros dropped' Hmore a Ha. destruct (Hlast a Ha) as (H1 & H2 & H3).
    rewrite length_concat_snoc. lia. }
  destruct (total st + len d >? chunk_size T) eqn:Hover.
  - destruct (0 <? len (current_doc st)) eqn:Hcur.
    + pose proof (pop_front_spec T overlap_nonneg_of (len d) (current_doc st) (total st) Htot)
        as Hpop.
      destruct (pop_front_suffix (len d) (current_doc st) (total st)) as [gone Hgone].
      destruct (pop_front T 0 (len d) (current_doc st) (total st)) as [cur' tot'].
      cbn [fst snd] in Hpop, Hgone. destruct Hpop as (Htot' & _ & Hov).
      assert (Hcur' : (length (concat cur') <= lap)%nat)
        by (unfold len in Htot'; lia).
      assert (Hsplit : length (concat (current_doc st))
                       = (length (concat gone) + length (concat cur'))%nat)
        by (rewrite Hgone at 1; apply length_concat_app).
      assert (Hdone' : done ++ [d] = (dropped ++ gone) ++ cur' ++ [d]).
      { rewrite Hdone. rewrite Hgone at 1. now rewrite <- !app_assoc. }
      assert (Hlen_done : length (concat done)
                          = (length (concat dropped) + length (concat (current_doc st)))%nat)
        by (rewrite Hdone at 1; apply length_concat_app).
      destruct (_join_docs T (current_doc st) []) as [doc|] eqn:Hjoin;
        cbn [push_doc docs current_doc total].
      * exists (dropped ++ gone), (ws ++ [(dropped, current_doc st)]).
        split; [exact Hdone'|]. split.
        { apply Forall2_app; [exact Hdocs|]. constructor; [|constructor].
          split; [|split; [exact Hjoin|cbn [snd]; rewrite <- Htot; exact Hle]].
          exists (d :: todo). cbn [fst snd]. rewrite Hall, Hdone. now rewrite <- app_assoc. }
        split.
        { rewrite map_app. apply chained_snoc; [exact Hchain|].
          intros a Ha. change (map span ws) with (span <$> ws) in Ha.
          rewrite fmap_last in Ha. destruct (last ws) as [a'|] eqn:Hlast'; [|discriminate].
          injection Ha as <-. destruct (Hlast a' eq_refl) as (H1 & H2 & H3).
          cbn [span fst snd] in *. lia. }
        intros a Ha. rewrite last_snoc in Ha. injection Ha as <-.
        cbn [span fst snd]. rewrite length_concat_snoc, length_concat_app. lia.
      * exists (dropped ++ gone), ws.
        split; [exact Hdone'|]. split; [exact Hdocs|]. split; [exact Hchain|].
        apply Hkeep. rewrite length_concat_app. lia.
    + apply Z.ltb_ge in Hcur. unfold len in Hcur.
      assert (Hnil : current_doc st = [])
        by (destruct (current_doc st); [reflexivity|simpl in Hcur; lia]).
      cbn [docs current_doc total]. exists dropped, ws.
      split; [rewrite Hdone at 1; now rewrite <- app_assoc|]. split; [exact Hdocs|]. split; [exact Hchain|].
      now apply Hkeep.
  - cbn [docs current_doc total]. exists dropped, ws.
    split; [rewrite Hdone at 1; now rewrite <- app_assoc|]. split; [exact Hdocs|]. split; [exact Hchain|].
    now apply Hkeep.
Qed.

Lemma merge_fold_windows all todo : forall done st,
  all = done ++ todo ->
  merge_inv T st -> Forall (fits T) todo ->
  merge_windows T lap all done st ->
  merge_inv T (fold_left (merge_step T []) todo st)
  /\ merge_windows T lap all all (fold_left (merge_step T []) todo st).
Proof.
  induction todo as [|d todo IH]; intros done st Hall Hinv Hfits Hw.
  - rewrite app_nil_r in Hall. subst done. now split.
  - apply Forall_cons in Hfits as [Hd Hfits]. cbn [fold_left].
    apply (IH (done ++ [d])).
    + now rewrite <- app_assoc.
    + now apply merge_step_inv; [apply overlap_nonneg_of| |].
    + exact Hfits.
    + now apply (merge_step_windows all done d todo).
Qed.

(** The documents of [_merge_splits] are chained windows of the pieces. *)
Lemma merge_splits_windows splits :
  Forall (fits T) splits ->
  exists ws,
    Forall2 (window_of T splits) (_merge_splits T splits []) ws
    /\ chained lap (map span ws).
Proof.
  intros Hfits. unfold _merge_splits.
  destruct (merge_fold_windows splits splits [] {| docs := []; current_doc := []; total := 0 |})
    as ((Htot & Hle & _) & dropped & ws & Hdone & Hdocs & Hchain & Hlast).
  - reflexivity.
  - split; [reflexivity|]. split; [rewrite size_is; cbn [total]; lia|constructor].
  - exact Hfits.
  - exists [], []. split; [reflexivity|]. split; [constructor|].
    split; [intros i a b Ha; discriminate|]. intros a Ha. discriminate.
  - set (st := fold_left _ _ _) in *.
    destruct (_join_docs T (current_doc st) []) as [doc|] eqn:Hjoin; cbn [push_doc].
    + exists (ws ++ [(dropped, current_doc st)]). split.
      * apply Forall2_app; [exact Hdocs|]. constructor; [|constructor].
        split; [|split; [exact Hjoin|cbn [snd]; rewrite <- Htot; exact Hle]].
        exists []. cbn [fst snd]. now rewrite app_nil_r.
      * rewrite map_app. apply chained_snoc; [exact Hchain|].
        intros a Ha. change (map span ws) with (span <$> ws) in Ha.
        rewrite fmap_last in Ha. destruct (last ws) as [a'|] eqn:Hlast'; [|discriminate].
        injection Ha as <-. destruct (Hlast a' eq_refl) as (H1 & H2 & H3).
        cbn [span fst snd] in *. rewrite Hdone, length_concat_app in H2. lia.
    + exists ws. now split.
Qed.

End merge_layout.

Section text_layout.
Import py langchain.

Variable T : RecursiveCharacterTextSplitter.
Variables size lap : nat.
Hypothesis size_is : chunk_size T = Z.of_nat size.
Hypothesis overlap_is : chunk_overlap T = Z.of_nat lap.
Hypothesis keeps : keep_separator T = true.
Hypothesis strips : strip_whitespace T = true.
Hypothesis size_two : 1 < chunk_size T.

Lemma join_docs_strip run doc :
  _join_docs T run [] = Some doc -> doc = strip (concat run) /\ doc <> [].
Proof.
  unfold _join_docs. rewrite strips, join_nil.
  destruct (strip (concat run)) eqn:Hs; [discriminate|]. intros Hdoc. injection Hdoc as <-.
  split; [reflexivity|discriminate].
Qed.

Lemma merge_splits_nil : _merge_splits T [] [] = [].
Proof. unfold _merge_splits, _join_docs. cbn. now destruct (strip_whitespace T). Qed.

Lemma good_merge (final good : list str) :
  match good with
  | [] => final
  | _ :: _ => final ++ _merge_splits T good []
  end = final ++ _merge_splits T good [].
Proof. destruct good; [|reflexivity]. now rewrite merge_splits_nil, app_nil_r. Qed.

Lemma segment_middle (a b c : str) :
  segment (a ++ b ++ c) (length a, (length a + length b)%nat) = b.
Proof.
  unfold segment. cbn [fst snd]. rewrite drop_app_length.
  replace (length a + length b - length a)%nat with (length b) by lia.
  apply take_app_length.
Qed.

Lemma segment_shift (pre piece post : str) s e :
  (s <= e)%nat -> (e <= length piece)%nat ->
  segment (pre ++ piece ++ post) ((length pre + s)%nat, (length pre + e)%nat)
  = segment piece (s, e).
Proof.
  intros Hse He. unfold segment. cbn [fst snd].
  rewrite drop_app_ge by lia.
  replace (length pre + s - length pre)%nat with s by lia.
  replace (length pre + e - (length pre + s))%nat with (e - s)%nat by lia.
  rewrite drop_app_le by lia. apply take_app_le. rewrite length_drop. lia.
Qed.

Lemma laid_out_nil text lo hi : laid_out size lap text lo hi [] [].
Proof. split; [constructor|]. intros i a b Ha. discriminate. Qed.

Lemma chained_app (sa sb : list (nat * nat)) :
  chained lap sa -> chained lap sb ->
  (forall a b, last sa = Some a -> head sb = Some b ->
     (a.1 <= b.1 /\ a.2 <= b.2 /\ a.2 <= b.1 + lap)%nat) ->
  chained lap (sa ++ sb).
Proof.
  intros Ha Hb Hab i x y Hx Hy.
  destruct (decide (S i < length sa)%nat) as [Hlt|Hge].
  - rewrite lookup_app_l in Hx by lia. rewrite lookup_app_l in Hy by lia.
    now apply (Ha i).
  - destruct (decide (i < length sa)%nat) as [Hi|Hi].
    + rewrite lookup_app_l in Hx by lia. rewrite lookup_app_r in Hy by lia.
      replace (S i - length sa)%nat with 0%nat in Hy by lia.
      apply Hab.
      * rewrite last_lookup. replace (Nat.pred (length sa)) with i by lia. exact Hx.
      * now rewrite head_lookup.
    + rewrite lookup_app_r in Hx by lia. rewrite lookup_app_r in Hy by lia.
      replace (S i - length sa)%nat with (S (i - length sa)) in Hy by lia.
      now apply (Hb (i - length sa)%nat).
Qed.

Lemma laid_out_app text lo mid hi A sa B sb :
  (lo <= mid)%nat -> (mid <= hi)%nat ->
  laid_out size lap text lo mid A sa -> laid_out size lap text mid hi B sb ->
  laid_out size lap text lo hi (A ++ B) (sa ++ sb).
Proof.
  intros Hlo Hhi [HA HcA] [HB HcB]. split.
  - apply Forall2_app.
    + eapply Forall2_impl; [exact HA|]. intros chunk se [Hb Hc]. split; [lia|exact Hc].
    + eapply Forall2_impl; [exact HB|]. intros chunk se [Hb Hc]. split; [lia|exact Hc].
  - apply chained_app; [exact HcA|exact HcB|].
    intros a b Ha Hb. rewrite last_lookup in Ha. rewrite head_lookup in Hb.
    destruct (Forall2_lookup_r _ _ _ _ _ HA Ha) as (ca & _ & Hba & _).
    destruct (Forall2_lookup_r _ _ _ _ _ HB Hb) as (cb & _ & Hbb & _). lia.
Qed.

Lemma laid_out_shift pre piece post chunks segs :
  laid_out size lap piece 0 (length piece) chunks segs ->
  laid_out size lap (pre ++ piece ++ post) (length pre) (length pre + length piece) chunks
    (map (fun se => ((length pre + se.1)%nat, (length pre + se.2)%nat)) segs).
Proof.
  intros [Hchunks Hchain]. split.
  - apply Forall2_fmap_r. eapply Forall2_impl; [exact Hchunks|].
    intros chunk [s e] [Hb ->]. cbv beta iota delta [fst snd] in *. split; [lia|].
    now rewrite segment_shift by lia.
  - intros i a b Ha Hb.
    change (map ?f segs) with (f <$> segs) in Ha, Hb.
    apply list_lookup_fmap_Some in Ha as (a' & -> & Ha).
    apply list_lookup_fmap_Some in Hb as (b' & -> & Hb).
    destruct (Hchain i a' b' Ha Hb) as (H1 & H2 & H3). cbn [fst snd]. lia.
Qed.

(** The documents of [_merge_splits], laid out on what the pieces make
    up. *)
Lemma merge_splits_laid splits :
  Forall (fits T) splits ->
  exists segs,
    laid_out size lap (concat splits) 0 (length (concat splits)) (_merge_splits T splits []) segs.
Proof.
  intros Hfits.
  destruct (merge_splits_windows T size lap size_is overlap_is splits Hfits)
    as (ws & Hdocs & Hchain).
  exists (map span ws). split; [|exact Hchain].
  apply Forall2_fmap_r. eapply Forall2_impl; [exact Hdocs|].
  intros doc [before run] ([after Hall] & Hjoin & Hlen).
  cbv beta iota delta [fst snd span] in *. rewrite size_is in Hlen.
  destruct (join_docs_strip _ _ Hjoin) as [-> _].
  assert (Htext : concat splits = concat before ++ concat run ++ concat after)
    by (rewrite Hall, !concat_app; reflexivity).
  split.
  - rewrite Htext, !length_app. unfold len in Hlen. lia.
  - f_equal. rewrite Htext. symmetry. apply segment_middle.
Qed.

Lemma merge_splits_laid_in text pre good post :
  text = pre ++ concat good ++ post ->
  Forall (fits T) good ->
  exists segs,
    laid_out size lap text (length pre) (length pre + length (concat good))
      (_merge_splits T good []) segs.
Proof.
  intros -> Hfits. destruct (merge_splits_laid good Hfits) as [segs Hsegs].
  eexists. apply laid_out_shift. exact Hsegs.
Qed.

Lemma split_fold_laid recurse text post todo : forall final good pre,
  text = pre ++ concat good ++ concat todo ++ post ->
  (exists segs, laid_out size lap text 0 (length pre) final segs) ->
  Forall (fits T) good ->
  Forall (fun s => len s < chunk_size T \/
                   match recurse with
                   | Some f => exists segs, laid_out size lap s 0 (length s) (f s) segs
                   | None => False
                   end) todo ->
  let r := fold_left (split_step T [] recurse) todo (final, good) in
  exists pre',
    text = pre' ++ concat r.2 ++ post
    /\ (exists segs, laid_out size lap text 0 (length pre') r.1 segs)
    /\ Forall (fits T) r.2.
Proof.
  induction todo as [|s todo IH]; intros final good pre Htext Hfinal Hgood Htodo.
  - exists pre. cbn [fold_left fst snd concat app] in *. now split.
  - apply Forall_cons in Htodo as [Hs Htodo]. cbv zeta in IH |- *. cbn [fold_left].
    destruct (len s <? chunk_size T) eqn:Hlt.
    + replace (split_step T [] recurse (final, good) s) with (final, good ++ [s])
        by (unfold split_step; now rewrite Hlt).
      apply (IH final (good ++ [s]) pre).
      * rewrite Htext, concat_app. cbn [concat]. now rewrite app_nil_r, <- !app_assoc.
      * exact Hfinal.
      * apply Forall_app. split; [exact Hgood|]. constructor; [|constructor].
        apply Z.ltb_lt in Hlt. unfold fits. lia.
      * exact Htodo.
    + destruct Hs as [Hs|Hs]; [apply Z.ltb_ge in Hlt; lia|].
      destruct recurse as [f|]; [|contradiction]. destruct Hs as [segs_s Hsegs_s].
      replace (split_step T [] (Some f) (final, good) s)
        with ((final ++ _merge_splits T good []) ++ f s, @nil str)
        by (unfold split_step; rewrite Hlt, good_merge; reflexivity).
      cbn [concat] in Htext. rewrite <- !app_assoc in Htext.
      apply (IH _ [] (pre ++ concat good ++ s)).
      * rewrite Htext. cbn [concat app]. now rewrite <- !app_assoc.
      * destruct Hfinal as [segs_f Hsegs_f].
        destruct (merge_splits_laid_in text pre good (s ++ concat todo ++ post) Htext Hgood)
          as [segs_g Hsegs_g].
        assert (Hs_in : laid_out size lap text (length (pre ++ concat good))
                          (length (pre ++ concat good) + length s) (f s)
                          (map (fun se => ((length (pre ++ concat good) + se.1)%nat,
                                           (length (pre ++ concat good) + se.2)%nat)) segs_s)).
        { rewrite Htext.
          replace (pre ++ concat good ++ s ++ concat todo ++ post)
            with ((pre ++ concat good) ++ s ++ (concat todo ++ post))
            by (now rewrite <- !app_assoc).
          now apply laid_out_shift. }
        eexists. rewrite !length_app in *.
        apply (laid_out_app text 0 (length pre + length (concat good)));
          [lia|lia| |rewrite Nat.add_assoc; exact Hs_in].
        apply (laid_out_app text 0 (length pre)); [lia|lia|exact Hsegs_f|exact Hsegs_g].
      * constructor.
      * exact Htodo.
Qed.

Lemma split_with_laid separator recurse text :
  Forall (fun s => len s < chunk_size T \/
                   match recurse with
                   | Some f => exists segs, laid_out size lap s 0 (length s) (f s) segs
                   | None => False
                   end) (_split_text_with_regex text separator true) ->
  exists segs, laid_out size lap text 0 (length text) (split_with T separator recurse text) segs.
Proof.
  intros Hpieces. unfold split_with. rewrite keeps.
  pose proof (split_pieces_concat text separator) as Hconcat.
  destruct (split_fold_laid recurse text [] (_split_text_with_regex text separator true)
              [] [] [])
    as (pre' & Htext & [segs Hsegs] & Hgood).
  - cbn [concat app]. now rewrite Hconcat, app_nil_r.
  - exists []. apply laid_out_nil.
  - constructor.
  - exact Hpieces.
  - destruct (fold_left _ _ _) as [final good]. cbn [fst snd] in *.
    rewrite good_merge. rewrite app_nil_r in Htext.
    destruct (merge_splits_laid_in text pre' good [] ) as [segs_g Hsegs_g];
      [now rewrite app_nil_r|exact Hgood|].
    assert (Hlen : length text = (length pre' + length (concat good))%nat)
      by (rewrite Htext at 1; apply length_app).
    eexists. apply (laid_out_app text 0 (length pre')); [lia|lia|exact Hsegs|].
    rewrite Hlen. exact Hsegs_g.
Qed.

Lemma split_text_rec_laid seps : forall text,
  In [] seps ->
  exists segs, laid_out size lap text 0 (length text) (_split_text T seps text) segs.
Proof.
  induction seps as [|_s rest IH]; intros text Hin; [destruct Hin|].
  cbn [_split_text]. destruct _s as [|c _s]; cbn [nonempty negb].
  - apply split_with_laid. unfold _split_text_with_regex. cbn [nonempty].
    apply Forall_forall. intros s Hs. left.
    apply list_elem_of_In, filter_In in Hs as [Hs _].
    apply in_map_iff in Hs as (x & <- & _). unfold len. simpl. lia.
  - destruct Hin as [Hin|Hin]; [discriminate|].
    destruct rest as [|s' rest']; [destruct Hin|].
    destruct (contains (c :: _s) text).
    + apply split_with_laid. apply Forall_forall. intros s _. right. now apply IH.
    + now apply IH.
Qed.

(** *** A text that fits is one chunk *)

Lemma pieces_nonempty text separator :
  Forall (fun p : str => p <> []) (_split_text_with_regex text separator true).
Proof.
  apply Forall_forall. intros p Hp. unfold _split_text_with_regex in Hp.
  apply list_elem_of_In, filter_In in Hp as [_ Hp]. intros ->. discriminate.
Qed.

Lemma pieces_small_or_whole (l : list str) text :
  concat l = text -> Forall (fun p : str => p <> []) l -> len text <= chunk_size T ->
  Forall (fun p => len p < chunk_size T) l \/ (l = [text] /\ len text = chunk_size T).
Proof.
  intros Hconcat Hne Hlen. destruct l as [|p [|p2 l]].
  - left. constructor.
  - simpl in Hconcat. rewrite app_nil_r in Hconcat. subst p.
    destruct (decide (len text < chunk_size T)) as [Hlt|Hge].
    + left. constructor; [exact Hlt|constructor].
    + right. split; [reflexivity|lia].
  - left. apply Forall_cons in Hne as [Hp Hne]. apply Forall_cons in Hne as [Hp2 Hne].
    assert (Hp1 : (1 <= length p)%nat) by (destruct p; [congruence|simpl; lia]).
    assert (Hp21 : (1 <= length p2)%nat) by (destruct p2; [congruence|simpl; lia]).
    subst text. unfold len in *. cbn [concat] in Hlen. rewrite !length_app in Hlen.
    constructor; [lia|]. apply Forall_forall. intros q Hq.
    apply list_elem_of_In in Hq. pose proof (len_piece_le (p2 :: l) q Hq) as Hle.
    unfold len in Hle. cbn [concat] in Hle. rewrite length_app in Hle. lia.
Qed.

Lemma split_with_le separator recurse text :
  len text <= chunk_size T ->
  (Forall (fun p => len p < chunk_size T) (_split_text_with_regex text separator true)
   \/ exists f, recurse = Some f /\ f text = push_doc [] (_join_docs T [text] [])) ->
  split_with T separator recurse text = push_doc [] (_join_docs T [text] []).
Proof.
  intros Hlen Hrec. unfold split_with. rewrite keeps.
  pose proof (split_pieces_concat text separator) as Hconcat.
  destruct (pieces_small_or_whole _ text Hconcat (pieces_nonempty text separator) Hlen)
    as [Hsmall|[Hwhole Hsize]].
  - rewrite split_fold_small by exact Hsmall. cbn [app]. rewrite (good_merge []). cbn [app].
    rewrite merge_splits_no_cut by (rewrite Hconcat; exact Hlen).
    unfold _join_docs. rewrite !join_nil, Hconcat. cbn [concat]. now rewrite app_nil_r.
  - destruct Hrec as [Hsmall|(f & -> & Hf)].
    + rewrite Hwhole in Hsmall. apply Forall_cons in Hsmall as [Hlt _]. lia.
    + rewrite Hwhole. cbn [fold_left]. unfold split_step.
      replace (len text <? chunk_size T) with false by (symmetry; apply Z.ltb_ge; lia).
      cbn [app]. exact Hf.
Qed.

Lemma split_text_rec_le seps : forall text,
  In [] seps -> len text <= chunk_size T ->
  _split_text T seps text = push_doc [] (_join_docs T [text] []).
Proof.
  induction seps as [|_s rest IH]; intros text Hin Hlen; [destruct Hin|].
  cbn [_split_text]. destruct _s as [|c _s]; cbn [nonempty negb].
  - apply split_with_le; [exact Hlen|]. left. unfold _split_text_with_regex. cbn [nonempty].
    apply Forall_forall. intros s Hs.
    apply list_elem_of_In, filter_In in Hs as [Hs _].
    apply in_map_iff in Hs as (x & <- & _). unfold len. simpl. lia.
  - destruct Hin as [Hin|Hin]; [discriminate|].
    destruct rest as [|s' rest']; [destruct Hin|].
    destruct (contains (c :: _s) text).
    + apply split_with_le; [exact Hlen|]. right. eexists. split; [reflexivity|].
      now apply IH.
    + now apply IH.
Qed.

(** *** Coarsest separator first *)

Lemma chunk_of_coarsest seps seps' text chunk :
  coarsest seps text = coarsest seps' text ->
  chunk_of T seps text chunk -> chunk_of T seps' text chunk.
Proof.
  intros Heq Hchunk. inversion Hchunk as [? ? sep finer run ? Hc Hrun Hfit Hstrip Hne
                                         |? ? sep finer piece ? Hc Hin Hbig Hsub]; subst.
  - apply (chunk_merged T seps' text sep finer run);
      [now rewrite <- Heq|assumption|assumption|reflexivity|assumption].
  - apply (chunk_refined T seps' text sep finer piece);
      [now rewrite <- Heq|assumption|assumption|assumption].
Qed.

Lemma chunk_of_forall seps seps' text chunks :
  coarsest seps' text = coarsest seps text ->
  Forall (chunk_of T seps text) chunks -> Forall (chunk_of T seps' text) chunks.
Proof.
  intros Heq Hchunks. eapply Forall_impl; [exact Hchunks|].
  intros chunk. apply chunk_of_coarsest. now symmetry.
Qed.

Lemma merge_chunks seps text sep finer before good after :
  coarsest seps text = Some (sep, finer) ->
  pieces text sep = before ++ good ++ after ->
  Forall (fun s => len s < chunk_size T) good ->
  Forall (chunk_of T seps text) (_merge_splits T good []).
Proof.
  intros Hc Hpieces Hgood.
  assert (Hfits : Forall (fits T) good).
  { eapply Forall_impl; [exact Hgood|]. intros s Hs. cbv beta in Hs. unfold fits. lia. }
  destruct (merge_splits_windows T size lap size_is overlap_is good Hfits)
    as (ws & Hdocs & _).
  apply Forall_forall. intros doc Hdoc. apply list_elem_of_lookup in Hdoc as [i Hi].
  destruct (Forall2_lookup_l _ _ _ _ _ Hdocs Hi) as ([b run] & _ & [aft Hall] & Hjoin & _).
  cbn [fst snd] in *. destruct (join_docs_strip _ _ Hjoin) as [Hstrip Hne].
  apply (chunk_merged T seps text sep finer run doc Hc); [| |exact Hstrip|exact Hne].
  - exists (before ++ b), (aft ++ after). rewrite Hpieces, Hall. now rewrite <- !app_assoc.
  - rewrite Hall in Hfits. apply Forall_app in Hfits as [_ Hfits].
    apply Forall_app in Hfits as [Hfits _]. exact Hfits.
Qed.

Lemma split_fold_chunks seps text sep finer recurse todo : forall final good before,
  coarsest seps text = Some (sep, finer) ->
  pieces text sep = before ++ good ++ todo ->
  Forall (chunk_of T seps text) final ->
  Forall (fun s => len s < chunk_size T) good ->
  Forall (fun s => len s < chunk_size T \/
                   exists f, recurse = Some f
                             /\ (chunk_size T < len s -> Forall (chunk_of T finer s) (f s))
                             /\ (len s = chunk_size T ->
                                 f s = push_doc [] (_join_docs T [s] []))) todo ->
  let r := fold_left (split_step T [] recurse) todo (final, good) in
  (exists before', pieces text sep = before' ++ r.2)
  /\ Forall (chunk_of T seps text) r.1
  /\ Forall (fun s => len s < chunk_size T) r.2.
Proof.
  induction todo as [|s todo IH]; intros final good before Hc Hpieces Hfinal Hgood Htodo.
  - cbn [fold_left fst snd]. rewrite app_nil_r in Hpieces. split; [eauto|]. now split.
  - apply Forall_cons in Htodo as [Hs Htodo]. cbv zeta in IH |- *. cbn [fold_left].
    destruct (len s <? chunk_size T) eqn:Hlt.
    + replace (split_step T [] recurse (final, good) s) with (final, good ++ [s])
        by (unfold split_step; now rewrite Hlt).
      apply (IH final (good ++ [s]) before Hc).
      * rewrite Hpieces. now rewrite <- !app_assoc.
      * exact Hfinal.
      * apply Forall_app. split; [exact Hgood|]. constructor; [|constructor].
        now apply Z.ltb_lt.
      * exact Htodo.
    + apply Z.ltb_ge in Hlt. destruct Hs as [Hs|(f & -> & Hbig & Hexact)]; [lia|].
      replace (split_step T [] (Some f) (final, good) s)
        with ((final ++ _merge_splits T good []) ++ f s, @nil str)
        by (unfold split_step;
            replace (len s <? chunk_size T) with false by (symmetry; apply Z.ltb_ge; lia);
            rewrite good_merge; reflexivity).
      apply (IH _ [] (before ++ good ++ [s]) Hc).
      * rewrite Hpieces. cbn [app]. now rewrite <- !app_assoc.
      * apply Forall_app. split; [apply Forall_app; split; [exact Hfinal|]|].
        { exact (merge_chunks seps text sep finer before good (s :: todo) Hc Hpieces Hgood). }
        destruct (decide (chunk_size T < len s)) as [Hgt|Hle].
        { eapply Forall_impl; [exact (Hbig Hgt)|]. intros chunk Hchunk.
          apply (chunk_refined T seps text sep finer s chunk Hc); [|exact Hgt|exact Hchunk].
          rewrite Hpieces. apply elem_of_app. right. apply elem_of_app. right.
          apply list_elem_of_here. }
        rewrite Hexact by lia.
        destruct (_join_docs T [s] []) as [doc|] eqn:Hjoin; cbn [push_doc app]; [|constructor].
        destruct (join_docs_strip _ _ Hjoin) as [Hstrip Hne].
        constructor; [|constructor].
        apply (chunk_merged T seps text sep finer [s] doc Hc); [| |exact Hstrip|exact Hne].
        { exists (before ++ good), todo. rewrite Hpieces. now rewrite <- !app_assoc. }
        { constructor; [lia|constructor]. }
      * constructor.
      * exact Htodo.
Qed.

Lemma split_with_chunks seps text sep finer recurse :
  coarsest seps text = Some (sep, finer) ->
  Forall (fun s => len s < chunk_size T \/
                   exists f, recurse = Some f
                             /\ (chunk_size T < len s -> Forall (chunk_of T finer s) (f s))
                             /\ (len s = chunk_size T ->
                                 f s = push_doc [] (_join_docs T [s] []))) (pieces text sep) ->
  Forall (chunk_of T seps text) (split_with T sep recurse text).
Proof.
  intros Hc Hpieces. unfold split_with. rewrite keeps.
  destruct (split_fold_chunks seps text sep finer recurse (pieces text sep) [] [] [] Hc)
    as ([before' Hbefore] & Hfinal & Hgood); [reflexivity|constructor|constructor|exact Hpieces|].
  unfold pieces in *. destruct (fold_left _ _ _) as [final good]. cbn [fst snd] in *.
  rewrite good_merge. apply Forall_app. split; [exact Hfinal|].
  apply (merge_chunks seps text sep finer before' good [] Hc); [|exact Hgood].
  unfold pieces. now rewrite app_nil_r.
Qed.

Lemma split_text_rec_chunks seps : forall text,
  In [] seps -> Forall (chunk_of T seps text) (_split_text T seps text).
Proof.
  induction seps as [|_s rest IH]; intros text Hin; [destruct Hin|].
  cbn [_split_text]. destruct _s as [|c _s]; cbn [nonempty negb].
  - apply (split_with_chunks _ text [] rest); [reflexivity|].
    unfold pieces, _split_text_with_regex. cbn [nonempty].
    apply Forall_forall. intros s Hs. left.
    apply list_elem_of_In, filter_In in Hs as [Hs _].
    apply in_map_iff in Hs as (x & <- & _). unfold len. simpl. lia.
  - destruct Hin as [Hin|Hin]; [discriminate|].
    destruct rest as [|s' rest']; [destruct Hin|].
    destruct (contains (c :: _s) text) eqn:Hcontains.
    + apply (split_with_chunks _ text (c :: _s) (s' :: rest')).
      { cbn [coarsest nonempty negb orb]. now rewrite Hcontains. }
      apply Forall_forall. intros s _. right. eexists. split; [reflexivity|]. split.
      * intros _. now apply IH.
      * intros Hsize. apply split_text_rec_le; [exact Hin|lia].
    + eapply chunk_of_forall; [|apply IH; exact Hin].
      cbn [coarsest nonempty negb orb]. now rewrite Hcontains.
Qed.

End text_layout.

(** C2, as the chunker has it.  The separators are tried in the order
    paragraph break, danda, newline, space, empty: every chunk is a run of
    whole pieces of the coarsest separator that occurs in the text, none
    longer than 500 characters, joined and stripped, or a chunk, under the
    finer separators, of a piece that exceeds 500 characters.  Every chunk
    has at most 500 characters.  The chunks are segments of the text, of
    at most 500 characters, with the whitespace at their ends removed; the
    segments come in text order and a segment shares at most 100
    characters of the text with the next one.  For a text without
    whitespace and without danda, which can only be cut between
    characters, every chunk but the last has exactly 500 characters and
    its last 100 characters are the first 100 of the next chunk. *)
Theorem chunks_fit_and_overlap text :
  let chunks := langchain.split_text text_splitter text in
  langchain.separators text_splitter = [ [10; 10]; [2404]; [10]; [32]; [] ]%N
  /\ Forall (chunk_of text_splitter (langchain.separators text_splitter) text) chunks
  /\ Forall (fun chunk => py.len chunk <= 500) chunks
  /\ (exists segs, laid_out 500 100 text 0 (length text) chunks segs)
  /\ (unbroken text -> overlapping 500 100 chunks).
Proof.
  intros chunks. subst chunks. split; [reflexivity|]. split; [|split; [|split]].
  - apply (split_text_rec_chunks text_splitter 500 100); try reflexivity. simpl. tauto.
  - apply (split_text_rec_fits text_splitter); try reflexivity; try (simpl; lia).
    simpl. tauto.
  - apply (split_text_rec_laid text_splitter 500 100); try reflexivity. simpl. tauto.
  - intros Htext. rewrite (unbroken_falls_to_characters text Htext).
    destruct text as [|c text]; [intros i a b Ha; discriminate|].
    apply (merge_singles_overlapping text_splitter 500 100); try reflexivity; [lia|exact Htext].
Qed.

Lemma chunks_fit_and_overlap_witness :
  let chunks := langchain.split_text text_splitter (repeat 97%N 1000) in
  map length chunks = [500; 500; 200]%nat
  /\ Forall (fun chunk => py.len chunk <= 500) chunks
  /\ overlapping 500 100 chunks.
Proof.
  intros chunks. split; [vm_compute; reflexivity|].
  destruct (chunks_fit_and_overlap (repeat 97%N 1000)) as (_ & _ & Hfit & _ & Hover).
  split; [exact Hfit|]. apply Hover.
  apply Forall_forall. intros c Hc. apply list_elem_of_In, repeat_spec in Hc. subst c.
  split; [reflexivity|discriminate].
Defined.

(** C2 fails where the chunker merges words: twelve words of 49 letters
    give two chunks, each longer than 100 characters, and the last 100
    characters of the first are not the first 100 of the second (the words
    shared are 99 characters long). *)
Lemma word_chunks_overlap_less_than_100 :
  exists a b,
    langchain.split_text text_splitter words_text = [a; b]
    /\ length a = 499%nat /\ length b = 199%nat
    /\ drop (length a - 100) a <> take 100 b
    /\ drop (length a - 99) a = take 99 b.
Proof.
  eexists _, _. split; [vm_compute; reflexivity|].
  split; [reflexivity|]. split; [reflexivity|]. split; [|vm_compute; reflexivity].
  vm_compute. discriminate.
Qed.

(** ** Examples *)

Example getitem_negative : py.getitem [10; 20; 30] (-1) = Some 30.
Proof. reflexivity. Qed.

Example getitem_out_of_range : py.getitem [10; 20; 30] 3 = None /\ py.getitem [10; 20; 30] (-4) = None.
Proof. split; reflexivity. Qed.

Example basename_of_pdf_path : cache_path_of app.PDF_PATH = "cache/bangla_document.pdf.pkl"%string.
Proof. reflexivity. Qed.

Example search_two_of_four :
  faiss.search {| faiss.d := 2; faiss.xb := [[5; 5]; [1; 0]; [0; 3]; [1; 1]] |}
    (np.asarray [[1; 2]]) 2
  = Ok ([[Some 1; Some 2]], [[3; 2]]).
Proof. vm_compute. reflexivity. Qed.

Example search_pads_with_minus_one :
  faiss.search {| faiss.d := 2; faiss.xb := [[5; 5]] |} (np.asarray [[1; 2]]) 3
  = Ok ([[Some 25; None; None]], [[0; -1; -1]]).
Proof. vm_compute. reflexivity. Qed.

Example chunk_two_pages :
  langchain.split_text text_splitter
    [2474; 2509; 2480; 2469; 2478; 32; 2474; 2499; 2487; 2509; 2464; 2494; 2404; 10; 10;
     2470; 2509; 2476; 2495; 2468; 2496; 2479; 2492; 32; 2474; 2499; 2487; 2509; 2464; 2494; 2404]%N
  = [ [2474; 2509; 2480; 2469; 2478; 32; 2474; 2499; 2487; 2509; 2464; 2494; 2404; 10; 10;
       2470; 2509; 2476; 2495; 2468; 2496; 2479; 2492; 32; 2474; 2499; 2487; 2509; 2464; 2494; 2404]%N ].
Proof. vm_compute. reflexivity. Qed.

Example chunk_words :
  map length (langchain.split_text text_splitter
     (repeat 97%N 300 ++ [32%N] ++ repeat 98%N 300 ++ [32%N] ++ repeat 99%N 300))
  = [300; 300; 300]%nat.
Proof. vm_compute. reflexivity. Qed.

Example chunk_chars :
  map length (langchain.split_text text_splitter (repeat 97%N 1000))
  = [500; 500; 200]%nat.
Proof. vm_compute. reflexivity. Qed.
